(** * minidump: memory descriptors, memory segments and the two memory lists

    A shallow embedding of
      - [minidump/common_structs.py]          (location descriptors, memory segment),
      - [minidump/streams/MemoryListStream.py]   (simple-form list),
      - [minidump/streams/Memory64ListStream.py] (full/64-form list),
    followed by the properties of these functions.

    Python integers are unbounded, so every integer of the program is a [Z];
    [bytes] values are lists of [byte]; a file object (or [io.BytesIO]) is a
    record of its contents and its cursor, threaded through a small
    state-and-exception monad. *)

From Stdlib Require Import Ascii String Strings.Byte HexString.
From Stdlib Require Import ZArith List Lia Bool Recdef FunInd Permutation Sorted.
Import ListNotations.
Local Open Scope Z_scope.

(* ===================================================================== *)
(** ** Python values: exceptions, bytes, integers from and to bytes       *)
(* ===================================================================== *)

Module Py.

(** The exceptions the modelled code can raise. [Exception_ msg] is a bare
    [Exception(msg)]; [OverflowError] comes from [int.to_bytes];
    [ValueError] from a seek to a negative offset. *)
Inductive exn : Type :=
| OverflowError
| ValueError
| Exception_ (msg : string).

(** The outcome of a call: a value or a raised exception. *)
Inductive result (A : Type) : Type :=
| Ok (a : A)
| Raise (e : exn).
Arguments Ok {A} a.
Arguments Raise {A} e.

Definition bytes := list byte.

(** [len(b)] as a Python integer. *)
Definition len {A : Type} (l : list A) : Z := Z.of_nat (length l).

(** The value of one byte, 0..255. *)
Definition byte_val (b : byte) : Z := Z.of_N (Byte.to_N b).

(** The byte whose value is [z mod 256]. *)
Definition byte_of_Z (z : Z) : byte :=
  match Byte.of_N (Z.to_N (z mod 256)) with
  | Some b => b
  | None => x00
  end.

(** [int.from_bytes(bs, byteorder="little", signed=False)]: the first byte
    is the least significant one; the empty string decodes to 0. *)
Fixpoint int_from_bytes (bs : bytes) : Z :=
  match bs with
  | [] => 0
  | b :: rest => byte_val b + 256 * int_from_bytes rest
  end.

(** The [n] little-endian base-256 digits of [x]. *)
Fixpoint le_digits (n : nat) (x : Z) : bytes :=
  match n with
  | O => []
  | S k => byte_of_Z (x mod 256) :: le_digits k (x / 256)
  end.

(** [x.to_bytes(n, byteorder="little", signed=False)]: raises
    [OverflowError] for a negative [x] and for an [x] that does not fit
    [n] bytes. *)
Definition int_to_bytes (x : Z) (n : nat) : result bytes :=
  if x <? 0 then Raise OverflowError
  else if 256 ^ Z.of_nat n <=? x then Raise OverflowError
  else Ok (le_digits n x).

(** Equality of byte strings, decided byte by byte. *)
Fixpoint starts_with (data pattern : bytes) : bool :=
  match pattern, data with
  | [], _ => true
  | _ :: _, [] => false
  | p :: ps, d :: ds => Byte.eqb p d && starts_with ds ps
  end.

(** The least index at which [pattern] occurs in [data], if any. The
    empty pattern occurs at index 0 of every string, also of the empty
    one. *)
Fixpoint find_index (data pattern : bytes) : option nat :=
  if starts_with data pattern then Some O
  else match data with
       | [] => None
       | _ :: rest => option_map S (find_index rest pattern)
       end.

(** [data.find(pattern)]: the least index of an occurrence, or -1. *)
Definition find (data pattern : bytes) : Z :=
  match find_index data pattern with
  | Some i => Z.of_nat i
  | None => -1
  end.

(** [data[k:]]: a negative [k] counts from the end, and both cases are
    clamped to the string. *)
Definition slice_from (data : bytes) (k : Z) : bytes :=
  if k <? 0 then skipn (Z.to_nat (Z.max 0 (len data + k))) data
  else skipn (Z.to_nat k) data.

(** Bytes of an ASCII string literal, for concrete inputs. *)
Definition b (s : string) : bytes := list_byte_of_string s.

End Py.

(* ===================================================================== *)
(** ** File objects                                                       *)
(* ===================================================================== *)

Module IO.
Import Py.

(** A binary file object or [io.BytesIO]: what it holds and where its
    cursor stands. The cursor is never negative, and may stand past the
    end. *)
Record FileHandler : Type := mkFile {
  contents : bytes;
  position : nat
}.

(** [io.BytesIO(chunk_data)]: the cursor starts at 0. *)
Definition BytesIO (chunk_data : bytes) : FileHandler :=
  {| contents := chunk_data; position := O |}.

(** A computation on a file object: it gives an outcome and the file
    object as the computation left it (also when it raised). *)
Definition io (A : Type) : Type := FileHandler -> result A * FileHandler.

Definition ret {A : Type} (a : A) : io A := fun fh => (Ok a, fh).

Definition raise {A : Type} (e : exn) : io A := fun fh => (Raise e, fh).

Definition bind {A B : Type} (c : io A) (k : A -> io B) : io B :=
  fun fh =>
    match c fh with
    | (Ok a, fh') => k a fh'
    | (Raise e, fh') => (Raise e, fh')
    end.

(** A pure call that may raise, run inside a file computation. *)
Definition lift {A : Type} (r : result A) : io A := fun fh => (r, fh).

Declare Scope io_scope.
Delimit Scope io_scope with io.
Notation "x <- c ;; k" := (bind c (fun x => k))
  (at level 100, c at next level, right associativity) : io_scope.
Notation "c ;; k" := (bind c (fun _ => k))
  (at level 100, right associativity) : io_scope.

(** [fh.tell()] *)
Definition tell : io Z := fun fh => (Ok (Z.of_nat (position fh)), fh).

(** [fh.seek(offset, 0)]: an absolute seek; a negative offset raises and
    leaves the cursor where it was. *)
Definition seek (offset : Z) : io Z := fun fh =>
  if offset <? 0 then (Raise ValueError, fh)
  else (Ok offset, {| contents := contents fh; position := Z.to_nat offset |}).

(** [fh.read(n)]: at most [n] bytes from the cursor on, everything up to
    the end of the file for a negative [n]; the cursor advances by the
    number of bytes returned. A read at or past the end returns the empty
    string. *)
Definition read (n : Z) : io bytes := fun fh =>
  let avail := skipn (position fh) (contents fh) in
  let out := if n <? 0 then avail else firstn (Z.to_nat n) avail in
  (Ok out, {| contents := contents fh;
              position := (position fh + length out)%nat |}).

End IO.

(* ===================================================================== *)
(** ** common_structs.py: location descriptors                            *)
(* ===================================================================== *)

Import Py IO.
Local Open Scope io_scope.

(** [MINIDUMP_LOCATION_DESCRIPTOR]: two 4-byte fields. *)
Module MINIDUMP_LOCATION_DESCRIPTOR.

Record t : Type := mk {
  DataSize : Z;
  Rva : Z
}.

Definition get_size : Z := 8.

(** [self.DataSize.to_bytes(4, ...) + self.Rva.to_bytes(4, ...)] *)
Definition to_bytes (self : t) : result bytes :=
  match int_to_bytes (DataSize self) 4 with
  | Raise e => Raise e
  | Ok d =>
    match int_to_bytes (Rva self) 4 with
    | Raise e => Raise e
    | Ok r => Ok (d ++ r)
    end
  end.

(** [cls(DataSize=int.from_bytes(buff.read(4), ...),
         Rva=int.from_bytes(buff.read(4), ...))]: the keyword arguments
    are evaluated from left to right. *)
Definition parse : io t :=
  d <- read 4 ;;
  r <- read 4 ;;
  ret {| DataSize := int_from_bytes d; Rva := int_from_bytes r |}.

End MINIDUMP_LOCATION_DESCRIPTOR.

(** [MINIDUMP_LOCATION_DESCRIPTOR64]: two 8-byte fields. *)
Module MINIDUMP_LOCATION_DESCRIPTOR64.

Record t : Type := mk {
  DataSize : Z;
  Rva : Z
}.

Definition get_size : Z := 16.

Definition to_bytes (self : t) : result bytes :=
  match int_to_bytes (DataSize self) 8 with
  | Raise e => Raise e
  | Ok d =>
    match int_to_bytes (Rva self) 8 with
    | Raise e => Raise e
    | Ok r => Ok (d ++ r)
    end
  end.

Definition parse : io t :=
  d <- read 8 ;;
  r <- read 8 ;;
  ret {| DataSize := int_from_bytes d; Rva := int_from_bytes r |}.

End MINIDUMP_LOCATION_DESCRIPTOR64.

(* ===================================================================== *)
(** ** MemoryListStream.py: the simple-form descriptor                    *)
(* ===================================================================== *)

Module MINIDUMP_MEMORY_DESCRIPTOR.

(** [MemoryLocation: MINIDUMP_LOCATION_DESCRIPTOR |
                     MINIDUMP_LOCATION_DESCRIPTOR64] *)
Inductive location : Type :=
| Loc32 (l : MINIDUMP_LOCATION_DESCRIPTOR.t)
| Loc64 (l : MINIDUMP_LOCATION_DESCRIPTOR64.t).

Definition location_to_bytes (l : location) : result bytes :=
  match l with
  | Loc32 l => MINIDUMP_LOCATION_DESCRIPTOR.to_bytes l
  | Loc64 l => MINIDUMP_LOCATION_DESCRIPTOR64.to_bytes l
  end.

Record t : Type := mk {
  StartOfMemoryRange : Z;
  MemoryLocation : location;
  DataSize : Z;
  Rva : Z
}.

(** [self.StartOfMemoryRange.to_bytes(4, ...) + self.MemoryLocation.to_bytes()] *)
Definition to_bytes (self : t) : result bytes :=
  match int_to_bytes (StartOfMemoryRange self) 4 with
  | Raise e => Raise e
  | Ok s =>
    match location_to_bytes (MemoryLocation self) with
    | Raise e => Raise e
    | Ok l => Ok (s ++ l)
    end
  end.

(** The location descriptor is parsed by the first statement of [parse],
    before the constructor call reads the eight bytes of
    [StartOfMemoryRange]. *)
Definition parse : io t :=
  MemoryLocation <- MINIDUMP_LOCATION_DESCRIPTOR.parse ;;
  s <- read 8 ;;
  ret {| StartOfMemoryRange := int_from_bytes s;
         MemoryLocation := Loc32 MemoryLocation;
         DataSize := MINIDUMP_LOCATION_DESCRIPTOR.DataSize MemoryLocation;
         Rva := MINIDUMP_LOCATION_DESCRIPTOR.Rva MemoryLocation |}.

End MINIDUMP_MEMORY_DESCRIPTOR.

(* ===================================================================== *)
(** ** Memory64ListStream.py: the full-form descriptor                    *)
(* ===================================================================== *)

Module MINIDUMP_MEMORY_DESCRIPTOR64.

Record t : Type := mk {
  StartOfMemoryRange : Z;
  DataSize : Z
}.

Definition get_size : Z := 16.

(** [b"".join([start.to_bytes(8, ...), size.to_bytes(8, ...)])] *)
Definition to_bytes (self : t) : result bytes :=
  match int_to_bytes (StartOfMemoryRange self) 8 with
  | Raise e => Raise e
  | Ok s =>
    match int_to_bytes (DataSize self) 8 with
    | Raise e => Raise e
    | Ok d => Ok (s ++ d)
    end
  end.

Definition parse : io t :=
  s <- read 8 ;;
  d <- read 8 ;;
  ret {| StartOfMemoryRange := int_from_bytes s;
         DataSize := int_from_bytes d |}.

End MINIDUMP_MEMORY_DESCRIPTOR64.

(* ===================================================================== *)
(** ** common_structs.py: the memory segment                              *)
(* ===================================================================== *)

Module MinidumpMemorySegment.

Record t : Type := mk {
  size : Z;
  start_file_address : Z;
  start_virtual_address : Z;
  end_virtual_address : Z
}.

(** The dataclass constructor followed by [__post_init__]:
    [end_virtual_address] is not an argument, it is set to
    [start_virtual_address + size]. *)
Definition init (size start_file_address start_virtual_address : Z) : t :=
  {| size := size;
     start_file_address := start_file_address;
     start_virtual_address := start_virtual_address;
     end_virtual_address := start_virtual_address + size |}.

(** The file handle argument of [parse_mini] is not used. *)
Definition parse_mini (memory_decriptor : MINIDUMP_MEMORY_DESCRIPTOR.t) : t :=
  init (MINIDUMP_MEMORY_DESCRIPTOR.DataSize memory_decriptor)
       (MINIDUMP_MEMORY_DESCRIPTOR.Rva memory_decriptor)
       (MINIDUMP_MEMORY_DESCRIPTOR.StartOfMemoryRange memory_decriptor).

Definition parse_full (memory_decriptor : MINIDUMP_MEMORY_DESCRIPTOR64.t)
           (rva : Z) : t :=
  init (MINIDUMP_MEMORY_DESCRIPTOR64.DataSize memory_decriptor)
       rva
       (MINIDUMP_MEMORY_DESCRIPTOR64.StartOfMemoryRange memory_decriptor).

(** [self.start_virtual_address <= virt_addr < self.end_virtual_address] *)
Definition inrange (self : t) (virt_addr : Z) : bool :=
  (start_virtual_address self <=? virt_addr)
  && (virt_addr <? end_virtual_address self).

Definition wrong_segment : exn := Exception_ "Reading from wrong segment!".
Definition cross_boundaries : exn := Exception_ "Read would cross boundaries!".

Definition validate_address (self : t) (virtual_address size : Z)
  : result unit :=
  if negb ((start_virtual_address self <=? virtual_address)
           && (virtual_address <=? end_virtual_address self))
  then Raise wrong_segment
  else if virtual_address + size >? end_virtual_address self
  then Raise cross_boundaries
  else Ok tt.

Definition read (self : t) (virtual_address size : Z) : io bytes :=
  lift (validate_address self virtual_address size) ;;
  pos <- tell ;;
  let offset := virtual_address - start_virtual_address self in
  seek (start_file_address self + offset) ;;
  data <- IO.read size ;;
  seek pos ;;
  ret data.

(** How a loop of [search] ends: by a [return] inside its body, or by its
    condition becoming false (the statements after the loop then run). *)
Inductive loop_exit : Type :=
| Returned (fl : list Z)
| Exhausted (fl : list Z).

(** The loop of the [find_first = False] branch:
<<
    while len(data) > len(pattern):
        marker = data.find(pattern)
        if marker == -1:
            return fl
        fl.append(marker + offset + self.start_virtual_address)
        data = data[marker + 1 :]
        offset += marker + 1
        if find_first:
            return fl
>>
    [marker] is [find data pattern] throughout a turn, and [data] gets
    shorter at every turn. *)
Function search_all_loop (pattern : bytes) (sva : Z) (find_first : bool)
         (offset : Z) (fl : list Z) (data : bytes)
         {measure length data} : loop_exit :=
  if len data >? len pattern then
    if find data pattern =? -1 then Returned fl
    else
      if find_first
      then Returned (fl ++ [find data pattern + offset + sva])
      else search_all_loop pattern sva find_first
             (offset + (find data pattern + 1))
             (fl ++ [find data pattern + offset + sva])
             (slice_from data (find data pattern + 1))
  else Exhausted fl.
Proof.
  intros pattern sva find_first offset fl data Hlen Hfound _.
  unfold find, slice_from, len in *.
  destruct (find_index data pattern) as [i|]; [|discriminate].
  destruct (Z.ltb_spec (Z.of_nat i + 1) 0) as [Hneg|_]; [lia|].
  rewrite length_skipn.
  apply Z.gtb_lt in Hlen. lia.
Defined.

(** The loop of the [find_first = True] branch:
<<
    while len(data) < self.size:
        i += 1
        if chunksize > (self.size - len(data)):
            chunksize = self.size - len(data)
        data += file_handler.read(chunksize)
        marker = data.find(pattern)
        if marker != -1:
            file_handler.seek(pos, 0)
            return [self.start_virtual_address + marker]
>>
    The counter [i] is only written. A read that returns nothing (end of
    file, or a chunk size of 0) leaves [data] as it is, and the loop then
    never ends: the model runs it for at most [fuel] turns and answers
    [None] when they do not suffice. *)
Fixpoint search_first_loop (fuel : nat) (self : t) (pattern : bytes)
         (pos chunksize : Z) (data : bytes) (file_handler : FileHandler)
  : option (result loop_exit * FileHandler) :=
  if len data <? size self then
    match fuel with
    | O => None
    | S fuel' =>
      let chunksize :=
        if chunksize >? size self - len data
        then size self - len data else chunksize in
      match IO.read chunksize file_handler with
      | (Raise e, fh) => Some (Raise e, fh)
      | (Ok chunk, fh) =>
        let data := data ++ chunk in
        let marker := find data pattern in
        if negb (marker =? -1) then
          Some ((seek pos ;;
                 ret (Returned [start_virtual_address self + marker])) fh)
        else search_first_loop fuel' self pattern pos chunksize data fh
      end
    end
  else Some (Ok (Exhausted []), file_handler).

Definition default_chunksize : Z := 50 * 1024.

(** [search(self, pattern, file_handler, find_first, chunksize)], with the
    number of turns granted to the [find_first] loop. *)
Definition search (fuel : nat) (self : t) (pattern : bytes)
           (find_first : bool) (chunksize : Z) (file_handler : FileHandler)
  : option (result (list Z) * FileHandler) :=
  if len pattern >? size self then Some (Ok [], file_handler)
  else
    match (pos <- tell ;; seek (start_file_address self) ;; ret pos)
            file_handler with
    | (Raise e, fh) => Some (Raise e, fh)
    | (Ok pos, fh) =>
      if find_first then
        let chunksize := Z.min chunksize (size self) in
        match search_first_loop fuel self pattern pos chunksize [] fh with
        | None => None
        | Some (Raise e, fh') => Some (Raise e, fh')
        | Some (Ok (Returned fl), fh') => Some (Ok fl, fh')
        | Some (Ok (Exhausted fl), fh') => Some ((seek pos ;; ret fl) fh')
        end
      else
        Some ((data <- IO.read (size self) ;;
               seek pos ;;
               match search_all_loop pattern (start_virtual_address self)
                       find_first 0 [] data with
               | Returned fl => ret fl
               | Exhausted fl => seek pos ;; ret fl
               end) fh)
    end.

End MinidumpMemorySegment.

(* ===================================================================== *)
(** ** MemoryListStream.py: the simple-form list                          *)
(* ===================================================================== *)

(** [[parse_one(buff) for _ in range(n)]]: [n] records read one after the
    other; [range] of a negative number is empty. *)
Fixpoint parse_many {A : Type} (parse_one : io A) (n : nat) : io (list A) :=
  match n with
  | O => ret []
  | S k =>
    x <- parse_one ;;
    xs <- parse_many parse_one k ;;
    ret (x :: xs)
  end.

(** [b"".join(r.to_bytes() for r in ranges)]: the first record that cannot
    be serialised raises. *)
Fixpoint join_bytes {A : Type} (to_bytes : A -> result bytes) (l : list A)
  : result bytes :=
  match l with
  | [] => Ok []
  | x :: rest =>
    match to_bytes x with
    | Raise e => Raise e
    | Ok bx =>
      match join_bytes to_bytes rest with
      | Raise e => Raise e
      | Ok br => Ok (bx ++ br)
      end
    end
  end.

Module MINIDUMP_MEMORY_LIST.

Record t : Type := mk {
  NumberOfMemoryRanges : Z;
  MemoryRanges : list MINIDUMP_MEMORY_DESCRIPTOR.t
}.

Definition to_bytes (self : t) : result bytes :=
  match int_to_bytes (len (MemoryRanges self)) 4 with
  | Raise e => Raise e
  | Ok c =>
    match join_bytes MINIDUMP_MEMORY_DESCRIPTOR.to_bytes (MemoryRanges self) with
    | Raise e => Raise e
    | Ok rs => Ok (c ++ rs)
    end
  end.

Definition parse : io t :=
  n <- read 4 ;;
  let NumberOfMemoryRanges := int_from_bytes n in
  rs <- parse_many MINIDUMP_MEMORY_DESCRIPTOR.parse
          (Z.to_nat NumberOfMemoryRanges) ;;
  ret {| NumberOfMemoryRanges := NumberOfMemoryRanges; MemoryRanges := rs |}.

End MINIDUMP_MEMORY_LIST.

Module MinidumpMemoryList.

Record t : Type := mk {
  memory_segments : list MinidumpMemorySegment.t
}.

(** [parse(cls, dir, buff)], where [location] is [dir.Location]: the
    stream's bytes are read into a buffer of their own and decoded
    there; every descriptor gives one segment. *)
Definition parse (location : MINIDUMP_LOCATION_DESCRIPTOR.t) : io t :=
  seek (MINIDUMP_LOCATION_DESCRIPTOR.Rva location) ;;
  chunk_data <- read (MINIDUMP_LOCATION_DESCRIPTOR.DataSize location) ;;
  mtl <- lift (fst (MINIDUMP_MEMORY_LIST.parse (BytesIO chunk_data))) ;;
  ret {| memory_segments :=
           map MinidumpMemorySegment.parse_mini
               (MINIDUMP_MEMORY_LIST.MemoryRanges mtl) |}.

End MinidumpMemoryList.

(* ===================================================================== *)
(** ** Memory64ListStream.py: the full/64-form list                       *)
(* ===================================================================== *)

Module MINIDUMP_MEMORY64_LIST.

Record t : Type := mk {
  NumberOfMemoryRanges : Z;
  BaseRva : Z;
  MemoryRanges : list MINIDUMP_MEMORY_DESCRIPTOR64.t
}.

Definition get_size (self : t) : Z :=
  8 + 8 + len (MemoryRanges self) * MINIDUMP_MEMORY_DESCRIPTOR64.get_size.

(** The count written is [len(self.MemoryRanges)], not the stored
    [NumberOfMemoryRanges]. *)
Definition to_bytes (self : t) : result bytes :=
  match int_to_bytes (len (MemoryRanges self)) 8 with
  | Raise e => Raise e
  | Ok c =>
    match int_to_bytes (BaseRva self) 8 with
    | Raise e => Raise e
    | Ok base =>
      match join_bytes MINIDUMP_MEMORY_DESCRIPTOR64.to_bytes
              (MemoryRanges self) with
      | Raise e => Raise e
      | Ok rs => Ok (c ++ base ++ rs)
      end
    end
  end.

Definition parse : io t :=
  n <- read 8 ;;
  let NumberOfMemoryRanges := int_from_bytes n in
  base <- read 8 ;;
  rs <- parse_many MINIDUMP_MEMORY_DESCRIPTOR64.parse
          (Z.to_nat NumberOfMemoryRanges) ;;
  ret {| NumberOfMemoryRanges := NumberOfMemoryRanges;
         BaseRva := int_from_bytes base;
         MemoryRanges := rs |}.

End MINIDUMP_MEMORY64_LIST.

Module MinidumpMemory64List.

Record t : Type := mk {
  memory_segments : list MinidumpMemorySegment.t
}.

(** The loop of [from_chunk_data]:
<<
    for mod in mtl.MemoryRanges:
        memory_segments.append(MinidumpMemorySegment.parse_full(mod, rva))
        rva += mod.DataSize
>>  *)
Fixpoint segments_loop (ranges : list MINIDUMP_MEMORY_DESCRIPTOR64.t)
         (rva : Z) (memory_segments : list MinidumpMemorySegment.t)
  : list MinidumpMemorySegment.t :=
  match ranges with
  | [] => memory_segments
  | mod_ :: rest =>
    segments_loop rest
      (rva + MINIDUMP_MEMORY_DESCRIPTOR64.DataSize mod_)
      (memory_segments ++ [MinidumpMemorySegment.parse_full mod_ rva])
  end.

Definition from_chunk_data (chunk_data : bytes) : result t :=
  match fst (MINIDUMP_MEMORY64_LIST.parse (BytesIO chunk_data)) with
  | Raise e => Raise e
  | Ok mtl =>
    Ok {| memory_segments :=
            segments_loop (MINIDUMP_MEMORY64_LIST.MemoryRanges mtl)
                          (MINIDUMP_MEMORY64_LIST.BaseRva mtl) [] |}
  end.

(** [parse(cls, dir, buff)], where [location] is [dir.Location]. *)
Definition parse (location : MINIDUMP_LOCATION_DESCRIPTOR.t) : io t :=
  seek (MINIDUMP_LOCATION_DESCRIPTOR.Rva location) ;;
  chunk_data <- read (MINIDUMP_LOCATION_DESCRIPTOR.DataSize location) ;;
  lift (from_chunk_data chunk_data).

End MinidumpMemory64List.

(* ===================================================================== *)
(** ** common_structs.py: length-prefixed strings                         *)
(* ===================================================================== *)

Module MINIDUMP_STRING.

Record t : Type := mk {
  Length : Z;
  Buffer : bytes
}.

(** [length = int.from_bytes(buff.read(4), ...)], then
    [cls(Length=length, Buffer=buff.read(length))]. *)
Definition parse : io t :=
  l <- read 4 ;;
  let length := int_from_bytes l in
  buffer <- read length ;;
  ret {| Length := length; Buffer := buffer |}.

Section Decode.

(** [bytes.decode("utf-16-le")], a codec of the Python library: it gives a
    string or raises. The functions below only pass its result on. *)
Context {str : Type}.
Variable decode_utf_16_le : bytes -> result str.

(** [get_from_rva(cls, rva, buff)]: the cursor is saved, the record at
    [rva] is parsed, the cursor is put back, and the buffer is decoded. *)
Definition get_from_rva (rva : Z) : io str :=
  pos <- tell ;;
  seek rva ;;
  ms <- parse ;;
  seek pos ;;
  lift (decode_utf_16_le (Buffer ms)).

End Decode.

End MINIDUMP_STRING.

(* ===================================================================== *)
(** ** constants.py                                                       *)
(* ===================================================================== *)

(** [class MINIDUMP_STREAM_TYPE(enum.Enum)] *)
Module MINIDUMP_STREAM_TYPE.

Inductive t : Type :=
| UnusedStream
| ReservedStream0
| ReservedStream1
| ThreadListStream
| ModuleListStream
| MemoryListStream
| ExceptionStream
| SystemInfoStream
| ThreadExListStream
| Memory64ListStream
| CommentStreamA
| CommentStreamW
| HandleDataStream
| FunctionTableStream
| UnloadedModuleListStream
| MiscInfoStream
| MemoryInfoListStream
| ThreadInfoListStream
| HandleOperationListStream
| TokenStream
| JavaScriptDataStream
| SystemMemoryInfoStream
| ProcessVmCountersStream
| ThreadNamesStream
| ceStreamNull
| ceStreamSystemInfo
| ceStreamException
| ceStreamModuleList
| ceStreamProcessList
| ceStreamThreadList
| ceStreamThreadContextList
| ceStreamThreadCallStackList
| ceStreamMemoryVirtualList
| ceStreamMemoryPhysicalList
| ceStreamBucketParameters
| ceStreamProcessModuleMap
| ceStreamDiagnosisList
| LastReservedStream.

Definition value (m : t) : Z :=
  match m with
  | UnusedStream => 0
  | ReservedStream0 => 1
  | ReservedStream1 => 2
  | ThreadListStream => 3
  | ModuleListStream => 4
  | MemoryListStream => 5
  | ExceptionStream => 6
  | SystemInfoStream => 7
  | ThreadExListStream => 8
  | Memory64ListStream => 9
  | CommentStreamA => 10
  | CommentStreamW => 11
  | HandleDataStream => 12
  | FunctionTableStream => 13
  | UnloadedModuleListStream => 14
  | MiscInfoStream => 15
  | MemoryInfoListStream => 16
  | ThreadInfoListStream => 17
  | HandleOperationListStream => 18
  | TokenStream => 19
  | JavaScriptDataStream => 20
  | SystemMemoryInfoStream => 21
  | ProcessVmCountersStream => 22
  | ThreadNamesStream => 24
  | ceStreamNull => 25
  | ceStreamSystemInfo => 26
  | ceStreamException => 27
  | ceStreamModuleList => 28
  | ceStreamProcessList => 29
  | ceStreamThreadList => 30
  | ceStreamThreadContextList => 31
  | ceStreamThreadCallStackList => 32
  | ceStreamMemoryVirtualList => 33
  | ceStreamMemoryPhysicalList => 34
  | ceStreamBucketParameters => 35
  | ceStreamProcessModuleMap => 36
  | ceStreamDiagnosisList => 37
  | LastReservedStream => 65535
  end.

(** The members, in the order of the class body. *)
Definition members : list t :=
  [UnusedStream;
   ReservedStream0;
   ReservedStream1;
   ThreadListStream;
   ModuleListStream;
   MemoryListStream;
   ExceptionStream;
   SystemInfoStream;
   ThreadExListStream;
   Memory64ListStream;
   CommentStreamA;
   CommentStreamW;
   HandleDataStream;
   FunctionTableStream;
   UnloadedModuleListStream;
   MiscInfoStream;
   MemoryInfoListStream;
   ThreadInfoListStream;
   HandleOperationListStream;
   TokenStream;
   JavaScriptDataStream;
   SystemMemoryInfoStream;
   ProcessVmCountersStream;
   ThreadNamesStream;
   ceStreamNull;
   ceStreamSystemInfo;
   ceStreamException;
   ceStreamModuleList;
   ceStreamProcessList;
   ceStreamThreadList;
   ceStreamThreadContextList;
   ceStreamThreadCallStackList;
   ceStreamMemoryVirtualList;
   ceStreamMemoryPhysicalList;
   ceStreamBucketParameters;
   ceStreamProcessModuleMap;
   ceStreamDiagnosisList;
   LastReservedStream].

(** [MINIDUMP_STREAM_TYPE(v)]: the member whose value is [v], the first one
    in the order of the class body; [ValueError] when there is none. *)
Definition of_value (v : Z) : result t :=
  match List.find (fun m => value m =? v) members with
  | Some m => Ok m
  | None => Raise ValueError
  end.

End MINIDUMP_STREAM_TYPE.

(** [class MINIDUMP_TYPE(enum.IntFlag)] *)
Module MINIDUMP_TYPE.

Inductive t : Type :=
| MiniDumpNormal
| MiniDumpWithDataSegs
| MiniDumpWithFullMemory
| MiniDumpWithHandleData
| MiniDumpFilterMemory
| MiniDumpScanMemory
| MiniDumpWithUnloadedModules
| MiniDumpWithIndirectlyReferencedMemory
| MiniDumpFilterModulePaths
| MiniDumpWithProcessThreadData
| MiniDumpWithPrivateReadWriteMemory
| MiniDumpWithoutOptionalData
| MiniDumpWithFullMemoryInfo
| MiniDumpWithThreadInfo
| MiniDumpWithCodeSegs
| MiniDumpWithoutAuxiliaryState
| MiniDumpWithFullAuxiliaryState
| MiniDumpWithPrivateWriteCopyMemory
| MiniDumpIgnoreInaccessibleMemory
| MiniDumpWithTokenInformation
| MiniDumpWithModuleHeaders
| MiniDumpFilterTriage
| MiniDumpValidTypeFlags.

Definition value (m : t) : Z :=
  match m with
  | MiniDumpNormal => 0
  | MiniDumpWithDataSegs => 1
  | MiniDumpWithFullMemory => 2
  | MiniDumpWithHandleData => 4
  | MiniDumpFilterMemory => 8
  | MiniDumpScanMemory => 16
  | MiniDumpWithUnloadedModules => 32
  | MiniDumpWithIndirectlyReferencedMemory => 64
  | MiniDumpFilterModulePaths => 128
  | MiniDumpWithProcessThreadData => 256
  | MiniDumpWithPrivateReadWriteMemory => 512
  | MiniDumpWithoutOptionalData => 1024
  | MiniDumpWithFullMemoryInfo => 2048
  | MiniDumpWithThreadInfo => 4096
  | MiniDumpWithCodeSegs => 8192
  | MiniDumpWithoutAuxiliaryState => 16384
  | MiniDumpWithFullAuxiliaryState => 32768
  | MiniDumpWithPrivateWriteCopyMemory => 65536
  | MiniDumpIgnoreInaccessibleMemory => 131072
  | MiniDumpWithTokenInformation => 262144
  | MiniDumpWithModuleHeaders => 524288
  | MiniDumpFilterTriage => 1048576
  | MiniDumpValidTypeFlags => 2097151
  end.

(** The members, in the order of the class body. *)
Definition members : list t :=
  [MiniDumpNormal;
   MiniDumpWithDataSegs;
   MiniDumpWithFullMemory;
   MiniDumpWithHandleData;
   MiniDumpFilterMemory;
   MiniDumpScanMemory;
   MiniDumpWithUnloadedModules;
   MiniDumpWithIndirectlyReferencedMemory;
   MiniDumpFilterModulePaths;
   MiniDumpWithProcessThreadData;
   MiniDumpWithPrivateReadWriteMemory;
   MiniDumpWithoutOptionalData;
   MiniDumpWithFullMemoryInfo;
   MiniDumpWithThreadInfo;
   MiniDumpWithCodeSegs;
   MiniDumpWithoutAuxiliaryState;
   MiniDumpWithFullAuxiliaryState;
   MiniDumpWithPrivateWriteCopyMemory;
   MiniDumpIgnoreInaccessibleMemory;
   MiniDumpWithTokenInformation;
   MiniDumpWithModuleHeaders;
   MiniDumpFilterTriage;
   MiniDumpValidTypeFlags].

End MINIDUMP_TYPE.

(* ===================================================================== *)
(** ** common_structs.py: the rows of the segment table                   *)
(* ===================================================================== *)

Module SegmentTable.

(** [hex(n)]: ["0x"] and the lowercase hexadecimal digits of [n], with a
    leading ["-"] for a negative [n]. *)
Definition hex (n : Z) : string := HexString.of_Z n.

(** [MinidumpMemorySegment.get_header()] *)
Definition get_header : list string :=
  ["VA Start"%string; "RVA"%string; "Size"%string].

(** [MinidumpMemorySegment.to_row(self)] *)
Definition to_row (self : MinidumpMemorySegment.t) : list string :=
  [hex (MinidumpMemorySegment.start_virtual_address self);
   hex (MinidumpMemorySegment.start_file_address self);
   hex (MinidumpMemorySegment.size self)].

(** [MinidumpMemory64List.to_table(self)]: the header, then one row per
    segment. *)
Definition to_table (self : MinidumpMemory64List.t) : list (list string) :=
  get_header :: map to_row (MinidumpMemory64List.memory_segments self).

End SegmentTable.

(* ===================================================================== *)
(** ** common_structs.py: construct_table                                 *)
(* ===================================================================== *)

Module Table.
Local Open Scope nat_scope.

(** The cells of a table are strings; lengths and widths are natural
    numbers. *)
Inductive error : Type :=
| IndexError
| TypeError.

Inductive outcome (A : Type) : Type :=
| Returns (a : A)
| Raises (e : error).
Arguments Returns {A} a.
Arguments Raises {A} e.

(** [c * n] for a one-character string [c]. *)
Fixpoint replicate (n : nat) (c : Ascii.ascii) : string :=
  match n with
  | O => EmptyString
  | S k => String c (replicate k c)
  end.

(** [while i >= len(widths): widths.append(0)] *)
Definition extend (widths : list nat) (i : nat) : list nat :=
  widths ++ repeat O (S i - length widths).

(** [widths[i] = size], for an [i] inside the list. *)
Fixpoint set_nth (widths : list nat) (i size : nat) : list nat :=
  match widths, i with
  | [], _ => []
  | _ :: rest, O => size :: rest
  | w :: rest, S j => w :: set_nth rest j size
  end.

(** The body of the inner loop of the width count:
<<
    while i >= len(widths):
        widths.append(0)
    if size > widths[i]:
        widths[i] = size
>>  *)
Definition note_size (widths : list nat) (i size : nat) : list nat :=
  let widths := extend widths i in
  if nth i widths O <? size then set_nth widths i size else widths.

(** [for i, size in enumerate(sizes): ...], counting from [i]. *)
Fixpoint note_line (widths : list nat) (i : nat) (sizes : list nat)
  : list nat :=
  match sizes with
  | [] => widths
  | size :: rest => note_line (note_size widths i size) (S i) rest
  end.

(** [for line in lines: for i, size in enumerate([len(x) for x in line])] *)
Definition count_widths (lines : list (list string)) : list nat :=
  fold_left (fun widths line => note_line widths O (map String.length line))
            lines [].

(** A format string, as the pieces [str.format] sees: replacement fields
    ["{index:width}"] and literal text. *)
Inductive piece : Type :=
| Field (index width : nat)
| Literal (text : string).

(** [print_string += "{" + str(i) + ":" + str(width) + "} | "], for
    [i, width in enumerate(widths)] counting from [i]. *)
Fixpoint build_print_string (i : nat) (widths : list nat) : list piece :=
  match widths with
  | [] => []
  | width :: rest =>
    Field i width :: Literal " | "%string :: build_print_string (S i) rest
  end.

(** A string cell formatted with a width: left-aligned, filled with spaces
    up to the width, never cut (the width 0 adds nothing, as from
    Python 3.10 on). *)
Definition pad (cell : string) (width : nat) : string :=
  (cell ++ replicate (width - String.length cell) " "%char)%string.

(** [print_string.format( *line)]: a field whose index is past the end of
    the line raises [IndexError]; arguments no field names are ignored. *)
Fixpoint format (print_string : list piece) (line : list string)
  : outcome string :=
  match print_string with
  | [] => Returns EmptyString
  | Field index width :: rest =>
    match nth_error line index with
    | None => Raises IndexError
    | Some cell =>
      match format rest line with
      | Raises e => Raises e
      | Returns t => Returns (pad cell width ++ t)%string
      end
    end
  | Literal text :: rest =>
    match format rest line with
    | Raises e => Raises e
    | Returns t => Returns (text ++ t)%string
    end
  end.

Definition newline : string := String (Ascii.ascii_of_nat 10) EmptyString.

(** The last loop:
<<
    for i, line in enumerate(lines):
        t += print_string.format( *line) + "\n"
        if i == 0 and separate_head:
            t += "-" * (sum(widths) + 3 * (len(widths) - 1)) + "\n"
>>  *)
Fixpoint rows_loop (print_string : list piece) (widths : list nat)
         (separate_head : bool) (i : nat) (lines : list (list string))
         (t : string) : outcome string :=
  match lines with
  | [] => Returns t
  | line :: rest =>
    match format print_string line with
    | Raises e => Raises e
    | Returns row =>
      let t := (t ++ row ++ newline)%string in
      let t :=
        if (i =? O) && separate_head
        then (t ++ replicate (list_sum widths + 3 * (length widths - 1)) "-"%char
                ++ newline)%string
        else t in
      rows_loop print_string widths separate_head (S i) rest t
    end
  end.

(** [construct_table(lines, separate_head)]: [None] is returned when no
    line has a cell; [print_string[:-3]] takes the last [" | "] away. *)
Definition construct_table (lines : list (list string)) (separate_head : bool)
  : outcome (option string) :=
  let widths := count_widths lines in
  let print_string := build_print_string O widths in
  match print_string with
  | [] => Returns None
  | _ :: _ =>
    let print_string := removelast print_string in
    match rows_loop print_string widths separate_head O lines EmptyString with
    | Raises e => Raises e
    | Returns t => Returns (Some t)
    end
  end.

(** [MinidumpMemory64List.__str__]: a string and [None] cannot be added. *)
Definition memory64_list_str (self : MinidumpMemory64List.t) : outcome string :=
  match construct_table (SegmentTable.to_table self) true with
  | Raises e => Raises e
  | Returns None => Raises TypeError
  | Returns (Some t) =>
    Returns ("== MinidumpMemory64List ==" ++ newline ++ t)%string
  end.

End Table.

(* ===================================================================== *)
(** ** Vocabulary of the properties                                       *)
(* ===================================================================== *)

(** The sum of the [DataSize] fields of a list of full-form descriptors. *)
Definition data_sizes_sum (ranges : list MINIDUMP_MEMORY_DESCRIPTOR64.t) : Z :=
  fold_right Z.add 0 (map MINIDUMP_MEMORY_DESCRIPTOR64.DataSize ranges).

(** The file offsets the loop of [from_chunk_data] computes, in order. *)
Definition file_offsets (base_rva : Z)
           (ranges : list MINIDUMP_MEMORY_DESCRIPTOR64.t) : list Z :=
  map MinidumpMemorySegment.start_file_address
      (MinidumpMemory64List.segments_loop ranges base_rva []).

(** Both fields of a full-form descriptor fit 64 bits. *)
Definition fits64 (d : MINIDUMP_MEMORY_DESCRIPTOR64.t) : Prop :=
  0 <= MINIDUMP_MEMORY_DESCRIPTOR64.StartOfMemoryRange d < 2 ^ 64
  /\ 0 <= MINIDUMP_MEMORY_DESCRIPTOR64.DataSize d < 2 ^ 64.

(** The invariant of a segment: a size that is not negative, and an end
    address that is the start address plus the size. *)
Definition well_formed (s : MinidumpMemorySegment.t) : Prop :=
  0 <= MinidumpMemorySegment.size s
  /\ MinidumpMemorySegment.end_virtual_address s
     = MinidumpMemorySegment.start_virtual_address s
       + MinidumpMemorySegment.size s.

(** A line of a table: its cells, each filled up to the width of its
    column, with [" | "] between them. *)
Definition table_row (widths : list nat) (line : list string) : string :=
  String.concat " | "
    (map (fun cw => Table.pad (fst cw) (snd cw)) (combine line widths)).

(** The rows of a text, each followed by a newline. *)
Definition unlines (rows : list string) : string :=
  String.concat "" (map (fun r => (r ++ Table.newline)%string) rows).

(** The rule under the head of a table, when one is asked for. *)
Definition with_rule (separate_head : bool) (rule : string)
           (rows : list string) : list string :=
  match rows with
  | [] => []
  | head :: rest => if separate_head then head :: rule :: rest else rows
  end.

(** [data] holds [pattern] at index [i]. *)
Definition occurs_at (data pattern : bytes) (i : nat) : Prop :=
  firstn (length pattern) (skipn i data) = pattern.

(* ===================================================================== *)
(** * Properties                                                          *)
(* ===================================================================== *)

(** ** Integers and their little-endian encoding *)

Section Encoding.

Lemma byte_val_range (x : byte) : 0 <= byte_val x < 256.
Proof.
  unfold byte_val. pose proof (Byte.to_N_bounded x). lia.
Qed.

Lemma byte_val_of_Z (z : Z) : byte_val (byte_of_Z z) = z mod 256.
Proof.
  unfold byte_val, byte_of_Z.
  assert (Hr : 0 <= z mod 256 < 256) by (apply Z.mod_pos_bound; lia).
  destruct (Byte.of_N (Z.to_N (z mod 256))) as [y|] eqn:E.
  - apply Byte.to_of_N in E. rewrite E. lia.
  - apply Byte.of_N_None_iff in E. lia.
Qed.

Lemma byte_of_Z_val (x : byte) : byte_of_Z (byte_val x) = x.
Proof.
  unfold byte_of_Z.
  rewrite Z.mod_small by apply byte_val_range.
  unfold byte_val. rewrite N2Z.id, Byte.of_to_N. reflexivity.
Qed.

Lemma length_le_digits (n : nat) (x : Z) : length (le_digits n x) = n.
Proof.
  revert x. induction n as [|n IH]; intros x; simpl; [|rewrite IH]; reflexivity.
Qed.

Lemma int_from_bytes_range (bs : bytes) :
  0 <= int_from_bytes bs < 256 ^ len bs.
Proof.
  unfold len. induction bs as [|x bs IH].
  - simpl. lia.
  - cbn [int_from_bytes length]. rewrite Nat2Z.inj_succ, Z.pow_succ_r by lia.
    pose proof (byte_val_range x). lia.
Qed.

(** Decoding the [n] digits of [x] gives [x] back, up to [256 ^ n]. *)
Lemma int_from_bytes_le_digits (n : nat) (x : Z) :
  0 <= x -> int_from_bytes (le_digits n x) = x mod 256 ^ Z.of_nat n.
Proof.
  revert x. induction n as [|n IH]; intros x Hx.
  - simpl. rewrite Z.mod_1_r. reflexivity.
  - cbn [le_digits int_from_bytes].
    rewrite byte_val_of_Z, IH by (apply Z.div_pos; lia).
    rewrite Nat2Z.inj_succ, Z.pow_succ_r by lia.
    rewrite Z.rem_mul_r, Z.mod_mod by lia. lia.
Qed.

(** Encoding the decoded value of a byte string gives the string back. *)
Lemma le_digits_int_from_bytes (bs : bytes) :
  le_digits (length bs) (int_from_bytes bs) = bs.
Proof.
  induction bs as [|x bs IH]; [reflexivity|].
  cbn [length le_digits int_from_bytes].
  pose proof (byte_val_range x) as Hx.
  replace ((byte_val x + 256 * int_from_bytes bs) mod 256) with (byte_val x).
  2:{ rewrite (Z.mul_comm 256), Z.mod_add by lia.
      symmetry. apply Z.mod_small. lia. }
  replace ((byte_val x + 256 * int_from_bytes bs) / 256)
    with (int_from_bytes bs).
  2:{ rewrite (Z.mul_comm 256), Z.div_add by lia.
      rewrite (Z.div_small (byte_val x)) by lia. lia. }
  rewrite byte_of_Z_val, IH. reflexivity.
Qed.

(** [int.to_bytes] succeeds exactly on the values that fit. *)
Lemma int_to_bytes_fits (x : Z) (n : nat) :
  0 <= x < 256 ^ Z.of_nat n -> int_to_bytes x n = Ok (le_digits n x).
Proof.
  intros [H0 H1]. unfold int_to_bytes.
  destruct (Z.ltb_spec x 0); [lia|].
  destruct (Z.leb_spec (256 ^ Z.of_nat n) x); [lia|]. reflexivity.
Qed.

Lemma int_to_bytes_overflow (x : Z) (n : nat) :
  x < 0 \/ 256 ^ Z.of_nat n <= x -> int_to_bytes x n = Raise OverflowError.
Proof.
  intros H. unfold int_to_bytes.
  destruct (Z.ltb_spec x 0); [reflexivity|].
  destruct (Z.leb_spec (256 ^ Z.of_nat n) x); [reflexivity|lia].
Qed.

Lemma int_from_to_bytes (x : Z) (n : nat) :
  0 <= x < 256 ^ Z.of_nat n -> int_from_bytes (le_digits n x) = x.
Proof.
  intros H. rewrite int_from_bytes_le_digits by lia.
  apply Z.mod_small. exact H.
Qed.

End Encoding.

(** ** Reading from a file object *)

Section Reading.

(** A read of [length bs] bytes at a cursor that stands in front of [bs]
    returns [bs] and moves the cursor behind it. *)
Lemma read_at (pre bs post : bytes) :
  read (len bs) (mkFile (pre ++ bs ++ post) (length pre))
  = (Ok bs, mkFile (pre ++ bs ++ post) (length pre + length bs)).
Proof.
  unfold read, len. cbn [contents position].
  destruct (Z.ltb_spec (Z.of_nat (length bs)) 0) as [H|_]; [lia|].
  rewrite Nat2Z.id, skipn_app, Nat.sub_diag, skipn_all2 by lia.
  cbn [skipn app].
  rewrite firstn_app, Nat.sub_diag, firstn_all2 by lia.
  cbn [firstn]. rewrite app_nil_r. reflexivity.
Qed.

(** A read never raises, never changes the contents, and returns a prefix
    of what lies behind the cursor. *)
Lemma read_total (n : Z) (fh : FileHandler) :
  read n fh
  = (Ok (if n <? 0 then skipn (position fh) (contents fh)
         else firstn (Z.to_nat n) (skipn (position fh) (contents fh))),
     mkFile (contents fh)
            (position fh
             + length (if n <? 0 then skipn (position fh) (contents fh)
                       else firstn (Z.to_nat n)
                              (skipn (position fh) (contents fh))))).
Proof. reflexivity. Qed.

Lemma seek_tell (fh : FileHandler) :
  seek (Z.of_nat (position fh)) fh = (Ok (Z.of_nat (position fh)), fh).
Proof.
  unfold seek. destruct (Z.ltb_spec (Z.of_nat (position fh)) 0); [lia|].
  rewrite Nat2Z.id. destruct fh; reflexivity.
Qed.

Lemma seek_ok (offset : Z) (fh : FileHandler) :
  0 <= offset ->
  seek offset fh = (Ok offset, mkFile (contents fh) (Z.to_nat offset)).
Proof.
  intros H. unfold seek. destruct (Z.ltb_spec offset 0); [lia|reflexivity].
Qed.

Lemma seek_negative (offset : Z) (fh : FileHandler) :
  offset < 0 -> seek offset fh = (Raise ValueError, fh).
Proof.
  intros H. unfold seek. destruct (Z.ltb_spec offset 0); [reflexivity|lia].
Qed.

Lemma seek_back (p : nat) (c : bytes) (q : nat) :
  seek (Z.of_nat p) (mkFile c q) = (Ok (Z.of_nat p), mkFile c p).
Proof.
  unfold seek. destruct (Z.ltb_spec (Z.of_nat p) 0); [lia|].
  rewrite Nat2Z.id. reflexivity.
Qed.

End Reading.

(** ** Fixed-width records: reading back what was written *)

Section FixedWidth.

(** A read in front of [bs], followed by [k]: [k] runs on [bs] with the
    cursor behind it. *)
Lemma bind_read_at {B : Type} (pre bs post : bytes) (n : Z) (k : bytes -> io B) :
  len bs = n ->
  bind (read n) k (mkFile (pre ++ bs ++ post) (length pre))
  = k bs (mkFile ((pre ++ bs) ++ post) (length (pre ++ bs))).
Proof.
  intros <-. unfold bind. rewrite read_at, length_app, app_assoc. reflexivity.
Qed.

Lemma len_le_digits (n : nat) (x : Z) : len (le_digits n x) = Z.of_nat n.
Proof. unfold len. rewrite length_le_digits. reflexivity. Qed.

(** Two unsigned fields of [n] bytes each, written one after the other,
    are read back by two reads of [n] bytes. *)
Lemma read_two_fields {B : Type} (n : nat) (x y : Z) (pre post : bytes)
      (k : Z -> Z -> io B) :
  0 <= x < 256 ^ Z.of_nat n ->
  0 <= y < 256 ^ Z.of_nat n ->
  (a <- read (Z.of_nat n) ;; c <- read (Z.of_nat n) ;;
   k (int_from_bytes a) (int_from_bytes c))
    (mkFile (pre ++ (le_digits n x ++ le_digits n y) ++ post) (length pre))
  = k x y (mkFile ((pre ++ le_digits n x ++ le_digits n y) ++ post)
                  (length (pre ++ le_digits n x ++ le_digits n y))).
Proof.
  intros Hx Hy.
  rewrite <- (app_assoc (le_digits n x)).
  rewrite bind_read_at by apply len_le_digits.
  rewrite bind_read_at by apply len_le_digits.
  rewrite !int_from_to_bytes by assumption.
  rewrite <- (app_assoc pre). reflexivity.
Qed.

Lemma location32_parse_at (d r : Z) (pre post : bytes) :
  0 <= d < 256 ^ Z.of_nat 4 -> 0 <= r < 256 ^ Z.of_nat 4 ->
  MINIDUMP_LOCATION_DESCRIPTOR.parse
    (mkFile (pre ++ (le_digits 4 d ++ le_digits 4 r) ++ post) (length pre))
  = (Ok (MINIDUMP_LOCATION_DESCRIPTOR.mk d r),
     mkFile (pre ++ (le_digits 4 d ++ le_digits 4 r) ++ post)
            (length pre + 8)).
Proof.
  intros Hd Hr. unfold MINIDUMP_LOCATION_DESCRIPTOR.parse.
  etransitivity;
    [exact (read_two_fields 4 d r pre post
              (fun a c => ret (MINIDUMP_LOCATION_DESCRIPTOR.mk a c)) Hd Hr)|].
  unfold ret. rewrite !length_app, !length_le_digits, <- app_assoc.
  reflexivity.
Qed.

Lemma location64_parse_at (d r : Z) (pre post : bytes) :
  0 <= d < 256 ^ Z.of_nat 8 -> 0 <= r < 256 ^ Z.of_nat 8 ->
  MINIDUMP_LOCATION_DESCRIPTOR64.parse
    (mkFile (pre ++ (le_digits 8 d ++ le_digits 8 r) ++ post) (length pre))
  = (Ok (MINIDUMP_LOCATION_DESCRIPTOR64.mk d r),
     mkFile (pre ++ (le_digits 8 d ++ le_digits 8 r) ++ post)
            (length pre + 16)).
Proof.
  intros Hd Hr. unfold MINIDUMP_LOCATION_DESCRIPTOR64.parse.
  etransitivity;
    [exact (read_two_fields 8 d r pre post
              (fun a c => ret (MINIDUMP_LOCATION_DESCRIPTOR64.mk a c)) Hd Hr)|].
  unfold ret. rewrite !length_app, !length_le_digits, <- app_assoc.
  reflexivity.
Qed.

End FixedWidth.

(** C8. Round trip of the location descriptor, in both widths: a
    descriptor whose two fields fit the width serialises to exactly
    8 (resp. 16) bytes, the little-endian digits of [DataSize] followed by
    those of [Rva] with nothing in between, and [parse] on a buffer that
    holds these bytes at the cursor gives the descriptor back and moves the
    cursor by exactly 8 (resp. 16). *)
Theorem location_descriptor_roundtrip :
  (forall (v : MINIDUMP_LOCATION_DESCRIPTOR.t) (pre post : bytes),
      0 <= MINIDUMP_LOCATION_DESCRIPTOR.DataSize v < 2 ^ 32 ->
      0 <= MINIDUMP_LOCATION_DESCRIPTOR.Rva v < 2 ^ 32 ->
      exists bs,
        MINIDUMP_LOCATION_DESCRIPTOR.to_bytes v = Ok bs
        /\ bs = le_digits 4 (MINIDUMP_LOCATION_DESCRIPTOR.DataSize v)
                ++ le_digits 4 (MINIDUMP_LOCATION_DESCRIPTOR.Rva v)
        /\ length bs = 8%nat
        /\ fst (MINIDUMP_LOCATION_DESCRIPTOR.parse (BytesIO bs)) = Ok v
        /\ MINIDUMP_LOCATION_DESCRIPTOR.parse
             (mkFile (pre ++ bs ++ post) (length pre))
           = (Ok v, mkFile (pre ++ bs ++ post) (length pre + 8)))
  /\
  (forall (v : MINIDUMP_LOCATION_DESCRIPTOR64.t) (pre post : bytes),
      0 <= MINIDUMP_LOCATION_DESCRIPTOR64.DataSize v < 2 ^ 64 ->
      0 <= MINIDUMP_LOCATION_DESCRIPTOR64.Rva v < 2 ^ 64 ->
      exists bs,
        MINIDUMP_LOCATION_DESCRIPTOR64.to_bytes v = Ok bs
        /\ bs = le_digits 8 (MINIDUMP_LOCATION_DESCRIPTOR64.DataSize v)
                ++ le_digits 8 (MINIDUMP_LOCATION_DESCRIPTOR64.Rva v)
        /\ length bs = 16%nat
        /\ fst (MINIDUMP_LOCATION_DESCRIPTOR64.parse (BytesIO bs)) = Ok v
        /\ MINIDUMP_LOCATION_DESCRIPTOR64.parse
             (mkFile (pre ++ bs ++ post) (length pre))
           = (Ok v, mkFile (pre ++ bs ++ post) (length pre + 16))).
Proof.
  split.
  - intros [d r] pre post Hd Hr. cbn [MINIDUMP_LOCATION_DESCRIPTOR.DataSize
                                      MINIDUMP_LOCATION_DESCRIPTOR.Rva] in *.
    change (2 ^ 32) with (256 ^ Z.of_nat 4) in Hd, Hr.
    exists (le_digits 4 d ++ le_digits 4 r).
    split; [|split; [reflexivity|split; [|split]]].
    + unfold MINIDUMP_LOCATION_DESCRIPTOR.to_bytes.
      cbn [MINIDUMP_LOCATION_DESCRIPTOR.DataSize MINIDUMP_LOCATION_DESCRIPTOR.Rva].
      rewrite !int_to_bytes_fits by assumption. reflexivity.
    + rewrite length_app, !length_le_digits. reflexivity.
    + pose proof (location32_parse_at d r [] [] Hd Hr) as Hparse.
      cbn [app length] in Hparse.
      rewrite app_nil_r in Hparse. unfold BytesIO. rewrite Hparse. reflexivity.
    + apply location32_parse_at; assumption.
  - intros [d r] pre post Hd Hr. cbn [MINIDUMP_LOCATION_DESCRIPTOR64.DataSize
                                      MINIDUMP_LOCATION_DESCRIPTOR64.Rva] in *.
    change (2 ^ 64) with (256 ^ Z.of_nat 8) in Hd, Hr.
    exists (le_digits 8 d ++ le_digits 8 r).
    split; [|split; [reflexivity|split; [|split]]].
    + unfold MINIDUMP_LOCATION_DESCRIPTOR64.to_bytes.
      cbn [MINIDUMP_LOCATION_DESCRIPTOR64.DataSize MINIDUMP_LOCATION_DESCRIPTOR64.Rva].
      rewrite !int_to_bytes_fits by assumption. reflexivity.
    + rewrite length_app, !length_le_digits. reflexivity.
    + pose proof (location64_parse_at d r [] [] Hd Hr) as Hparse.
      cbn [app length] in Hparse.
      rewrite app_nil_r in Hparse. unfold BytesIO. rewrite Hparse. reflexivity.
    + apply location64_parse_at; assumption.
Qed.

Lemma location_descriptor_roundtrip_witness :
  (0 <= 4096 < 2 ^ 32 /\ 0 <= 512 < 2 ^ 32)
  /\ (exists bs,
         MINIDUMP_LOCATION_DESCRIPTOR.to_bytes
           (MINIDUMP_LOCATION_DESCRIPTOR.mk 4096 512) = Ok bs
         /\ length bs = 8%nat
         /\ fst (MINIDUMP_LOCATION_DESCRIPTOR.parse (BytesIO bs))
            = Ok (MINIDUMP_LOCATION_DESCRIPTOR.mk 4096 512))
  /\ (0 <= 2 ^ 40 < 2 ^ 64 /\ 0 <= 2 ^ 33 + 7 < 2 ^ 64)
  /\ (exists bs,
         MINIDUMP_LOCATION_DESCRIPTOR64.to_bytes
           (MINIDUMP_LOCATION_DESCRIPTOR64.mk (2 ^ 40) (2 ^ 33 + 7)) = Ok bs
         /\ length bs = 16%nat
         /\ fst (MINIDUMP_LOCATION_DESCRIPTOR64.parse (BytesIO bs))
            = Ok (MINIDUMP_LOCATION_DESCRIPTOR64.mk (2 ^ 40) (2 ^ 33 + 7))).
Proof.
  destruct location_descriptor_roundtrip as [H32 H64].
  assert (A : 0 <= 4096 < 2 ^ 32 /\ 0 <= 512 < 2 ^ 32) by (cbn; lia).
  assert (C : 0 <= 2 ^ 40 < 2 ^ 64 /\ 0 <= 2 ^ 33 + 7 < 2 ^ 64) by (cbn; lia).
  split; [exact A|]. split; [|split; [exact C|]].
  - destruct (H32 (MINIDUMP_LOCATION_DESCRIPTOR.mk 4096 512) [] []
                  (proj1 A) (proj2 A)) as (bs & Hto & _ & Hlen & Hp & _).
    exists bs. auto.
  - destruct (H64 (MINIDUMP_LOCATION_DESCRIPTOR64.mk (2 ^ 40) (2 ^ 33 + 7)) [] []
                  (proj1 C) (proj2 C)) as (bs & Hto & _ & Hlen & Hp & _).
    exists bs. auto.
Defined.

(** ** Short buffers *)

Section ShortBuffers.

(** The bytes a second read finds are those behind the ones the first
    read returned. *)
Lemma skipn_after_read (n p : nat) (c : bytes) :
  skipn (p + length (firstn n (skipn p c))) c = skipn n (skipn p c).
Proof.
  rewrite length_firstn, length_skipn, skipn_skipn.
  destruct (Nat.le_gt_cases n (length c - p)) as [H|H].
  - rewrite Nat.min_l by exact H. f_equal. apply Nat.add_comm.
  - rewrite Nat.min_r by lia.
    rewrite !skipn_all2 by lia. reflexivity.
Qed.

(** Two reads of [n] bytes on any file object: no exception, whatever is
    left behind the cursor. *)
Lemma read_twice {B : Type} (n : nat) (k : bytes -> bytes -> io B)
      (fh : FileHandler) :
  (a <- read (Z.of_nat n) ;; c <- read (Z.of_nat n) ;; k a c) fh
  = k (firstn n (skipn (position fh) (contents fh)))
      (firstn n (skipn n (skipn (position fh) (contents fh))))
      (mkFile (contents fh)
              (position fh
               + Nat.min (2 * n) (length (contents fh) - position fh))).
Proof.
  destruct fh as [c p]. unfold bind, read. cbn [contents position].
  destruct (Z.ltb_spec (Z.of_nat n) 0) as [H|_]; [lia|].
  rewrite Nat2Z.id, skipn_after_read. f_equal. f_equal.
  rewrite !length_firstn, !length_skipn. lia.
Qed.

End ShortBuffers.

(** C9, counterexample. On a buffer of three bytes the 32-bit [parse]
    raises nothing: it returns a descriptor; so does the 64-bit [parse] on
    a buffer of nine bytes. *)
Lemma location_descriptor_parse_short_counterexample :
  (length [x01; x02; x03] < 8)%nat
  /\ fst (MINIDUMP_LOCATION_DESCRIPTOR.parse (BytesIO [x01; x02; x03]))
     = Ok (MINIDUMP_LOCATION_DESCRIPTOR.mk 197121 0)
  /\ ~ (exists e,
           fst (MINIDUMP_LOCATION_DESCRIPTOR.parse (BytesIO [x01; x02; x03]))
           = Raise e)
  /\ (length [x01; x00; x00; x00; x00; x00; x00; x00; x02] < 16)%nat
  /\ fst (MINIDUMP_LOCATION_DESCRIPTOR64.parse
            (BytesIO [x01; x00; x00; x00; x00; x00; x00; x00; x02]))
     = Ok (MINIDUMP_LOCATION_DESCRIPTOR64.mk 1 2).
Proof.
  split; [cbn; lia|]. split; [reflexivity|]. split.
  - intros [e He]. discriminate He.
  - split; [cbn; lia|reflexivity].
Qed.

(** C9, as the code has it. [parse] checks nothing: on every buffer, short
    or not, it returns a descriptor. [DataSize] is decoded from the first
    4 (resp. 8) bytes behind the cursor, or from as many as there are,
    [Rva] from the 4 (resp. 8) bytes after those, or from as many as there
    are; a field with no byte left is 0. The cursor moves by 8 (resp. 16),
    or to the end of the buffer. *)
Theorem location_descriptor_parse_short :
  forall fh : FileHandler,
    let avail := skipn (position fh) (contents fh) in
    MINIDUMP_LOCATION_DESCRIPTOR.parse fh
    = (Ok (MINIDUMP_LOCATION_DESCRIPTOR.mk
             (int_from_bytes (firstn 4 avail))
             (int_from_bytes (firstn 4 (skipn 4 avail)))),
       mkFile (contents fh) (position fh + Nat.min 8 (length avail)))
    /\ MINIDUMP_LOCATION_DESCRIPTOR64.parse fh
       = (Ok (MINIDUMP_LOCATION_DESCRIPTOR64.mk
                (int_from_bytes (firstn 8 avail))
                (int_from_bytes (firstn 8 (skipn 8 avail)))),
          mkFile (contents fh) (position fh + Nat.min 16 (length avail)))
    /\ (avail = [] ->
        fst (MINIDUMP_LOCATION_DESCRIPTOR.parse fh)
        = Ok (MINIDUMP_LOCATION_DESCRIPTOR.mk 0 0)).
Proof.
  intros fh avail.
  assert (H32 : MINIDUMP_LOCATION_DESCRIPTOR.parse fh
                = (Ok (MINIDUMP_LOCATION_DESCRIPTOR.mk
                         (int_from_bytes (firstn 4 avail))
                         (int_from_bytes (firstn 4 (skipn 4 avail)))),
                   mkFile (contents fh) (position fh + Nat.min 8 (length avail)))).
  { unfold MINIDUMP_LOCATION_DESCRIPTOR.parse.
    etransitivity;
      [exact (read_twice 4 (fun a c => ret (MINIDUMP_LOCATION_DESCRIPTOR.mk
                                              (int_from_bytes a)
                                              (int_from_bytes c))) fh)|].
    unfold ret, avail. rewrite length_skipn. reflexivity. }
  split; [exact H32|]. split.
  - unfold MINIDUMP_LOCATION_DESCRIPTOR64.parse.
    etransitivity;
      [exact (read_twice 8 (fun a c => ret (MINIDUMP_LOCATION_DESCRIPTOR64.mk
                                              (int_from_bytes a)
                                              (int_from_bytes c))) fh)|].
    unfold ret, avail. rewrite length_skipn. reflexivity.
  - intros Hnil. rewrite H32, Hnil. reflexivity.
Qed.

Lemma location_descriptor_parse_short_witness :
  skipn (position (BytesIO [])) (contents (BytesIO [])) = []
  /\ fst (MINIDUMP_LOCATION_DESCRIPTOR.parse (BytesIO []))
     = Ok (MINIDUMP_LOCATION_DESCRIPTOR.mk 0 0).
Proof.
  split; [reflexivity|].
  exact (proj2 (proj2 (location_descriptor_parse_short (BytesIO []))) eq_refl).
Defined.

(** ** The memory segment: bounds *)

Section SegmentBounds.
Import MinidumpMemorySegment.

Variable self : MinidumpMemorySegment.t.

Let sva := start_virtual_address self.
Let eva := end_virtual_address self.

(** The three outcomes of [validate_address], by the position of the
    request. *)
Lemma validate_address_cases (va sz : Z) :
  (va < sva \/ eva < va -> validate_address self va sz = Raise wrong_segment)
  /\ (sva <= va <= eva -> eva < va + sz ->
      validate_address self va sz = Raise cross_boundaries)
  /\ (sva <= va <= eva -> va + sz <= eva ->
      validate_address self va sz = Ok tt).
Proof.
  unfold validate_address. fold sva eva.
  destruct (Z.leb_spec sva va), (Z.leb_spec va eva); cbn [andb negb];
    destruct (Z.gtb_spec (va + sz) eva); repeat split; intros; try lia;
      reflexivity.
Qed.

Lemma init_end (sz sfa s : Z) :
  end_virtual_address (init sz sfa s) = start_virtual_address (init sz sfa s) + size (init sz sfa s).
Proof. reflexivity. Qed.

End SegmentBounds.

(** C5. [validate_address(va, len)] succeeds exactly when
    [start <= va <= end] and [va + len <= end]; it raises when [va < start],
    when [va > end] and when [va + len > end]; and it accepts [va = end]
    with [len = 0] (on a segment whose start is not behind its end, as
    every segment of non-negative size is). *)
Theorem validate_address_iff :
  forall (self : MinidumpMemorySegment.t) (va len : Z),
    let sva := MinidumpMemorySegment.start_virtual_address self in
    let eva := MinidumpMemorySegment.end_virtual_address self in
    (MinidumpMemorySegment.validate_address self va len = Ok tt
     <-> (sva <= va <= eva /\ va + len <= eva))
    /\ (va < sva ->
        exists e, MinidumpMemorySegment.validate_address self va len = Raise e)
    /\ (va > eva ->
        exists e, MinidumpMemorySegment.validate_address self va len = Raise e)
    /\ (va + len > eva ->
        exists e, MinidumpMemorySegment.validate_address self va len = Raise e)
    /\ (sva <= eva ->
        MinidumpMemorySegment.validate_address self eva 0 = Ok tt).
Proof.
  intros self va len sva eva.
  destruct (validate_address_cases self va len) as (Hout & Hcross & Hok).
  fold sva eva in Hout, Hcross, Hok.
  assert (Hdec : va < sva \/ eva < va
                 \/ (sva <= va <= eva /\ eva < va + len)
                 \/ (sva <= va <= eva /\ va + len <= eva)) by lia.
  split; [split|].
  - intros Hv.
    destruct Hdec as [H|[H|[[H1 H2]|H]]]; try exact H.
    + rewrite Hout in Hv by lia. discriminate Hv.
    + rewrite Hout in Hv by lia. discriminate Hv.
    + rewrite Hcross in Hv by lia. discriminate Hv.
  - intros [H1 H2]. apply Hok; assumption.
  - split; [|split; [|split]].
    + intros H. eexists. apply Hout. lia.
    + intros H. eexists. apply Hout. lia.
    + intros H.
      destruct Hdec as [H'|[H'|[[H1 H2]|[H1 H2]]]].
      * eexists. apply Hout. lia.
      * eexists. apply Hout. lia.
      * eexists. apply Hcross; assumption.
      * lia.
    + intros H.
      destruct (validate_address_cases self eva 0) as (_ & _ & Hok').
      apply Hok'; fold sva eva; lia.
Qed.

Lemma validate_address_iff_witness :
  let self := MinidumpMemorySegment.init 16 512 4096 in
  (4096 <= 4100 <= 4112 /\ 4100 + 12 <= 4112)
  /\ MinidumpMemorySegment.validate_address self 4100 12 = Ok tt
  /\ (exists e, MinidumpMemorySegment.validate_address self 4095 1 = Raise e)
  /\ (exists e, MinidumpMemorySegment.validate_address self 4113 0 = Raise e)
  /\ (exists e, MinidumpMemorySegment.validate_address self 4100 13 = Raise e)
  /\ MinidumpMemorySegment.validate_address self 4112 0 = Ok tt.
Proof.
  intros self.
  assert (A : 4096 <= 4100 <= 4112 /\ 4100 + 12 <= 4112) by lia.
  split; [exact A|]. split; [|split; [|split; [|split]]].
  - exact (proj2 (proj1 (validate_address_iff self 4100 12)) A).
  - apply (proj1 (proj2 (validate_address_iff self 4095 1))). cbn. lia.
  - apply (proj1 (proj2 (proj2 (validate_address_iff self 4113 0)))). cbn. lia.
  - apply (proj1 (proj2 (proj2 (proj2 (validate_address_iff self 4100 13))))).
    cbn. lia.
  - apply (proj2 (proj2 (proj2 (proj2 (validate_address_iff self 4100 12))))).
    cbn. lia.
Defined.

(** C10. [inrange(va)] holds exactly when [start <= va < end]; so
    [inrange(end)] is false, although [validate_address(end, 0)] succeeds
    (on a segment whose start is not behind its end): the two tests
    disagree at [va = end]. *)
Theorem inrange_half_open :
  forall (self : MinidumpMemorySegment.t) (va : Z),
    let sva := MinidumpMemorySegment.start_virtual_address self in
    let eva := MinidumpMemorySegment.end_virtual_address self in
    (MinidumpMemorySegment.inrange self va = true <-> sva <= va < eva)
    /\ MinidumpMemorySegment.inrange self eva = false
    /\ (sva <= eva ->
        MinidumpMemorySegment.validate_address self eva 0 = Ok tt).
Proof.
  intros self va sva eva. unfold MinidumpMemorySegment.inrange.
  fold sva eva. split; [|split].
  - rewrite andb_true_iff, Z.leb_le, Z.ltb_lt. reflexivity.
  - rewrite Z.ltb_irrefl. apply andb_false_r.
  - intros H.
    destruct (validate_address_cases self eva 0) as (_ & _ & Hok).
    apply Hok; fold sva eva; lia.
Qed.

Lemma inrange_half_open_witness :
  let self := MinidumpMemorySegment.init 16 512 4096 in
  4096 <= 4112
  /\ MinidumpMemorySegment.inrange self 4112 = false
  /\ MinidumpMemorySegment.validate_address self 4112 0 = Ok tt
  /\ MinidumpMemorySegment.inrange self 4111 = true.
Proof.
  intros self.
  assert (A : 4096 <= 4112) by lia.
  destruct (inrange_half_open self 4111) as (Hiff & Hend & Hval).
  split; [exact A|]. split; [exact Hend|]. split; [exact (Hval A)|].
  apply Hiff. cbn. lia.
Defined.

(** ** The memory segment: reading *)

(** C6. [read] leaves the file object as it found it, cursor included, on
    every path: when [validate_address] rejects the request (nothing is
    done to the file object), and when it accepts it (the cursor is saved,
    moved to [start_file_address + (va - start_virtual_address)], [len]
    bytes are read there, and the cursor is put back). On success the
    result is what the file holds at that offset: [len] bytes, or as many
    as the file has left. *)
Theorem read_restores_cursor :
  forall (self : MinidumpMemorySegment.t) (va len : Z) (fh : FileHandler),
    let file_offset :=
      MinidumpMemorySegment.start_file_address self
      + (va - MinidumpMemorySegment.start_virtual_address self) in
    snd (MinidumpMemorySegment.read self va len fh) = fh
    /\ (forall e,
           MinidumpMemorySegment.validate_address self va len = Raise e ->
           MinidumpMemorySegment.read self va len fh = (Raise e, fh))
    /\ (MinidumpMemorySegment.validate_address self va len = Ok tt ->
        0 <= file_offset -> 0 <= len ->
        MinidumpMemorySegment.read self va len fh
        = (Ok (firstn (Z.to_nat len)
                      (skipn (Z.to_nat file_offset) (contents fh))), fh)).
Proof.
  intros self va len [c p] file_offset.
  unfold MinidumpMemorySegment.read, bind, lift, tell.
  fold file_offset. cbn [position contents].
  destruct (MinidumpMemorySegment.validate_address self va len) as [[]|e] eqn:Hv.
  - destruct (Z.lt_ge_cases file_offset 0) as [Hneg|Hpos].
    + rewrite seek_negative by exact Hneg.
      split; [reflexivity|]. split; [intros e He; discriminate He|].
      intros _ H. lia.
    + rewrite seek_ok by exact Hpos.
      unfold IO.read. cbn [position contents].
      rewrite seek_back. unfold ret.
      split; [reflexivity|]. split; [intros e He; discriminate He|].
      intros _ _ Hlen.
      destruct (Z.ltb_spec len 0) as [H|_]; [lia|]. reflexivity.
  - split; [reflexivity|]. split.
    + intros e' He'. inversion He'; subst. reflexivity.
    + intros H. discriminate H.
Qed.

Lemma read_restores_cursor_witness :
  let self := MinidumpMemorySegment.init 5 2 4096 in
  let fh := mkFile (b "xxABABAyy") 7 in
  MinidumpMemorySegment.validate_address self 4097 3 = Ok tt
  /\ MinidumpMemorySegment.read self 4097 3 fh = (Ok (b "BAB"), fh)
  /\ MinidumpMemorySegment.validate_address self 4097 5 = Raise MinidumpMemorySegment.cross_boundaries
  /\ MinidumpMemorySegment.read self 4097 5 fh
     = (Raise MinidumpMemorySegment.cross_boundaries, fh).
Proof.
  intros self fh.
  assert (A : MinidumpMemorySegment.validate_address self 4097 3 = Ok tt)
    by reflexivity.
  assert (C : MinidumpMemorySegment.validate_address self 4097 5
              = Raise MinidumpMemorySegment.cross_boundaries) by reflexivity.
  split; [exact A|]. split; [|split; [exact C|]].
  - refine (proj2 (proj2 (read_restores_cursor self 4097 3 fh)) A _ _);
      cbn; lia.
  - exact (proj1 (proj2 (read_restores_cursor self 4097 5 fh)) _ C).
Defined.

(** ** The memory segment: searching *)

(** Projections of a segment given by its fields. *)
Ltac segment_fields :=
  cbn [MinidumpMemorySegment.size MinidumpMemorySegment.start_file_address
       MinidumpMemorySegment.start_virtual_address
       MinidumpMemorySegment.end_virtual_address].

Section SearchRuns.
Import MinidumpMemorySegment.

Lemma skipn_app_plus (pre l : bytes) (k : nat) :
  skipn (length pre + k) (pre ++ l) = skipn k l.
Proof. induction pre as [|x pre IH]; [reflexivity|exact IH]. Qed.

(** A read with the cursor [k] bytes into the part [l] of the file. *)
Lemma read_inside (pre l : bytes) (k : nat) (n : Z) :
  0 <= n ->
  IO.read n (mkFile (pre ++ l) (length pre + k))
  = (Ok (firstn (Z.to_nat n) (skipn k l)),
     mkFile (pre ++ l)
            (length pre + k + length (firstn (Z.to_nat n) (skipn k l)))).
Proof.
  intros Hn. unfold IO.read. cbn [contents position].
  rewrite skipn_app_plus.
  destruct (Z.ltb_spec n 0) as [H|_]; [lia|]. reflexivity.
Qed.

(** The cursor is saved and moved to the segment's first byte. *)
Lemma search_prologue (sfa : nat) (c : bytes) (p : nat) :
  (pos <- tell ;; seek (Z.of_nat sfa) ;; ret pos) (mkFile c p)
  = (Ok (Z.of_nat p), mkFile c sfa).
Proof.
  unfold bind, tell, ret. cbn [position contents].
  rewrite seek_back. reflexivity.
Qed.

(** One turn of the scan for all matches that finds the pattern. *)
Lemma search_all_loop_hit (pattern data : bytes) (sva offset m : Z)
      (fl : list Z) :
  len pattern < len data ->
  find data pattern = m -> m <> -1 ->
  search_all_loop pattern sva false offset fl data
  = search_all_loop pattern sva false (offset + (m + 1))
      (fl ++ [m + offset + sva]) (slice_from data (m + 1)).
Proof.
  intros Hlen Hm Hne. rewrite search_all_loop_equation. rewrite Hm.
  destruct (Z.gtb_spec (len data) (len pattern)); [|lia].
  destruct (Z.eqb_spec m (-1)); [contradiction|reflexivity].
Qed.

(** The turn that finds nothing returns from inside the loop. *)
Lemma search_all_loop_miss (pattern data : bytes) (sva offset : Z)
      (find_first : bool) (fl : list Z) :
  len pattern < len data ->
  find data pattern = -1 ->
  search_all_loop pattern sva find_first offset fl data = Returned fl.
Proof.
  intros Hlen Hm. rewrite search_all_loop_equation. rewrite Hm.
  destruct (Z.gtb_spec (len data) (len pattern)); [reflexivity|lia].
Qed.

(** The loop ends when the data is not longer than the pattern. *)
Lemma search_all_loop_stop (pattern data : bytes) (sva offset : Z)
      (find_first : bool) (fl : list Z) :
  len data <= len pattern ->
  search_all_loop pattern sva find_first offset fl data = Exhausted fl.
Proof.
  intros Hlen. rewrite search_all_loop_equation.
  destruct (Z.gtb_spec (len data) (len pattern)); [lia|reflexivity].
Qed.

(** The scan for all matches over "ABABA": two turns, then two bytes are
    not more than three. *)
Lemma search_all_loop_ABABA (sva : Z) :
  search_all_loop (b "ABA") sva false 0 [] (b "ABABA")
  = Exhausted [sva + 0; sva + 2].
Proof.
  rewrite (search_all_loop_hit _ _ _ _ 0) by (reflexivity || discriminate).
  change (slice_from (b "ABABA") (0 + 1)) with (b "BABA").
  rewrite (search_all_loop_hit _ _ _ _ 1) by (reflexivity || discriminate).
  change (slice_from (b "BABA") (1 + 1)) with (b "BA").
  rewrite search_all_loop_stop by (cbn; lia).
  cbn [app]. f_equal. f_equal; [|f_equal]; lia.
Qed.

End SearchRuns.

(** C3. Over a segment whose five bytes in the file are "ABABA", the
    search for "ABA" with [find_first = False] returns the two addresses
    [start_virtual_address + 0] and [start_virtual_address + 2], in this
    order, wherever the segment lies in the file and wherever the cursor
    stands, and leaves the cursor there. *)
Theorem search_all_ABABA :
  forall (fuel : nat) (sva eva chunksize : Z) (pre post : bytes) (p : nat),
    let self := MinidumpMemorySegment.mk 5 (len pre) sva eva in
    let fh := mkFile (pre ++ b "ABABA" ++ post) p in
    MinidumpMemorySegment.search fuel self (b "ABA") false chunksize fh
    = Some (Ok [sva + 0; sva + 2], fh).
Proof.
  intros fuel sva eva chunksize pre post p self fh.
  unfold MinidumpMemorySegment.search, self, fh, len.
  segment_fields.
  change (Z.of_nat (length (b "ABA")) >? 5) with false. cbv iota.
  rewrite search_prologue. unfold bind at 1.
  rewrite <- (Nat.add_0_r (length pre)) at 1.
  rewrite read_inside by lia.
  change (firstn (Z.to_nat 5) (skipn 0 (b "ABABA" ++ post))) with (b "ABABA").
  unfold bind at 1. rewrite seek_back.
  rewrite search_all_loop_ABABA.
  unfold bind. rewrite seek_back. reflexivity.
Qed.

(** C4. With [find_first = True] and a chunk size of 4, over a segment
    whose seven bytes are "AABCCDD", the pattern "BCC" is found although
    it lies in neither chunk alone ("AABC" and "CDD"): the second turn
    searches the seven bytes read so far. The result is the one address
    [start_virtual_address + 2], for every number of turns of at least
    two, and the cursor is back where it stood. *)
Theorem search_first_straddles_chunks :
  forall (fuel : nat) (sva eva : Z) (pre post : bytes) (p : nat),
    let self := MinidumpMemorySegment.mk 7 (len pre) sva eva in
    let fh := mkFile (pre ++ b "AABCCDD" ++ post) p in
    MinidumpMemorySegment.search (2 + fuel) self (b "BCC") true 4 fh
    = Some (Ok [sva + 2], fh)
    /\ find (b "AABC") (b "BCC") = -1
    /\ find (b "CDD") (b "BCC") = -1.
Proof.
  intros fuel sva eva pre post p self fh.
  split; [|split; reflexivity].
  unfold MinidumpMemorySegment.search, self, fh, len.
  segment_fields.
  change (Z.of_nat (length (b "BCC")) >? 7) with false. cbv iota.
  rewrite search_prologue.
  change (Z.min 4 7) with 4.
  cbn [MinidumpMemorySegment.search_first_loop Nat.add
       MinidumpMemorySegment.size MinidumpMemorySegment.start_virtual_address].
  change (len (@nil byte) <? 7) with true. cbv iota.
  change (4 >? 7 - len (@nil byte)) with false. cbv iota.
  rewrite <- (Nat.add_0_r (length pre)) at 1.
  rewrite read_inside by lia.
  change (firstn (Z.to_nat 4) (skipn 0 (b "AABCCDD" ++ post))) with (b "AABC").
  change (find ([] ++ b "AABC") (b "BCC")) with (-1).
  change (negb (-1 =? -1)) with false. cbv iota.
  change (len ([] ++ b "AABC") <? 7) with true. cbv iota.
  change (4 >? 7 - len ([] ++ b "AABC")) with true. cbv iota.
  change (7 - len ([] ++ b "AABC")) with 3.
  change (length pre + 0 + length (b "AABC"))%nat with (length pre + 0 + 4)%nat.
  rewrite <- Nat.add_assoc.
  rewrite read_inside by lia.
  change (firstn (Z.to_nat 3) (skipn (0 + 4) (b "AABCCDD" ++ post)))
    with (b "CDD").
  change (find (([] ++ b "AABC") ++ b "CDD") (b "BCC")) with 2.
  change (negb (2 =? -1)) with true. cbv iota.
  unfold bind. rewrite seek_back. reflexivity.
Qed.

(** ** What the scan for all matches finds *)

Section Occurrences.
Import MinidumpMemorySegment.

Lemma starts_with_firstn (pattern data : bytes) :
  starts_with data pattern = true <-> firstn (length pattern) data = pattern.
Proof.
  revert data. induction pattern as [|x ps IH]; intros data.
  - destruct data; cbn; split; reflexivity.
  - destruct data as [|d ds]; cbn [starts_with length firstn].
    + split; discriminate.
    + rewrite andb_true_iff, IH. split.
      * intros [Hb Hf]. apply byte_dec_bl in Hb. subst d. rewrite Hf.
        reflexivity.
      * intros Heq. injection Heq as -> Hf. split; [|exact Hf].
        apply byte_dec_lb. reflexivity.
Qed.

Lemma occurs_at_0 (data pattern : bytes) :
  occurs_at data pattern 0 <-> starts_with data pattern = true.
Proof. unfold occurs_at. cbn [skipn]. symmetry. apply starts_with_firstn. Qed.

Lemma occurs_at_S (x : byte) (data pattern : bytes) (i : nat) :
  occurs_at (x :: data) pattern (S i) <-> occurs_at data pattern i.
Proof. reflexivity. Qed.

Lemma occurs_at_skipn (data pattern : bytes) (k i : nat) :
  occurs_at (skipn k data) pattern i <-> occurs_at data pattern (i + k).
Proof. unfold occurs_at. rewrite skipn_skipn. reflexivity. Qed.

Lemma occurs_at_self (pattern : bytes) : occurs_at pattern pattern 0.
Proof. unfold occurs_at. cbn [skipn]. apply firstn_all. Qed.

(** [find_index] answers with the first occurrence. *)
Lemma find_index_Some (data pattern : bytes) (i : nat) :
  find_index data pattern = Some i ->
  occurs_at data pattern i /\ forall j, (j < i)%nat -> ~ occurs_at data pattern j.
Proof.
  revert i. induction data as [|x data IH]; intros i; cbn [find_index].
  - destruct (starts_with [] pattern) eqn:E; [|discriminate].
    intros [= <-]. split; [apply occurs_at_0; exact E|]. intros j Hj. lia.
  - destruct (starts_with (x :: data) pattern) eqn:E.
    + intros [= <-]. split; [apply occurs_at_0; exact E|]. intros j Hj. lia.
    + destruct (find_index data pattern) as [i'|]; [|discriminate].
      cbn [option_map]. intros [= <-].
      destruct (IH i' eq_refl) as [Hocc Hmin]. split.
      * apply occurs_at_S. exact Hocc.
      * intros [|j] Hj Hc.
        -- apply occurs_at_0 in Hc. congruence.
        -- apply occurs_at_S in Hc. apply (Hmin j); [lia|exact Hc].
Qed.

(** [find_index] answers [None] only when there is no occurrence. *)
Lemma find_index_None (data pattern : bytes) :
  find_index data pattern = None -> forall j, ~ occurs_at data pattern j.
Proof.
  induction data as [|x data IH]; cbn [find_index].
  - destruct (starts_with [] pattern) eqn:E; [discriminate|].
    intros _ j Hc. unfold occurs_at in Hc. rewrite skipn_nil, firstn_nil in Hc.
    subst pattern. discriminate E.
  - destruct (starts_with (x :: data) pattern) eqn:E; [discriminate|].
    destruct (find_index data pattern) as [i'|]; [discriminate|].
    intros _ [|j] Hc.
    + apply occurs_at_0 in Hc. congruence.
    + apply occurs_at_S in Hc. exact (IH eq_refl j Hc).
Qed.

Lemma find_cases (data pattern : bytes) :
  (find data pattern = -1 /\ find_index data pattern = None)
  \/ (exists i, find data pattern = Z.of_nat i
                /\ find_index data pattern = Some i).
Proof.
  unfold find. destruct (find_index data pattern) as [i|].
  - right. exists i. split; reflexivity.
  - left. split; reflexivity.
Qed.

Lemma slice_from_succ (data : bytes) (i : nat) :
  slice_from data (Z.of_nat i + 1) = skipn (S i) data.
Proof.
  unfold slice_from. destruct (Z.ltb_spec (Z.of_nat i + 1) 0); [lia|].
  f_equal. lia.
Qed.

Lemma sorted_shift (c : nat) (l : list nat) :
  StronglySorted lt l -> StronglySorted lt (map (fun i => (i + c)%nat) l).
Proof.
  induction 1 as [|a l _ IH Hall]; cbn [map]; constructor; [exact IH|].
  apply Forall_map. revert Hall. apply Forall_impl. intros y Hy. lia.
Qed.

(** The loop of the [find_first = False] branch started on [data] with
    the matches found so far in [fl]: it adds the addresses of a strictly
    increasing list of indices into [data]; [pattern] occurs at each of
    them; and every occurrence that ends before the last byte of [data] is
    among them. *)
Lemma search_all_loop_finds (pattern : bytes) (sva : Z) :
  forall (find_first : bool) (offset : Z) (fl : list Z) (data : bytes),
    find_first = false ->
    exists L : list nat,
      (search_all_loop pattern sva find_first offset fl data
       = Returned (fl ++ map (fun i => Z.of_nat i + offset + sva) L)
       \/ search_all_loop pattern sva find_first offset fl data
          = Exhausted (fl ++ map (fun i => Z.of_nat i + offset + sva) L))
      /\ StronglySorted lt L
      /\ (forall i, In i L -> occurs_at data pattern i)
      /\ (forall i, occurs_at data pattern i ->
                    Z.of_nat i + len pattern < len data -> In i L).
Proof.
  intros find_first offset fl data.
  functional induction (search_all_loop pattern sva find_first offset fl data)
    as [ff offset fl data Hlen Hfind
       |ff offset fl data Hlen Hfind Hff
       |ff offset fl data Hlen Hfind Hff IH
       |ff offset fl data Hlen]; intros Hfalse.
  - exists []. cbn [map]. rewrite app_nil_r.
    split; [left; reflexivity|]. split; [constructor|].
    split; [intros i []|].
    intros i Hocc _. apply Z.eqb_eq in Hfind.
    destruct (find_cases data pattern) as [[_ Hnone]|(i0 & Hm & _)]; [|lia].
    exfalso. exact (find_index_None _ _ Hnone i Hocc).
  - discriminate Hfalse.
  - apply Z.eqb_neq in Hfind.
    destruct (find_cases data pattern) as [[Hm _]|(i0 & Hm & Hsome)];
      [contradiction|].
    destruct (find_index_Some _ _ _ Hsome) as [Hocc0 Hmin].
    rewrite Hm in *. rewrite slice_from_succ in *.
    destruct (IH eq_refl) as (L' & Hres & Hsorted & Hsound & Hcomplete).
    exists (i0 :: map (fun i => (i + S i0)%nat) L').
    assert (Hlist :
              (fl ++ [Z.of_nat i0 + offset + sva])
                ++ map (fun i => Z.of_nat i + (offset + (Z.of_nat i0 + 1)) + sva) L'
              = fl ++ map (fun i => Z.of_nat i + offset + sva)
                          (i0 :: map (fun i => (i + S i0)%nat) L')).
    { rewrite <- app_assoc. cbn [app map]. rewrite map_map.
      do 2 f_equal. apply map_ext. intros a. lia. }
    rewrite Hlist in Hres. split; [exact Hres|].
    split; [|split].
    + constructor; [apply sorted_shift; exact Hsorted|].
      apply Forall_map, Forall_forall. intros y _. lia.
    + intros i [<-|Hin]; [exact Hocc0|].
      apply in_map_iff in Hin. destruct Hin as (i' & <- & Hin').
      apply occurs_at_skipn. apply Hsound. exact Hin'.
    + intros i Hocc Hend.
      destruct (Nat.lt_trichotomy i i0) as [Hlt|[->|Hgt]].
      * exfalso. exact (Hmin i Hlt Hocc).
      * left. reflexivity.
      * right. apply in_map_iff. exists (i - S i0)%nat.
        split; [lia|]. apply Hcomplete.
        -- apply occurs_at_skipn.
           replace (i - S i0 + S i0)%nat with i by lia. exact Hocc.
        -- unfold len in *. rewrite length_skipn. lia.
  - exists []. cbn [map]. rewrite app_nil_r.
    split; [right; reflexivity|]. split; [constructor|].
    split; [intros i []|].
    intros i _ Hend. rewrite Z.gtb_ltb in Hlen. apply Z.ltb_ge in Hlen. lia.
Qed.

(** The search with [find_first = False] over a segment whose bytes
    [data] are all in the file: the result is the list of the addresses of
    a strictly increasing list of occurrences of [pattern] in [data], with
    every occurrence that ends before the last byte of the segment among
    them; the file object is left as it was found. *)
Lemma search_all_finds (fuel : nat) (self : MinidumpMemorySegment.t)
      (pattern pre data post : bytes) (chunksize : Z) (p : nat) :
  size self = len data ->
  start_file_address self = len pre ->
  len pattern <= len data ->
  exists L : list nat,
    search fuel self pattern false chunksize (mkFile (pre ++ data ++ post) p)
    = Some (Ok (map (fun i => Z.of_nat i + start_virtual_address self) L),
            mkFile (pre ++ data ++ post) p)
    /\ StronglySorted lt L
    /\ (forall i, In i L -> occurs_at data pattern i)
    /\ (forall i, occurs_at data pattern i ->
                  Z.of_nat i + len pattern < len data -> In i L).
Proof.
  destruct self as [sz sfa sva eva].
  segment_fields.
  intros -> -> Hlen.
  destruct (search_all_loop_finds pattern sva false 0 [] data eq_refl)
    as (L & Hres & Hsorted & Hsound & Hcomplete).
  exists L. split; [|auto].
  assert (Hmap : [] ++ map (fun i => Z.of_nat i + 0 + sva) L
                 = map (fun i => Z.of_nat i + sva) L).
  { cbn [app]. apply map_ext. intros a. lia. }
  rewrite Hmap in Hres.
  unfold search. segment_fields.
  destruct (Z.gtb_spec (len pattern) (len data)) as [H|_]; [lia|].
  unfold len at 1. rewrite search_prologue. unfold bind at 1.
  rewrite <- (Nat.add_0_r (length pre)) at 1.
  rewrite read_inside by (unfold len; lia).
  unfold len at 1. rewrite Nat2Z.id. cbn [skipn].
  rewrite firstn_app, Nat.sub_diag, firstn_all. cbn [firstn].
  rewrite app_nil_r.
  unfold bind at 1. rewrite seek_back.
  destruct Hres as [-> | ->].
  - reflexivity.
  - unfold bind. rewrite seek_back. reflexivity.
Qed.

End Occurrences.

(** C2, where the code departs from it. When the segment's bytes are the
    pattern itself, the search with [find_first = False] returns no match:
    its loop runs only while the data is longer than the pattern. The
    search with [find_first = True] finds the match at offset 0 on the same
    input. Likewise over "AAA" the pattern "AA" is reported at offset 0
    only, not at offset 1: after the first match two bytes are left, no
    more than the pattern has. *)
Theorem search_all_misses_final_match :
  forall (fuel : nat) (sva eva chunksize : Z) (pattern pre post : bytes)
         (p : nat),
    let self := MinidumpMemorySegment.mk (len pattern) (len pre) sva eva in
    let fh := mkFile (pre ++ pattern ++ post) p in
    MinidumpMemorySegment.search fuel self pattern false chunksize fh
    = Some (Ok [], fh)
    /\ occurs_at pattern pattern 0
    /\ MinidumpMemorySegment.search (1 + fuel)
         (MinidumpMemorySegment.mk 3 (len pre) sva eva) (b "ABA") true
         MinidumpMemorySegment.default_chunksize
         (mkFile (pre ++ b "ABA" ++ post) p)
       = Some (Ok [sva + 0], mkFile (pre ++ b "ABA" ++ post) p)
    /\ MinidumpMemorySegment.search fuel
         (MinidumpMemorySegment.mk 3 (len pre) sva eva) (b "AA") false
         chunksize (mkFile (pre ++ b "AAA" ++ post) p)
       = Some (Ok [sva + 0], mkFile (pre ++ b "AAA" ++ post) p)
    /\ occurs_at (b "AAA") (b "AA") 1.
Proof.
  intros fuel sva eva chunksize pattern pre post p self fh.
  split; [|split; [|split; [|split; [|reflexivity]]]].
  - unfold MinidumpMemorySegment.search, self, fh.
    segment_fields.
    destruct (Z.gtb_spec (len pattern) (len pattern)) as [H|_]; [lia|].
    unfold len at 1. rewrite search_prologue. unfold bind at 1.
    rewrite <- (Nat.add_0_r (length pre)) at 1.
    rewrite read_inside by (unfold len; lia).
    unfold len at 1. rewrite Nat2Z.id. cbn [skipn].
    rewrite firstn_app, Nat.sub_diag, firstn_all. cbn [firstn].
    rewrite app_nil_r.
    unfold bind at 1. rewrite seek_back.
    rewrite search_all_loop_stop by apply Z.le_refl.
    unfold bind. rewrite seek_back. reflexivity.
  - apply occurs_at_self.
  - unfold MinidumpMemorySegment.search, len.
    segment_fields.
    change (Z.of_nat (length (b "ABA")) >? 3) with false. cbv iota.
    rewrite search_prologue.
    change (Z.min MinidumpMemorySegment.default_chunksize 3) with 3.
    cbn [MinidumpMemorySegment.search_first_loop Nat.add
         MinidumpMemorySegment.size MinidumpMemorySegment.start_virtual_address].
    change (len (@nil byte) <? 3) with true. cbv iota.
    change (3 >? 3 - len (@nil byte)) with false. cbv iota.
    rewrite <- (Nat.add_0_r (length pre)) at 1.
    rewrite read_inside by lia.
    change (firstn (Z.to_nat 3) (skipn 0 (b "ABA" ++ post))) with (b "ABA").
    change (find ([] ++ b "ABA") (b "ABA")) with 0.
    change (negb (0 =? -1)) with true. cbv iota.
    unfold bind. rewrite seek_back. reflexivity.
  - unfold MinidumpMemorySegment.search, len.
    segment_fields.
    change (Z.of_nat (length (b "AA")) >? 3) with false. cbv iota.
    rewrite search_prologue. unfold bind at 1.
    rewrite <- (Nat.add_0_r (length pre)) at 1.
    rewrite read_inside by lia.
    change (firstn (Z.to_nat 3) (skipn 0 (b "AAA" ++ post))) with (b "AAA").
    unfold bind at 1. rewrite seek_back.
    rewrite (search_all_loop_hit _ _ _ _ 0) by (reflexivity || discriminate).
    change (slice_from (b "AAA") (0 + 1)) with (b "AA").
    rewrite search_all_loop_stop by (cbn; lia).
    unfold bind. rewrite seek_back. cbn [app].
    replace (0 + 0 + sva) with (sva + 0) by lia. reflexivity.
Qed.

(** ** The simple-form memory descriptor *)

Section SimpleDescriptor.

(** What [parse] reads, field by field: [DataSize] (4 bytes), [Rva]
    (4 bytes), then [StartOfMemoryRange] (8 bytes). *)
Lemma memory_descriptor_parse_order (d r s : Z) (pre post : bytes) :
  0 <= d < 2 ^ 32 -> 0 <= r < 2 ^ 32 -> 0 <= s < 2 ^ 64 ->
  fst (MINIDUMP_MEMORY_DESCRIPTOR.parse
         (mkFile (pre ++ (le_digits 4 d ++ le_digits 4 r) ++ le_digits 8 s ++ post)
                 (length pre)))
  = Ok (MINIDUMP_MEMORY_DESCRIPTOR.mk s
          (MINIDUMP_MEMORY_DESCRIPTOR.Loc32 (MINIDUMP_LOCATION_DESCRIPTOR.mk d r))
          d r).
Proof.
  intros Hd Hr Hs. unfold MINIDUMP_MEMORY_DESCRIPTOR.parse.
  change (2 ^ 32) with (256 ^ Z.of_nat 4) in Hd, Hr.
  change (2 ^ 64) with (256 ^ Z.of_nat 8) in Hs.
  unfold bind at 1.
  rewrite location32_parse_at by assumption.
  replace (length pre + 8)%nat
    with (length (pre ++ le_digits 4 d ++ le_digits 4 r))
    by (rewrite !length_app, !length_le_digits; lia).
  rewrite (app_assoc pre).
  rewrite bind_read_at by apply len_le_digits.
  rewrite int_from_to_bytes by exact Hs. reflexivity.
Qed.

(** What [to_bytes] writes: [StartOfMemoryRange] on 4 bytes, then the
    location descriptor; 12 bytes for a 32-bit location. *)
Lemma memory_descriptor_to_bytes_width (d r s : Z) :
  0 <= d < 2 ^ 32 -> 0 <= r < 2 ^ 32 ->
  (0 <= s < 2 ^ 32 ->
   MINIDUMP_MEMORY_DESCRIPTOR.to_bytes
     (MINIDUMP_MEMORY_DESCRIPTOR.mk s
        (MINIDUMP_MEMORY_DESCRIPTOR.Loc32 (MINIDUMP_LOCATION_DESCRIPTOR.mk d r))
        d r)
   = Ok (le_digits 4 s ++ le_digits 4 d ++ le_digits 4 r))
  /\ (2 ^ 32 <= s ->
      MINIDUMP_MEMORY_DESCRIPTOR.to_bytes
        (MINIDUMP_MEMORY_DESCRIPTOR.mk s
           (MINIDUMP_MEMORY_DESCRIPTOR.Loc32 (MINIDUMP_LOCATION_DESCRIPTOR.mk d r))
           d r)
      = Raise OverflowError).
Proof.
  intros Hd Hr.
  change (2 ^ 32) with (256 ^ Z.of_nat 4) in *.
  unfold MINIDUMP_MEMORY_DESCRIPTOR.to_bytes,
    MINIDUMP_MEMORY_DESCRIPTOR.location_to_bytes,
    MINIDUMP_LOCATION_DESCRIPTOR.to_bytes.
  cbn [MINIDUMP_MEMORY_DESCRIPTOR.StartOfMemoryRange
       MINIDUMP_MEMORY_DESCRIPTOR.MemoryLocation
       MINIDUMP_LOCATION_DESCRIPTOR.DataSize MINIDUMP_LOCATION_DESCRIPTOR.Rva].
  split; intros Hs.
  - rewrite !int_to_bytes_fits by assumption. reflexivity.
  - rewrite int_to_bytes_overflow by (right; exact Hs). reflexivity.
Qed.

End SimpleDescriptor.

(** C7, where the code departs from it. Take the descriptor with
    [StartOfMemoryRange = 4096], [DataSize = 32], [Rva = 768] and its
    16 bytes in the layout start (u64), size (u32), offset (u32).
    [parse] reads these bytes in another order (size, offset, start) and
    returns [DataSize = 4096], [Rva = 0] and a start of [768 * 2^32 + 32].
    [to_bytes] writes the start on 4 bytes, 12 bytes in all, and raises
    [OverflowError] for a start of [2^32]. *)
Theorem memory_descriptor_layout_mismatch :
  let v := MINIDUMP_MEMORY_DESCRIPTOR.mk 4096
             (MINIDUMP_MEMORY_DESCRIPTOR.Loc32
                (MINIDUMP_LOCATION_DESCRIPTOR.mk 32 768)) 32 768 in
  let layout := le_digits 8 4096 ++ le_digits 4 32 ++ le_digits 4 768 in
  length layout = 16%nat
  /\ fst (MINIDUMP_MEMORY_DESCRIPTOR.parse (BytesIO layout))
     = Ok (MINIDUMP_MEMORY_DESCRIPTOR.mk (768 * 2 ^ 32 + 32)
             (MINIDUMP_MEMORY_DESCRIPTOR.Loc32
                (MINIDUMP_LOCATION_DESCRIPTOR.mk 4096 0)) 4096 0)
  /\ fst (MINIDUMP_MEMORY_DESCRIPTOR.parse (BytesIO layout)) <> Ok v
  /\ MINIDUMP_MEMORY_DESCRIPTOR.to_bytes v
     = Ok (le_digits 4 4096 ++ le_digits 4 32 ++ le_digits 4 768)
  /\ MINIDUMP_MEMORY_DESCRIPTOR.to_bytes v <> Ok layout
  /\ MINIDUMP_MEMORY_DESCRIPTOR.to_bytes
       (MINIDUMP_MEMORY_DESCRIPTOR.mk (2 ^ 32)
          (MINIDUMP_MEMORY_DESCRIPTOR.Loc32
             (MINIDUMP_LOCATION_DESCRIPTOR.mk 32 768)) 32 768)
     = Raise OverflowError.
Proof.
  intros v layout.
  split; [reflexivity|]. split; [vm_compute; reflexivity|].
  split; [vm_compute; discriminate|].
  split; [vm_compute; reflexivity|].
  split; [vm_compute; discriminate|].
  vm_compute; reflexivity.
Qed.

(** ** The full/64-form list *)

Section Full64List.
Import MinidumpMemory64List.

Abbreviation desc := MINIDUMP_MEMORY_DESCRIPTOR64.t.
Abbreviation DataSize := MINIDUMP_MEMORY_DESCRIPTOR64.DataSize.

(** The segments appended by the loop come after those already there. *)
Lemma segments_loop_acc (ranges : list desc) (rva : Z)
      (acc : list MinidumpMemorySegment.t) :
  segments_loop ranges rva acc = acc ++ segments_loop ranges rva [].
Proof.
  revert rva acc. induction ranges as [|d rest IH]; intros rva acc.
  - cbn. rewrite app_nil_r. reflexivity.
  - cbn [segments_loop]. rewrite IH. rewrite (IH _ ([] ++ _)).
    cbn [app]. rewrite <- app_assoc. reflexivity.
Qed.

Lemma segments_loop_cons (d : desc) (rest : list desc) (rva : Z) :
  segments_loop (d :: rest) rva []
  = MinidumpMemorySegment.parse_full d rva
    :: segments_loop rest (rva + DataSize d) [].
Proof. cbn [segments_loop]. rewrite segments_loop_acc. reflexivity. Qed.

Lemma length_segments_loop (ranges : list desc) (rva : Z) :
  length (segments_loop ranges rva []) = length ranges.
Proof.
  revert rva. induction ranges as [|d rest IH]; intros rva; [reflexivity|].
  rewrite segments_loop_cons. cbn [length]. rewrite IH. reflexivity.
Qed.

(** The [i]-th segment: built from the [i]-th descriptor, at the base
    offset plus the sizes of the descriptors before it. *)
Lemma segments_loop_nth (ranges : list desc) (rva : Z) (i : nat) (d : desc) :
  nth_error ranges i = Some d ->
  nth_error (segments_loop ranges rva []) i
  = Some (MinidumpMemorySegment.parse_full d
            (rva + data_sizes_sum (firstn i ranges))).
Proof.
  revert rva i. induction ranges as [|x rest IH]; intros rva i Hi.
  - destruct i; discriminate Hi.
  - rewrite segments_loop_cons. destruct i as [|i].
    + cbn in Hi. injection Hi as ->. cbn. rewrite Z.add_0_r. reflexivity.
    + cbn [nth_error] in *. rewrite (IH _ _ Hi).
      cbn [firstn]. unfold data_sizes_sum. cbn [map fold_right].
      rewrite Z.add_assoc. reflexivity.
Qed.

Lemma file_offsets_nth (base : Z) (ranges : list desc) (i : nat) :
  nth_error (file_offsets base ranges) i
  = if (i <? length ranges)%nat
    then Some (base + data_sizes_sum (firstn i ranges)) else None.
Proof.
  unfold file_offsets. rewrite nth_error_map.
  destruct (Nat.ltb_spec i (length ranges)) as [H|H].
  - destruct (nth_error ranges i) as [d|] eqn:E.
    + rewrite (segments_loop_nth _ _ _ _ E). reflexivity.
    + apply nth_error_None in E. lia.
  - replace (nth_error (segments_loop ranges base []) i) with
      (@None MinidumpMemorySegment.t); [reflexivity|].
    symmetry. apply nth_error_None. rewrite length_segments_loop. exact H.
Qed.

Lemma data_sizes_sum_app (l1 l2 : list desc) :
  data_sizes_sum (l1 ++ l2) = data_sizes_sum l1 + data_sizes_sum l2.
Proof.
  unfold data_sizes_sum. induction l1 as [|x l1 IH]; [reflexivity|].
  cbn [app map fold_right]. rewrite IH. lia.
Qed.

(** The sum of the sizes does not depend on the order. *)
Lemma data_sizes_sum_perm (l1 l2 : list desc) :
  Permutation l1 l2 -> data_sizes_sum l1 = data_sizes_sum l2.
Proof.
  unfold data_sizes_sum.
  induction 1 as [|x l l' _ IH|x y l|l l' l'' _ IH1 _ IH2];
    cbn [map fold_right]; lia.
Qed.

(** A full-form descriptor is read back from its 16 bytes. *)
Lemma descriptor64_parse_at (d : desc) (pre post : bytes) :
  fits64 d ->
  exists bs,
    MINIDUMP_MEMORY_DESCRIPTOR64.to_bytes d = Ok bs
    /\ length bs = 16%nat
    /\ MINIDUMP_MEMORY_DESCRIPTOR64.parse
         (mkFile (pre ++ bs ++ post) (length pre))
       = (Ok d, mkFile ((pre ++ bs) ++ post) (length (pre ++ bs))).
Proof.
  destruct d as [s z]. unfold fits64.
  cbn [MINIDUMP_MEMORY_DESCRIPTOR64.StartOfMemoryRange DataSize].
  change (2 ^ 64) with (256 ^ Z.of_nat 8). intros [Hs Hz].
  exists (le_digits 8 s ++ le_digits 8 z). split; [|split].
  - unfold MINIDUMP_MEMORY_DESCRIPTOR64.to_bytes.
    cbn [MINIDUMP_MEMORY_DESCRIPTOR64.StartOfMemoryRange DataSize].
    rewrite !int_to_bytes_fits by assumption. reflexivity.
  - rewrite length_app, !length_le_digits. reflexivity.
  - unfold MINIDUMP_MEMORY_DESCRIPTOR64.parse.
    exact (read_two_fields 8 s z pre post
             (fun a c => ret (MINIDUMP_MEMORY_DESCRIPTOR64.mk a c)) Hs Hz).
Qed.

(** A sequence of full-form descriptors is read back from the
    concatenation of their bytes. *)
Lemma parse_many_join (ranges : list desc) :
  Forall fits64 ranges ->
  exists bs,
    join_bytes MINIDUMP_MEMORY_DESCRIPTOR64.to_bytes ranges = Ok bs
    /\ forall pre post,
        parse_many MINIDUMP_MEMORY_DESCRIPTOR64.parse (length ranges)
                   (mkFile (pre ++ bs ++ post) (length pre))
        = (Ok ranges, mkFile ((pre ++ bs) ++ post) (length (pre ++ bs))).
Proof.
  induction 1 as [|d rest Hd _ IH].
  - exists []. split; [reflexivity|]. intros pre post. cbn [parse_many length].
    unfold ret. cbn [app]. rewrite app_nil_r. reflexivity.
  - destruct IH as (br & Hjoin & Hparse).
    destruct (descriptor64_parse_at d [] [] Hd) as (bx & Hto & Hlen & _).
    exists (bx ++ br). split.
    + cbn [join_bytes]. rewrite Hto, Hjoin. reflexivity.
    + intros pre post. cbn [parse_many length]. unfold bind at 1.
      destruct (descriptor64_parse_at d pre (br ++ post) Hd)
        as (bx' & Hto' & _ & Hp).
      assert (bx' = bx) by congruence. subst bx'.
      rewrite <- (app_assoc bx). rewrite Hp.
      unfold bind at 1. rewrite Hparse. unfold ret.
      rewrite <- (app_assoc pre bx br). reflexivity.
Qed.

(** The builder on the bytes of a list: the loop runs over the very
    descriptors that were written, from the base offset that was
    written. *)
Lemma from_chunk_data_to_bytes (n base : Z) (ranges : list desc) :
  0 <= base < 2 ^ 64 -> len ranges < 2 ^ 64 -> Forall fits64 ranges ->
  exists chunk_data,
    MINIDUMP_MEMORY64_LIST.to_bytes
      (MINIDUMP_MEMORY64_LIST.mk n base ranges) = Ok chunk_data
    /\ from_chunk_data chunk_data
       = Ok {| memory_segments := segments_loop ranges base [] |}.
Proof.
  change (2 ^ 64) with (256 ^ Z.of_nat 8). intros Hbase Hlen Hfit.
  assert (Hcount : 0 <= len ranges < 256 ^ Z.of_nat 8) by (unfold len in *; lia).
  destruct (parse_many_join ranges Hfit) as (bs & Hjoin & Hparse).
  exists (le_digits 8 (len ranges) ++ le_digits 8 base ++ bs). split.
  - unfold MINIDUMP_MEMORY64_LIST.to_bytes.
    cbn [MINIDUMP_MEMORY64_LIST.MemoryRanges MINIDUMP_MEMORY64_LIST.BaseRva].
    rewrite !int_to_bytes_fits by assumption. rewrite Hjoin. reflexivity.
  - unfold from_chunk_data.
    assert (Hp : MINIDUMP_MEMORY64_LIST.parse
                   (BytesIO (le_digits 8 (len ranges) ++ le_digits 8 base ++ bs))
                 = (Ok (MINIDUMP_MEMORY64_LIST.mk (len ranges) base ranges),
                    mkFile (le_digits 8 (len ranges) ++ le_digits 8 base ++ bs)
                           (length (le_digits 8 (len ranges)
                                    ++ le_digits 8 base ++ bs)))).
    { unfold BytesIO, MINIDUMP_MEMORY64_LIST.parse.
      rewrite <- (app_nil_r bs) at 1. rewrite app_assoc.
      etransitivity;
        [exact (read_two_fields 8 (len ranges) base [] (bs ++ [])
                  (fun c v =>
                     rs <- parse_many MINIDUMP_MEMORY_DESCRIPTOR64.parse
                             (Z.to_nat c) ;;
                     ret (MINIDUMP_MEMORY64_LIST.mk c v rs)) Hcount Hbase)|].
      unfold len at 1. rewrite Nat2Z.id. unfold bind.
      rewrite Hparse. unfold ret. cbn [app].
      rewrite <- !app_assoc, !app_nil_r. reflexivity. }
    rewrite Hp. reflexivity.
Qed.

End Full64List.

(** C1, counterexample. Two lists with the same base offset 100 that
    differ by the order of their first two entries (sizes 1, 2, 3 and
    2, 1, 3): the reordering starts at position 0, yet the file offset of
    position 2 is 103 in both, and that of position 0 is 100 in both. Only
    the offset of position 1 changes. *)
Lemma from_chunk_data_reordering_counterexample :
  let d1 := MINIDUMP_MEMORY_DESCRIPTOR64.mk 4096 1 in
  let d2 := MINIDUMP_MEMORY_DESCRIPTOR64.mk 8192 2 in
  let d3 := MINIDUMP_MEMORY_DESCRIPTOR64.mk 12288 3 in
  exists chunk chunk',
    MINIDUMP_MEMORY64_LIST.to_bytes
      (MINIDUMP_MEMORY64_LIST.mk 3 100 [d1; d2; d3]) = Ok chunk
    /\ MINIDUMP_MEMORY64_LIST.to_bytes
         (MINIDUMP_MEMORY64_LIST.mk 3 100 [d2; d1; d3]) = Ok chunk'
    /\ MinidumpMemory64List.from_chunk_data chunk
       = Ok (MinidumpMemory64List.mk
               [MinidumpMemorySegment.init 1 100 4096;
                MinidumpMemorySegment.init 2 101 8192;
                MinidumpMemorySegment.init 3 103 12288])
    /\ MinidumpMemory64List.from_chunk_data chunk'
       = Ok (MinidumpMemory64List.mk
               [MinidumpMemorySegment.init 2 100 8192;
                MinidumpMemorySegment.init 1 102 4096;
                MinidumpMemorySegment.init 3 103 12288])
    /\ nth_error (file_offsets 100 [d1; d2; d3]) 2
       = nth_error (file_offsets 100 [d2; d1; d3]) 2.
Proof.
  intros d1 d2 d3.
  eexists. eexists.
  split; [vm_compute; reflexivity|].
  split; [vm_compute; reflexivity|].
  split; [vm_compute; reflexivity|].
  split; vm_compute; reflexivity.
Qed.

(** C1, as the code has it. For a list with base offset [base] and
    descriptors whose fields fit 64 bits, [from_chunk_data] on the bytes of
    the list gives one segment per descriptor, in the order of the
    descriptors; the [i]-th segment has the size and the start address of
    the [i]-th descriptor, and its [start_file_address] is [base] plus the
    sizes of the descriptors before it (for three entries: [base],
    [base + s0], [base + s0 + s1]). The order matters: exchanging two
    neighbours of different sizes changes the offset of the second of the
    two positions. But the offset of a position depends only on which
    entries come before it, not on their order: it is the same in two
    lists whose entries before that position are permutations of each
    other. *)
Theorem from_chunk_data_running_offsets :
  forall (n base : Z) (ranges : list MINIDUMP_MEMORY_DESCRIPTOR64.t),
    0 <= base < 2 ^ 64 -> len ranges < 2 ^ 64 -> Forall fits64 ranges ->
    (exists chunk_data segs,
        MINIDUMP_MEMORY64_LIST.to_bytes
          (MINIDUMP_MEMORY64_LIST.mk n base ranges) = Ok chunk_data
        /\ MinidumpMemory64List.from_chunk_data chunk_data
           = Ok (MinidumpMemory64List.mk segs)
        /\ length segs = length ranges
        /\ (forall i d,
               nth_error ranges i = Some d ->
               nth_error segs i
               = Some (MinidumpMemorySegment.init
                         (MINIDUMP_MEMORY_DESCRIPTOR64.DataSize d)
                         (base + data_sizes_sum (firstn i ranges))
                         (MINIDUMP_MEMORY_DESCRIPTOR64.StartOfMemoryRange d)))
        /\ map MinidumpMemorySegment.start_file_address segs
           = file_offsets base ranges)
    /\ (forall d0 d1 d2,
           file_offsets base [d0; d1; d2]
           = [base;
              base + MINIDUMP_MEMORY_DESCRIPTOR64.DataSize d0;
              base + MINIDUMP_MEMORY_DESCRIPTOR64.DataSize d0
              + MINIDUMP_MEMORY_DESCRIPTOR64.DataSize d1])
    /\ (forall pre a c post,
           MINIDUMP_MEMORY_DESCRIPTOR64.DataSize a
           <> MINIDUMP_MEMORY_DESCRIPTOR64.DataSize c ->
           nth_error (file_offsets base (pre ++ a :: c :: post)) (length pre + 1)
           <> nth_error (file_offsets base (pre ++ c :: a :: post))
                        (length pre + 1))
    /\ (forall ranges' i,
           length ranges' = length ranges ->
           Permutation (firstn i ranges) (firstn i ranges') ->
           nth_error (file_offsets base ranges) i
           = nth_error (file_offsets base ranges') i).
Proof.
  intros n base ranges Hbase Hlen Hfit.
  split; [|split; [|split]].
  - destruct (from_chunk_data_to_bytes n base ranges Hbase Hlen Hfit)
      as (chunk & Hto & Hfrom).
    exists chunk, (MinidumpMemory64List.segments_loop ranges base []).
    split; [exact Hto|]. split; [exact Hfrom|].
    split; [apply length_segments_loop|].
    split; [|reflexivity].
    intros i d Hi. apply segments_loop_nth. exact Hi.
  - intros d0 d1 d2. reflexivity.
  - intros pre a c post Hne.
    rewrite !file_offsets_nth, !length_app. cbn [length].
    destruct (Nat.ltb_spec (length pre + 1)
                           (length pre + S (S (length post)))) as [_|H]; [|lia].
    rewrite !firstn_app, !firstn_all2 by lia.
    replace (length pre + 1 - length pre)%nat with 1%nat by lia.
    cbn [firstn]. rewrite !data_sizes_sum_app.
    unfold data_sizes_sum at 2 4. cbn [map fold_right].
    intros Heq. injection Heq as Heq. lia.
  - intros ranges' i Hlen' Hperm.
    rewrite !file_offsets_nth, Hlen'.
    rewrite (data_sizes_sum_perm _ _ Hperm). reflexivity.
Qed.

Lemma from_chunk_data_running_offsets_witness :
  let d1 := MINIDUMP_MEMORY_DESCRIPTOR64.mk 4096 16 in
  let d2 := MINIDUMP_MEMORY_DESCRIPTOR64.mk 65536 32 in
  let d3 := MINIDUMP_MEMORY_DESCRIPTOR64.mk 8192 8 in
  (0 <= 1000 < 2 ^ 64 /\ len [d1; d2; d3] < 2 ^ 64 /\ Forall fits64 [d1; d2; d3])
  /\ exists chunk_data segs,
      MINIDUMP_MEMORY64_LIST.to_bytes
        (MINIDUMP_MEMORY64_LIST.mk 3 1000 [d1; d2; d3]) = Ok chunk_data
      /\ MinidumpMemory64List.from_chunk_data chunk_data
         = Ok (MinidumpMemory64List.mk segs)
      /\ map MinidumpMemorySegment.start_file_address segs
         = [1000; 1016; 1048].
Proof.
  intros d1 d2 d3.
  assert (A : 0 <= 1000 < 2 ^ 64) by (cbn; lia).
  assert (C : len [d1; d2; d3] < 2 ^ 64) by (cbn; lia).
  assert (F : Forall fits64 [d1; d2; d3])
    by (repeat constructor; cbn; lia).
  split; [auto|].
  destruct (from_chunk_data_running_offsets 3 1000 [d1; d2; d3] A C F)
    as ((chunk & segs & Hto & Hfrom & _ & _ & Hoff) & _).
  exists chunk, segs. split; [exact Hto|]. split; [exact Hfrom|].
  rewrite Hoff. reflexivity.
Defined.

(** ** The segments the builders produce *)

Section BuiltSegments.

Lemma well_formed_ordered (s : MinidumpMemorySegment.t) :
  well_formed s ->
  MinidumpMemorySegment.start_virtual_address s
  <= MinidumpMemorySegment.end_virtual_address s.
Proof. intros [H0 He]. rewrite He. lia. Qed.

Lemma init_well_formed (size sfa sva : Z) :
  0 <= size -> well_formed (MinidumpMemorySegment.init size sfa sva).
Proof. intros H. split; [exact H|reflexivity]. Qed.

Lemma int_from_bytes_nonneg (bs : bytes) : 0 <= int_from_bytes bs.
Proof. apply int_from_bytes_range. Qed.

(** Every record a comprehension parses has what a single parse
    guarantees. *)
Lemma parse_many_Forall {A : Type} (P : A -> Prop) (parse_one : io A) :
  (forall fh x fh', parse_one fh = (Ok x, fh') -> P x) ->
  forall n fh xs fh',
    parse_many parse_one n fh = (Ok xs, fh') -> Forall P xs.
Proof.
  intros Hone. induction n as [|n IH]; intros fh xs fh'; cbn [parse_many].
  - unfold ret. intros [= <- _]. constructor.
  - unfold bind.
    destruct (parse_one fh) as [[x|e] fh1] eqn:E1; [|discriminate].
    destruct (parse_many parse_one n fh1) as [[ys|e] fh2] eqn:E2; [|discriminate].
    unfold ret. intros [= <- _]. constructor.
    + exact (Hone _ _ _ E1).
    + exact (IH _ _ _ E2).
Qed.

(** A sequence that returned a value: its first part returned one, and the
    rest ran on it. *)
Lemma bind_Ok {A B : Type} (c : io A) (k : A -> io B) (fh fh2 : FileHandler)
      (y : B) :
  bind c k fh = (Ok y, fh2) ->
  exists x fh1, c fh = (Ok x, fh1) /\ k x fh1 = (Ok y, fh2).
Proof.
  unfold bind. destruct (c fh) as [[x|e] fh1]; [|discriminate].
  intros H. exists x, fh1. split; [reflexivity|exact H].
Qed.

Lemma descriptor64_size_nonneg (fh : FileHandler)
      (d : MINIDUMP_MEMORY_DESCRIPTOR64.t) (fh' : FileHandler) :
  MINIDUMP_MEMORY_DESCRIPTOR64.parse fh = (Ok d, fh') ->
  0 <= MINIDUMP_MEMORY_DESCRIPTOR64.DataSize d.
Proof.
  unfold MINIDUMP_MEMORY_DESCRIPTOR64.parse. intros H.
  apply bind_Ok in H. destruct H as (s & fh1 & _ & H).
  apply bind_Ok in H. destruct H as (z & fh2 & _ & H).
  unfold ret in H. injection H as <- _. apply int_from_bytes_nonneg.
Qed.

Lemma descriptor_size_nonneg (fh : FileHandler)
      (d : MINIDUMP_MEMORY_DESCRIPTOR.t) (fh' : FileHandler) :
  MINIDUMP_MEMORY_DESCRIPTOR.parse fh = (Ok d, fh') ->
  0 <= MINIDUMP_MEMORY_DESCRIPTOR.DataSize d.
Proof.
  unfold MINIDUMP_MEMORY_DESCRIPTOR.parse. intros H.
  apply bind_Ok in H. destruct H as (loc & fh1 & Hloc & H).
  apply bind_Ok in H. destruct H as (s & fh2 & _ & H).
  unfold ret in H. injection H as <- _.
  cbn [MINIDUMP_MEMORY_DESCRIPTOR.DataSize].
  unfold MINIDUMP_LOCATION_DESCRIPTOR.parse in Hloc.
  apply bind_Ok in Hloc. destruct Hloc as (x & fh3 & _ & Hloc).
  apply bind_Ok in Hloc. destruct Hloc as (r & fh4 & _ & Hloc).
  unfold ret in Hloc. injection Hloc as <- _. apply int_from_bytes_nonneg.
Qed.

Lemma segments_loop_well_formed (ranges : list MINIDUMP_MEMORY_DESCRIPTOR64.t)
      (rva : Z) :
  Forall (fun d => 0 <= MINIDUMP_MEMORY_DESCRIPTOR64.DataSize d) ranges ->
  Forall well_formed (MinidumpMemory64List.segments_loop ranges rva []).
Proof.
  intros H. revert rva. induction H as [|d rest Hd _ IH]; intros rva.
  - constructor.
  - rewrite segments_loop_cons. constructor; [|apply IH].
    apply init_well_formed. exact Hd.
Qed.

(** Whatever bytes [from_chunk_data] is given, the segments it returns
    satisfy the invariant. *)
Lemma from_chunk_data_well_formed (chunk_data : bytes)
      (l : MinidumpMemory64List.t) :
  MinidumpMemory64List.from_chunk_data chunk_data = Ok l ->
  Forall well_formed (MinidumpMemory64List.memory_segments l).
Proof.
  unfold MinidumpMemory64List.from_chunk_data.
  destruct (MINIDUMP_MEMORY64_LIST.parse (BytesIO chunk_data))
    as [[mtl|e] fh1] eqn:E; cbn [fst]; [|discriminate].
  intros [= <-]. cbn [MinidumpMemory64List.memory_segments].
  apply segments_loop_well_formed.
  unfold MINIDUMP_MEMORY64_LIST.parse in E.
  apply bind_Ok in E. destruct E as (n & fh2 & _ & E).
  apply bind_Ok in E. destruct E as (base & fh3 & _ & E).
  apply bind_Ok in E. destruct E as (rs & fh4 & Hrs & E).
  unfold ret in E. injection E as <- _.
  cbn [MINIDUMP_MEMORY64_LIST.MemoryRanges].
  exact (parse_many_Forall _ _ descriptor64_size_nonneg _ _ _ _ Hrs).
Qed.

(** The same for the simple-form list. *)
Lemma memory_list_parse_well_formed (location : MINIDUMP_LOCATION_DESCRIPTOR.t)
      (fh fh' : FileHandler) (l : MinidumpMemoryList.t) :
  MinidumpMemoryList.parse location fh = (Ok l, fh') ->
  Forall well_formed (MinidumpMemoryList.memory_segments l).
Proof.
  unfold MinidumpMemoryList.parse. intros H.
  apply bind_Ok in H. destruct H as (z & fh1 & _ & H).
  apply bind_Ok in H. destruct H as (chunk_data & fh2 & _ & H).
  apply bind_Ok in H. destruct H as (mtl & fh3 & Hmtl & H).
  unfold ret in H. injection H as <- _.
  cbn [MinidumpMemoryList.memory_segments].
  unfold lift in Hmtl. injection Hmtl as Hmtl _.
  destruct (MINIDUMP_MEMORY_LIST.parse (BytesIO chunk_data))
    as [r fh4] eqn:E. cbn [fst] in Hmtl. subst r.
  unfold MINIDUMP_MEMORY_LIST.parse in E.
  apply bind_Ok in E. destruct E as (n & fh5 & _ & E).
  apply bind_Ok in E. destruct E as (rs & fh6 & Hrs & E).
  unfold ret in E. injection E as <- _.
  cbn [MINIDUMP_MEMORY_LIST.MemoryRanges].
  apply Forall_map.
  pose proof (parse_many_Forall _ _ descriptor_size_nonneg _ _ _ _ Hrs) as Hall.
  revert Hall. apply Forall_impl. intros d Hd.
  apply init_well_formed. exact Hd.
Qed.

End BuiltSegments.

(** ** The first match: searching a growing prefix *)

Section Prefixes.

(** What has been read so far, extended by the next chunk, is again a
    prefix of the data. *)
Lemma firstn_extend (k c : nat) (d : bytes) :
  firstn k d ++ firstn c (skipn k d)
  = firstn (k + length (firstn c (skipn k d))) d.
Proof.
  revert d. induction k as [|k IH]; intros d.
  - cbn [firstn skipn app Nat.add]. rewrite length_firstn.
    destruct (Nat.le_gt_cases c (length d)) as [H|H].
    + rewrite Nat.min_l by exact H. reflexivity.
    + rewrite Nat.min_r by lia. rewrite firstn_all, firstn_all2 by lia.
      reflexivity.
  - destruct d as [|x d]; [destruct c; reflexivity|].
    cbn [firstn skipn app Nat.add]. rewrite IH. reflexivity.
Qed.

Lemma occurs_at_length (l p : bytes) (i : nat) :
  p <> [] -> occurs_at l p i -> (i + length p <= length l)%nat.
Proof.
  intros Hp Hocc. unfold occurs_at in Hocc.
  apply (f_equal (@length byte)) in Hocc.
  rewrite length_firstn, length_skipn in Hocc.
  destruct p as [|x p]; [contradiction|]. cbn [length] in *. lia.
Qed.

Lemma occurs_at_firstn (d p : bytes) (k i : nat) :
  p <> [] -> occurs_at (firstn k d) p i -> occurs_at d p i.
Proof.
  intros Hp Hocc. pose proof (occurs_at_length _ _ _ Hp Hocc) as Hlen.
  rewrite length_firstn in Hlen.
  unfold occurs_at in *. rewrite skipn_firstn_comm, firstn_firstn in Hocc.
  rewrite Nat.min_l in Hocc by lia. exact Hocc.
Qed.

Lemma occurs_at_in_prefix (d p : bytes) (k i : nat) :
  occurs_at d p i -> (i + length p <= k)%nat -> occurs_at (firstn k d) p i.
Proof.
  intros Hocc Hk. unfold occurs_at in *.
  rewrite skipn_firstn_comm, firstn_firstn, Nat.min_l by lia. exact Hocc.
Qed.

(** [find_index] is the first occurrence, the other way round. *)
Lemma find_index_first (l p : bytes) (i : nat) :
  occurs_at l p i -> (forall j, (j < i)%nat -> ~ occurs_at l p j) ->
  find_index l p = Some i.
Proof.
  intros Hocc Hmin. destruct (find_index l p) as [i'|] eqn:E.
  - destruct (find_index_Some _ _ _ E) as [Hocc' Hmin'].
    f_equal. destruct (Nat.lt_trichotomy i i') as [H|[H|H]]; [|auto|].
    + exfalso. exact (Hmin' _ H Hocc).
    + exfalso. exact (Hmin _ H Hocc').
  - exfalso. exact (find_index_None _ _ E i Hocc).
Qed.

(** A match found in what has been read so far is the first match of the
    whole data. *)
Lemma find_index_prefix (d p : bytes) (k i : nat) :
  find_index (firstn k d) p = Some i -> find_index d p = Some i.
Proof.
  destruct p as [|x p].
  - destruct (firstn k d), d; cbn; auto.
  - intros E. destruct (find_index_Some _ _ _ E) as [Hocc Hmin].
    assert (Hp : x :: p <> []) by discriminate.
    pose proof (occurs_at_length _ _ _ Hp Hocc) as Hlen.
    rewrite length_firstn in Hlen.
    apply find_index_first.
    + exact (occurs_at_firstn _ _ _ _ Hp Hocc).
    + intros j Hj Hc. apply (Hmin j Hj).
      apply occurs_at_in_prefix; [exact Hc|lia].
Qed.

Lemma find_prefix_miss (d p : bytes) (k : nat) :
  find_index d p = None -> find (firstn k d) p = -1.
Proof.
  intros Hnone. unfold find.
  destruct (find_index (firstn k d) p) as [i|] eqn:E; [|reflexivity].
  apply find_index_prefix in E. congruence.
Qed.

End Prefixes.

Section FirstMatch.
Import MinidumpMemorySegment.

Lemma search_first_loop_eq (fuel : nat) (self : MinidumpMemorySegment.t)
      (pattern : bytes) (pos chunksize : Z) (data : bytes)
      (file_handler : FileHandler) :
  search_first_loop fuel self pattern pos chunksize data file_handler
  = if len data <? size self then
      match fuel with
      | O => None
      | S fuel' =>
        match IO.read (if chunksize >? size self - len data
                       then size self - len data else chunksize)
                      file_handler with
        | (Raise e, fh) => Some (Raise e, fh)
        | (Ok chunk, fh) =>
          if negb (find (data ++ chunk) pattern =? -1) then
            Some ((seek pos ;;
                   ret (Returned [start_virtual_address self
                                  + find (data ++ chunk) pattern])) fh)
          else search_first_loop fuel' self pattern pos
                 (if chunksize >? size self - len data
                  then size self - len data else chunksize)
                 (data ++ chunk) fh
        end
      end
    else Some (Ok (Exhausted []), file_handler).
Proof. destruct fuel; reflexivity. Qed.

(** A chunk that ends inside [data] is a chunk of [data]. *)
Lemma firstn_skipn_inside (data post : bytes) (k c : nat) :
  (k + c <= length data)%nat ->
  firstn c (skipn k (data ++ post)) = firstn c (skipn k data).
Proof.
  intros H. rewrite skipn_app, firstn_app, length_skipn.
  replace (c - (length data - k))%nat with 0%nat by lia.
  cbn [firstn]. apply app_nil_r.
Qed.

Variable self : MinidumpMemorySegment.t.
Variables pattern pre data post : bytes.
Variable p : nat.
Hypothesis Hsize : size self = len data.

Let file : bytes := pre ++ data ++ post.

(** The loop of the [find_first = True] branch, entered with the first
    [k] bytes of the segment read and not containing the pattern: given
    enough turns it ends, with the first match of the whole segment if
    there is one. *)
Lemma search_first_loop_first :
  forall (fuel k : nat) (chunksize : Z),
    (length data - k <= fuel)%nat ->
    (k <= length data)%nat ->
    0 < chunksize ->
    (k = length data -> find_index data pattern = None) ->
    search_first_loop fuel self pattern (Z.of_nat p) chunksize
                      (firstn k data) (mkFile file (length pre + k))
    = Some (match find_index data pattern with
            | Some i =>
              (Ok (Returned [start_virtual_address self + Z.of_nat i]),
               mkFile file p)
            | None =>
              (Ok (Exhausted []), mkFile file (length pre + length data))
            end).
Proof.
  induction fuel as [|fuel IH]; intros k chunksize Hfuel Hk Hcs Hdone;
    rewrite search_first_loop_eq, Hsize; unfold len;
    rewrite length_firstn, Nat.min_l by exact Hk.
  - assert (k = length data) by lia. subst k.
    rewrite Z.ltb_irrefl, (Hdone eq_refl). reflexivity.
  - destruct (Z.ltb_spec (Z.of_nat k) (Z.of_nat (length data))) as [Hlt|Hge].
    2:{ assert (k = length data) by lia. subst k.
        rewrite (Hdone eq_refl). reflexivity. }
    set (cs := if chunksize >? Z.of_nat (length data) - Z.of_nat k
               then Z.of_nat (length data) - Z.of_nat k else chunksize).
    assert (Hcs' : 0 < cs <= Z.of_nat (length data) - Z.of_nat k).
    { unfold cs.
      destruct (Z.gtb_spec chunksize (Z.of_nat (length data) - Z.of_nat k)); lia. }
    unfold file at 1. rewrite read_inside by lia.
    rewrite firstn_skipn_inside by lia.
    rewrite firstn_extend.
    assert (Hchunk : length (firstn (Z.to_nat cs) (skipn k data)) = Z.to_nat cs).
    { rewrite length_firstn, length_skipn. lia. }
    rewrite Hchunk. fold file.
    unfold find at 1 2.
    destruct (find_index (firstn (k + Z.to_nat cs) data) pattern) as [i|] eqn:E.
    + destruct (Z.eqb_spec (Z.of_nat i) (-1)) as [H|_]; [lia|].
      cbn [negb]. rewrite (find_index_prefix _ _ _ _ E).
      unfold bind. rewrite seek_back. reflexivity.
    + rewrite Z.eqb_refl. cbn [negb].
      rewrite <- Nat.add_assoc. apply IH; try lia.
      intros Hend. rewrite Hend, firstn_all in E. exact E.
Qed.

End FirstMatch.

(** The search with [find_first = True] over a non-empty segment whose
    bytes [data] are all in the file, with a positive chunk size and as
    many turns as the segment has bytes: the outcome, by what [find_index]
    says of the whole segment. *)
Lemma search_first_result (fuel : nat) (self : MinidumpMemorySegment.t)
      (pattern pre data post : bytes) (chunksize : Z) (p : nat) :
  MinidumpMemorySegment.size self = len data ->
  MinidumpMemorySegment.start_file_address self = len pre ->
  len pattern <= len data ->
  0 < len data ->
  0 < chunksize ->
  (length data <= fuel)%nat ->
  MinidumpMemorySegment.search fuel self pattern true chunksize
    (mkFile (pre ++ data ++ post) p)
  = Some (Ok (match find_index data pattern with
              | Some i =>
                [MinidumpMemorySegment.start_virtual_address self + Z.of_nat i]
              | None => []
              end),
          mkFile (pre ++ data ++ post) p).
Proof.
  intros Hsize Hsfa Hpat Hdata Hcs Hfuel.
  unfold MinidumpMemorySegment.search. rewrite Hsize, Hsfa.
  destruct (Z.gtb_spec (len pattern) (len data)) as [H|_]; [lia|].
  unfold len at 1. rewrite search_prologue.
  pose proof (search_first_loop_first self pattern pre data post p Hsize
                fuel 0 (Z.min chunksize (len data))) as Hloop.
  cbn [firstn] in Hloop. rewrite Nat.add_0_r in Hloop.
  rewrite Hloop; try lia.
  - destruct (find_index data pattern) as [i|]; [reflexivity|].
    unfold bind. rewrite seek_back. reflexivity.
  - unfold len in Hdata. lia.
Qed.

(** The search with [find_first = True] over a non-empty segment whose
    bytes [data] are all in the file, with a positive chunk size and as
    many turns as the segment has bytes: it ends and leaves the file
    object as it found it. It returns the empty list when the pattern
    occurs nowhere in the segment, and otherwise the one address of the
    first occurrence: no occurrence lies before it. *)
Theorem search_first_finds_first :
  forall (fuel : nat) (self : MinidumpMemorySegment.t)
         (pattern pre data post : bytes) (chunksize : Z) (p : nat),
    MinidumpMemorySegment.size self = len data ->
    MinidumpMemorySegment.start_file_address self = len pre ->
    len pattern <= len data ->
    0 < len data ->
    0 < chunksize ->
    (length data <= fuel)%nat ->
    exists addresses,
      MinidumpMemorySegment.search fuel self pattern true chunksize
        (mkFile (pre ++ data ++ post) p)
      = Some (Ok addresses, mkFile (pre ++ data ++ post) p)
      /\ ((addresses = [] /\ forall i, ~ occurs_at data pattern i)
          \/ exists i,
              addresses
              = [MinidumpMemorySegment.start_virtual_address self + Z.of_nat i]
              /\ occurs_at data pattern i
              /\ forall j, (j < i)%nat -> ~ occurs_at data pattern j).
Proof.
  intros fuel self pattern pre data post chunksize p Hsize Hsfa Hpat Hdata
         Hcs Hfuel.
  eexists. split.
  - apply search_first_result; assumption.
  - destruct (find_index data pattern) as [i|] eqn:E.
    + right. exists i. split; [reflexivity|].
      exact (find_index_Some _ _ _ E).
    + left. split; [reflexivity|]. exact (find_index_None _ _ E).
Qed.

Lemma search_first_finds_first_witness :
  let self := MinidumpMemorySegment.init 7 1 4096 in
  (MinidumpMemorySegment.size self = len (b "AABCCDD")
   /\ MinidumpMemorySegment.start_file_address self = len (b "z")
   /\ len (b "CD") <= len (b "AABCCDD")
   /\ 0 < len (b "AABCCDD") /\ 0 < 3
   /\ (length (b "AABCCDD") <= 7)%nat)
  /\ exists addresses,
      MinidumpMemorySegment.search 7 self (b "CD") true 3
        (mkFile (b "z" ++ b "AABCCDD" ++ b "CDz") 5)
      = Some (Ok addresses, mkFile (b "z" ++ b "AABCCDD" ++ b "CDz") 5)
      /\ ((addresses = [] /\ forall i, ~ occurs_at (b "AABCCDD") (b "CD") i)
          \/ exists i,
              addresses
              = [MinidumpMemorySegment.start_virtual_address self + Z.of_nat i]
              /\ occurs_at (b "AABCCDD") (b "CD") i
              /\ forall j, (j < i)%nat -> ~ occurs_at (b "AABCCDD") (b "CD") j).
Proof.
  intros self.
  assert (H1 : MinidumpMemorySegment.size self = len (b "AABCCDD")) by reflexivity.
  assert (H2 : MinidumpMemorySegment.start_file_address self = len (b "z"))
    by reflexivity.
  assert (H3 : len (b "CD") <= len (b "AABCCDD")) by (cbn; lia).
  assert (H4 : 0 < len (b "AABCCDD")) by (cbn; lia).
  assert (H5 : 0 < 3) by lia.
  assert (H6 : (length (b "AABCCDD") <= 7)%nat) by (cbn; lia).
  split; [auto 10|].
  exact (search_first_finds_first 7 self (b "CD") (b "z") (b "AABCCDD")
           (b "CDz") 3 5 H1 H2 H3 H4 H5 H6).
Defined.

(** ** The first match on a file that ends too early *)

Section Starved.
Import MinidumpMemorySegment.

Variable self : MinidumpMemorySegment.t.
Variables pattern pre data : bytes.
Variable pos : Z.
Hypothesis Hshort : len data < size self.
Hypothesis Habsent : find_index data pattern = None.

(** The file ends with [data], which is shorter than the segment and does
    not hold the pattern: every turn of the loop finds nothing and leaves
    the data shorter than the segment, so no number of turns ends it. *)
Lemma search_first_loop_starves :
  forall (fuel k : nat) (chunksize : Z),
    (k <= length data)%nat ->
    0 <= chunksize ->
    search_first_loop fuel self pattern pos chunksize (firstn k data)
                      (mkFile (pre ++ data) (length pre + k))
    = None.
Proof.
  induction fuel as [|fuel IH]; intros k chunksize Hk Hcs;
    rewrite search_first_loop_eq; unfold len in *;
    rewrite length_firstn, Nat.min_l by exact Hk;
    (destruct (Z.ltb_spec (Z.of_nat k) (size self)) as [_|H]; [|lia]).
  - reflexivity.
  - set (cs := if chunksize >? size self - Z.of_nat k
               then size self - Z.of_nat k else chunksize).
    assert (Hcs' : 0 <= cs).
    { unfold cs. destruct (Z.gtb_spec chunksize (size self - Z.of_nat k)); lia. }
    rewrite read_inside by exact Hcs'.
    rewrite firstn_extend.
    rewrite find_prefix_miss by exact Habsent.
    cbn [Z.eqb negb]. rewrite Pos.eqb_refl. cbn [negb].
    rewrite <- Nat.add_assoc. apply IH; [|exact Hcs'].
    rewrite length_firstn, length_skipn. lia.
Qed.

End Starved.

(** The search with [find_first = True] does not return when the file ends
    inside the segment and the bytes that are there do not hold the
    pattern: whatever number of turns it is given, the loop is still
    running, reading nothing at the end of the file. *)
Theorem search_first_truncated_never_returns :
  forall (fuel : nat) (self : MinidumpMemorySegment.t)
         (pattern pre data : bytes) (chunksize : Z) (p : nat),
    MinidumpMemorySegment.start_file_address self = len pre ->
    len data < MinidumpMemorySegment.size self ->
    len pattern <= MinidumpMemorySegment.size self ->
    find_index data pattern = None ->
    0 <= chunksize ->
    MinidumpMemorySegment.search fuel self pattern true chunksize
      (mkFile (pre ++ data) p)
    = None.
Proof.
  intros fuel self pattern pre data chunksize p Hsfa Hshort Hpat Habsent Hcs.
  unfold MinidumpMemorySegment.search. rewrite Hsfa.
  destruct (Z.gtb_spec (len pattern) (MinidumpMemorySegment.size self))
    as [H|_]; [lia|].
  unfold len at 1. rewrite search_prologue.
  pose proof (search_first_loop_starves self pattern pre data (Z.of_nat p)
                Hshort Habsent fuel 0
                (Z.min chunksize (MinidumpMemorySegment.size self))) as Hloop.
  cbn [firstn] in Hloop. rewrite Nat.add_0_r in Hloop.
  rewrite Hloop; [reflexivity|lia|].
  unfold len in Hshort. lia.
Qed.

Lemma search_first_truncated_never_returns_witness :
  let self := MinidumpMemorySegment.init 8 1 4096 in
  (MinidumpMemorySegment.start_file_address self = len (b "z")
   /\ len (b "AAB") < MinidumpMemorySegment.size self
   /\ len (b "BC") <= MinidumpMemorySegment.size self
   /\ find_index (b "AAB") (b "BC") = None
   /\ 0 <= 4)
  /\ MinidumpMemorySegment.search 1000 self (b "BC") true 4
       (mkFile (b "z" ++ b "AAB") 0)
     = None.
Proof.
  intros self.
  assert (H1 : MinidumpMemorySegment.start_file_address self = len (b "z"))
    by reflexivity.
  assert (H2 : len (b "AAB") < MinidumpMemorySegment.size self) by (cbn; lia).
  assert (H3 : len (b "BC") <= MinidumpMemorySegment.size self) by (cbn; lia).
  assert (H4 : find_index (b "AAB") (b "BC") = None) by reflexivity.
  assert (H5 : 0 <= 4) by lia.
  split; [auto 10|].
  exact (search_first_truncated_never_returns 1000 self (b "BC") (b "z")
           (b "AAB") 4 0 H1 H2 H3 H4 H5).
Defined.

(** ** Searching leaves the file object as it was *)

Section SearchFrame.
Import MinidumpMemorySegment.

(** A loop of the [find_first = True] branch that ends: it raised
    nothing, it did not change what the file holds, and when it returned
    from inside the loop, it put the cursor back first. *)
Lemma search_first_loop_frame (self : MinidumpMemorySegment.t)
      (pattern : bytes) (pos : Z) :
  0 <= pos ->
  forall (fuel : nat) (chunksize : Z) (data : bytes) (fh fh2 : FileHandler)
         (r : result loop_exit),
    search_first_loop fuel self pattern pos chunksize data fh = Some (r, fh2) ->
    contents fh2 = contents fh
    /\ exists ex, r = Ok ex
                  /\ forall fl, ex = Returned fl -> position fh2 = Z.to_nat pos.
Proof.
  intros Hpos. induction fuel as [|fuel IH];
    intros chunksize data fh fh2 r; rewrite search_first_loop_eq;
    (destruct (len data <? size self);
     [|intros [= <- <-]; split; [reflexivity|];
       eexists; split; [reflexivity|discriminate]]).
  - discriminate.
  - rewrite read_total.
    destruct (negb (find _ pattern =? -1)).
    + unfold bind. rewrite seek_ok by exact Hpos. unfold ret.
      intros [= <- <-]. split; [reflexivity|].
      eexists. split; [reflexivity|]. intros fl _. reflexivity.
    + intros H. apply IH in H. exact H.
Qed.

End SearchFrame.

(** [search] on a segment whose file offset is not negative, with a chunk
    size that is not negative: when it returns, it returns a list (no
    exception) and the file object is as it was before the call, cursor
    included. This holds on every path: the pattern longer than the
    segment, the first match found or not found, and the scan for all
    matches. *)
Theorem search_restores_cursor :
  forall (fuel : nat) (self : MinidumpMemorySegment.t) (pattern : bytes)
         (find_first : bool) (chunksize : Z) (fh fh' : FileHandler)
         (r : result (list Z)),
    0 <= MinidumpMemorySegment.start_file_address self ->
    0 <= chunksize ->
    MinidumpMemorySegment.search fuel self pattern find_first chunksize fh
    = Some (r, fh') ->
    fh' = fh /\ exists fl, r = Ok fl.
Proof.
  intros fuel self pattern find_first chunksize [c p] fh' r Hsfa _.
  unfold MinidumpMemorySegment.search.
  destruct (len pattern >? MinidumpMemorySegment.size self).
  { intros [= <- <-]. split; [reflexivity|]. eexists. reflexivity. }
  unfold bind at 1 2, tell, ret. cbn [position contents].
  rewrite seek_ok by exact Hsfa. cbn [contents].
  destruct find_first.
  - destruct (MinidumpMemorySegment.search_first_loop fuel self pattern
                (Z.of_nat p)
                (Z.min chunksize (MinidumpMemorySegment.size self)) []
                (mkFile c (Z.to_nat (MinidumpMemorySegment.start_file_address self))))
      as [[r1 fh2]|] eqn:E; [|discriminate].
    apply search_first_loop_frame in E; [|lia].
    destruct E as (Hc & ex & -> & Hpos). cbn [contents] in Hc.
    destruct fh2 as [c2 p2]. cbn [contents position] in *. subst c2.
    destruct ex as [fl|fl].
    + intros [= <- <-]. rewrite (Hpos fl eq_refl), Nat2Z.id.
      split; [reflexivity|]. eexists. reflexivity.
    + unfold bind. rewrite seek_back. unfold ret. intros [= <- <-].
      split; [reflexivity|]. eexists. reflexivity.
  - unfold bind at 1. rewrite read_total. cbn [contents position].
    unfold bind at 1. rewrite seek_back.
    destruct (MinidumpMemorySegment.search_all_loop _ _ _ _ _ _) as [fl|fl].
    + unfold ret. intros [= <- <-]. split; [reflexivity|].
      eexists. reflexivity.
    + unfold bind. rewrite seek_back. unfold ret. intros [= <- <-].
      split; [reflexivity|]. eexists. reflexivity.
Qed.

Lemma search_restores_cursor_witness :
  let self := MinidumpMemorySegment.init 5 2 4096 in
  let fh := mkFile (b "xxABABAyy") 7 in
  (0 <= MinidumpMemorySegment.start_file_address self /\ 0 <= 2
   /\ MinidumpMemorySegment.search 5 self (b "BA") true 2 fh
      = Some (Ok [4097], fh))
  /\ (fh = fh /\ exists fl, Ok [4097] = Ok fl).
Proof.
  intros self fh.
  assert (H1 : 0 <= MinidumpMemorySegment.start_file_address self) by (cbn; lia).
  assert (H2 : 0 <= 2) by lia.
  assert (H3 : MinidumpMemorySegment.search 5 self (b "BA") true 2 fh
               = Some (Ok [4097], fh)) by reflexivity.
  split; [auto|].
  exact (search_restores_cursor 5 self (b "BA") true 2 fh fh (Ok [4097])
           H1 H2 H3).
Defined.

(** ** Reading back what a search found *)

Section ReadBack.
Import MinidumpMemorySegment.

(** A request that [validate_address] accepts, at a file offset and for a
    length that are not negative: the bytes at the offset, and the file
    object as it was. *)
Lemma segment_read_ok (self : MinidumpMemorySegment.t) (va n : Z)
      (fh : FileHandler) :
  validate_address self va n = Ok tt ->
  0 <= start_file_address self + (va - start_virtual_address self) ->
  0 <= n ->
  MinidumpMemorySegment.read self va n fh
  = (Ok (firstn (Z.to_nat n)
                (skipn (Z.to_nat (start_file_address self
                                  + (va - start_virtual_address self)))
                       (contents fh))), fh).
Proof.
  intros Hv Hoff Hn. destruct fh as [c p].
  unfold MinidumpMemorySegment.read, bind, lift, tell. rewrite Hv.
  cbn [position contents]. rewrite seek_ok by exact Hoff.
  rewrite read_total. cbn [position contents]. rewrite seek_back.
  destruct (Z.ltb_spec n 0); [lia|]. reflexivity.
Qed.

Variable self : MinidumpMemorySegment.t.
Variables pattern pre data post : bytes.
Variable p : nat.
Hypothesis Hsize : size self = len data.
Hypothesis Hsfa : start_file_address self = len pre.
Hypothesis Hend :
  end_virtual_address self = start_virtual_address self + size self.
Hypothesis Hpattern : pattern <> [].

(** Reading at an occurrence of the pattern gives the pattern. *)
Lemma read_at_occurrence (i : nat) :
  occurs_at data pattern i ->
  MinidumpMemorySegment.read self (start_virtual_address self + Z.of_nat i)
    (len pattern) (mkFile (pre ++ data ++ post) p)
  = (Ok pattern, mkFile (pre ++ data ++ post) p).
Proof.
  intros Hocc. pose proof (occurs_at_length _ _ _ Hpattern Hocc) as Hlen.
  rewrite segment_read_ok.
  - cbn [contents]. rewrite Hsfa. unfold len.
    replace (Z.to_nat (Z.of_nat (length pre)
                       + (start_virtual_address self + Z.of_nat i
                          - start_virtual_address self)))
      with (length pre + i)%nat by lia.
    rewrite skipn_app_plus, Nat2Z.id, firstn_skipn_inside by lia.
    unfold occurs_at in Hocc. rewrite Hocc. reflexivity.
  - apply validate_address_cases; rewrite Hend, Hsize; unfold len; lia.
  - rewrite Hsfa. unfold len. lia.
  - unfold len. lia.
Qed.

End ReadBack.

(** Every address that [search] returns can be read: on a segment whose
    end address is its start address plus its size and whose bytes are all
    in the file, [read] of the length of the (non-empty) pattern at a
    returned address gives the pattern. This holds for the scan for all
    matches and, with a positive chunk size and enough turns, for the
    search for the first match. *)
Theorem search_hits_read_back :
  forall (fuel : nat) (self : MinidumpMemorySegment.t)
         (pattern pre data post : bytes) (find_first : bool)
         (chunksize : Z) (p : nat),
    MinidumpMemorySegment.size self = len data ->
    MinidumpMemorySegment.start_file_address self = len pre ->
    MinidumpMemorySegment.end_virtual_address self
    = MinidumpMemorySegment.start_virtual_address self
      + MinidumpMemorySegment.size self ->
    pattern <> [] ->
    len pattern <= len data ->
    (find_first = true -> 0 < chunksize /\ (length data <= fuel)%nat) ->
    exists addresses,
      MinidumpMemorySegment.search fuel self pattern find_first chunksize
        (mkFile (pre ++ data ++ post) p)
      = Some (Ok addresses, mkFile (pre ++ data ++ post) p)
      /\ forall a,
          In a addresses ->
          MinidumpMemorySegment.read self a (len pattern)
            (mkFile (pre ++ data ++ post) p)
          = (Ok pattern, mkFile (pre ++ data ++ post) p).
Proof.
  intros fuel self pattern pre data post find_first chunksize p
         Hsize Hsfa Hend Hpattern Hlen Hfirst.
  destruct find_first.
  - destruct (Hfirst eq_refl) as [Hcs Hfuel].
    assert (Hdata : 0 < len data).
    { destruct pattern; [contradiction|]. unfold len in *. cbn [length] in Hlen.
      lia. }
    eexists. split.
    + apply search_first_result; assumption.
    + intros a Ha.
      destruct (find_index data pattern) as [i|] eqn:E; [|contradiction].
      destruct Ha as [<-|[]].
      apply read_at_occurrence; try assumption.
      exact (proj1 (find_index_Some _ _ _ E)).
  - destruct (search_all_finds fuel self pattern pre data post chunksize p
                               Hsize Hsfa Hlen)
      as (L & Hres & _ & Hsound & _).
    eexists. split; [exact Hres|].
    intros a Ha. apply in_map_iff in Ha. destruct Ha as (i & <- & Hi).
    rewrite Z.add_comm.
    apply read_at_occurrence; try assumption.
    apply Hsound. exact Hi.
Qed.

Lemma search_hits_read_back_witness :
  let self := MinidumpMemorySegment.init 5 2 4096 in
  let fh := mkFile (b "xx" ++ b "ABABA" ++ b "yy") 7 in
  (MinidumpMemorySegment.size self = len (b "ABABA")
   /\ MinidumpMemorySegment.start_file_address self = len (b "xx")
   /\ MinidumpMemorySegment.end_virtual_address self
      = MinidumpMemorySegment.start_virtual_address self
        + MinidumpMemorySegment.size self
   /\ b "BA" <> []
   /\ len (b "BA") <= len (b "ABABA")
   /\ (false = true -> 0 < 1 /\ (length (b "ABABA") <= 0)%nat))
  /\ exists addresses,
      MinidumpMemorySegment.search 0 self (b "BA") false 1 fh
      = Some (Ok addresses, fh)
      /\ forall a,
          In a addresses ->
          MinidumpMemorySegment.read self a (len (b "BA")) fh
          = (Ok (b "BA"), fh).
Proof.
  intros self fh.
  assert (H1 : MinidumpMemorySegment.size self = len (b "ABABA")) by reflexivity.
  assert (H2 : MinidumpMemorySegment.start_file_address self = len (b "xx"))
    by reflexivity.
  assert (H3 : MinidumpMemorySegment.end_virtual_address self
               = MinidumpMemorySegment.start_virtual_address self
                 + MinidumpMemorySegment.size self) by reflexivity.
  assert (H4 : b "BA" <> []) by discriminate.
  assert (H5 : len (b "BA") <= len (b "ABABA")) by (cbn; lia).
  assert (H6 : false = true -> 0 < 1 /\ (length (b "ABABA") <= 0)%nat)
    by discriminate.
  split; [auto 10|].
  exact (search_hits_read_back 0 self (b "BA") (b "xx") (b "ABABA") (b "yy")
           false 1 7 H1 H2 H3 H4 H5 H6).
Defined.

(** The search with [find_first = False] for a non-empty pattern over a
    segment whose bytes [data] are all in the file: it returns the
    addresses of a strictly increasing list of indices into the segment;
    the pattern occurs at each of them and ends inside the segment; every
    occurrence that ends before the segment's last byte is among them; and
    the file object is left as it was found. *)
Theorem search_all_matches :
  forall (fuel : nat) (self : MinidumpMemorySegment.t)
         (pattern pre data post : bytes) (chunksize : Z) (p : nat),
    MinidumpMemorySegment.size self = len data ->
    MinidumpMemorySegment.start_file_address self = len pre ->
    pattern <> [] ->
    len pattern <= len data ->
    exists L : list nat,
      MinidumpMemorySegment.search fuel self pattern false chunksize
        (mkFile (pre ++ data ++ post) p)
      = Some (Ok (map (fun i => Z.of_nat i
                                + MinidumpMemorySegment.start_virtual_address self) L),
              mkFile (pre ++ data ++ post) p)
      /\ StronglySorted lt L
      /\ (forall i, In i L ->
                    occurs_at data pattern i
                    /\ Z.of_nat i + len pattern
                       <= MinidumpMemorySegment.size self)
      /\ (forall i, occurs_at data pattern i ->
                    Z.of_nat i + len pattern < len data -> In i L).
Proof.
  intros fuel self pattern pre data post chunksize p Hsize Hsfa Hpattern Hlen.
  destruct (search_all_finds fuel self pattern pre data post chunksize p
                             Hsize Hsfa Hlen)
    as (L & Hres & Hsorted & Hsound & Hcomplete).
  exists L. split; [exact Hres|]. split; [exact Hsorted|].
  split; [|exact Hcomplete].
  intros i Hi. split; [exact (Hsound i Hi)|].
  pose proof (occurs_at_length _ _ _ Hpattern (Hsound i Hi)) as Hb.
  rewrite Hsize. unfold len. lia.
Qed.

Lemma search_all_matches_witness :
  let self := MinidumpMemorySegment.init 5 2 4096 in
  (MinidumpMemorySegment.size self = len (b "ABABA")
   /\ MinidumpMemorySegment.start_file_address self = len (b "xx")
   /\ b "AB" <> []
   /\ len (b "AB") <= len (b "ABABA"))
  /\ exists L : list nat,
      MinidumpMemorySegment.search 0 self (b "AB") false 1
        (mkFile (b "xx" ++ b "ABABA" ++ b "yy") 7)
      = Some (Ok (map (fun i => Z.of_nat i
                                + MinidumpMemorySegment.start_virtual_address self) L),
              mkFile (b "xx" ++ b "ABABA" ++ b "yy") 7)
      /\ StronglySorted lt L
      /\ (forall i, In i L ->
                    occurs_at (b "ABABA") (b "AB") i
                    /\ Z.of_nat i + len (b "AB")
                       <= MinidumpMemorySegment.size self)
      /\ (forall i, occurs_at (b "ABABA") (b "AB") i ->
                    Z.of_nat i + len (b "AB") < len (b "ABABA") -> In i L).
Proof.
  intros self.
  assert (H1 : MinidumpMemorySegment.size self = len (b "ABABA")) by reflexivity.
  assert (H2 : MinidumpMemorySegment.start_file_address self = len (b "xx"))
    by reflexivity.
  assert (H3 : b "AB" <> []) by discriminate.
  assert (H4 : len (b "AB") <= len (b "ABABA")) by (cbn; lia).
  split; [auto|].
  exact (search_all_matches 0 self (b "AB") (b "xx") (b "ABABA") (b "yy") 1 7
           H1 H2 H3 H4).
Defined.

(** ** The full/64-form list on arbitrary bytes *)

Section AnyChunk.

(** A comprehension over a parser that never raises never raises, and
    gives as many records as it was asked for. *)
Lemma parse_many_total {A : Type} (parse_one : io A) :
  (forall fh, exists x fh', parse_one fh = (Ok x, fh')) ->
  forall n fh, exists xs fh',
      parse_many parse_one n fh = (Ok xs, fh') /\ length xs = n.
Proof.
  intros Hone. induction n as [|n IH]; intros fh; cbn [parse_many].
  - exists [], fh. split; reflexivity.
  - destruct (Hone fh) as (x & fh1 & E1).
    destruct (IH fh1) as (xs & fh2 & E2 & Hlen).
    exists (x :: xs), fh2. unfold bind. rewrite E1, E2. unfold ret.
    split; [reflexivity|]. cbn [length]. rewrite Hlen. reflexivity.
Qed.

Lemma descriptor64_parse_total (fh : FileHandler) :
  exists d fh', MINIDUMP_MEMORY_DESCRIPTOR64.parse fh = (Ok d, fh').
Proof.
  unfold MINIDUMP_MEMORY_DESCRIPTOR64.parse.
  rewrite (read_twice 8 (fun a c => ret (MINIDUMP_MEMORY_DESCRIPTOR64.mk
                                           (int_from_bytes a) (int_from_bytes c)))).
  unfold ret. eexists. eexists. reflexivity.
Qed.

Lemma descriptor_parse_total (fh : FileHandler) :
  exists d fh', MINIDUMP_MEMORY_DESCRIPTOR.parse fh = (Ok d, fh').
Proof.
  unfold MINIDUMP_MEMORY_DESCRIPTOR.parse, MINIDUMP_LOCATION_DESCRIPTOR.parse,
    bind, read, ret.
  eexists. eexists. reflexivity.
Qed.

(** The list-level parse on any bytes: the count is what the first eight
    bytes say, the base offset what the next eight say, and there are as
    many descriptors as the count. *)
Lemma memory64_list_parse_total (chunk_data : bytes) :
  exists rs fh',
    MINIDUMP_MEMORY64_LIST.parse (BytesIO chunk_data)
    = (Ok (MINIDUMP_MEMORY64_LIST.mk
             (int_from_bytes (firstn 8 chunk_data))
             (int_from_bytes (firstn 8 (skipn 8 chunk_data)))
             rs), fh')
    /\ length rs = Z.to_nat (int_from_bytes (firstn 8 chunk_data)).
Proof.
  unfold MINIDUMP_MEMORY64_LIST.parse.
  rewrite (read_twice 8
             (fun a c =>
                rs <- parse_many MINIDUMP_MEMORY_DESCRIPTOR64.parse
                        (Z.to_nat (int_from_bytes a)) ;;
                ret (MINIDUMP_MEMORY64_LIST.mk (int_from_bytes a)
                                               (int_from_bytes c) rs))).
  cbn [BytesIO contents position skipn].
  match goal with
  | |- context [parse_many ?f ?n] =>
    destruct (parse_many_total f descriptor64_parse_total n
                (mkFile chunk_data (0 + Nat.min (2 * 8) (length chunk_data - 0))))
      as (rs & fh' & E & Hlen)
  end.
  exists rs, fh'. unfold bind. rewrite E. unfold ret.
  split; [reflexivity|exact Hlen].
Qed.

Lemma data_sizes_sum_firstn_S (ranges : list MINIDUMP_MEMORY_DESCRIPTOR64.t)
      (i : nat) (d : MINIDUMP_MEMORY_DESCRIPTOR64.t) :
  nth_error ranges i = Some d ->
  data_sizes_sum (firstn (S i) ranges)
  = data_sizes_sum (firstn i ranges) + MINIDUMP_MEMORY_DESCRIPTOR64.DataSize d.
Proof.
  revert i. induction ranges as [|x rest IH]; intros i Hi.
  - destruct i; discriminate Hi.
  - destruct i as [|i].
    + cbn in Hi. injection Hi as ->. unfold data_sizes_sum. cbn. lia.
    + cbn [nth_error] in Hi. specialize (IH _ Hi).
      change (firstn (S (S i)) (x :: rest)) with (x :: firstn (S i) rest).
      change (firstn (S i) (x :: rest)) with (x :: firstn i rest).
      unfold data_sizes_sum in *. cbn [map fold_right]. rewrite IH. lia.
Qed.

Lemma data_sizes_sum_firstn_nonneg
      (ranges : list MINIDUMP_MEMORY_DESCRIPTOR64.t) (j : nat) :
  Forall (fun d => 0 <= MINIDUMP_MEMORY_DESCRIPTOR64.DataSize d) ranges ->
  0 <= data_sizes_sum (firstn j ranges).
Proof.
  intros Hall. revert j. induction Hall as [|x rest Hx _ IH]; intros j.
  - rewrite firstn_nil. reflexivity.
  - destruct j as [|j]; [reflexivity|]. cbn [firstn].
    specialize (IH j). unfold data_sizes_sum in *. cbn [map fold_right]. lia.
Qed.

(** With sizes that are not negative, the sum of the first sizes grows
    with their number. *)
Lemma data_sizes_sum_firstn_mono (ranges : list MINIDUMP_MEMORY_DESCRIPTOR64.t)
      (i j : nat) :
  Forall (fun d => 0 <= MINIDUMP_MEMORY_DESCRIPTOR64.DataSize d) ranges ->
  (i <= j)%nat ->
  data_sizes_sum (firstn i ranges) <= data_sizes_sum (firstn j ranges).
Proof.
  intros Hall. revert i j. induction Hall as [|x rest Hx Hrest IH]; intros i j Hij.
  - rewrite !firstn_nil. lia.
  - destruct i as [|i].
    + apply (data_sizes_sum_firstn_nonneg (x :: rest) j).
      constructor; assumption.
    + destruct j as [|j]; [lia|]. cbn [firstn].
      specialize (IH i j ltac:(lia)).
      unfold data_sizes_sum in *. cbn [map fold_right]. lia.
Qed.

End AnyChunk.

Section Layout.

Lemma from_chunk_data_inv (chunk_data : bytes) (l : MinidumpMemory64List.t) :
  MinidumpMemory64List.from_chunk_data chunk_data = Ok l ->
  exists rs base,
    MinidumpMemory64List.memory_segments l
    = MinidumpMemory64List.segments_loop rs base []
    /\ Forall (fun d => 0 <= MINIDUMP_MEMORY_DESCRIPTOR64.DataSize d) rs.
Proof.
  unfold MinidumpMemory64List.from_chunk_data.
  destruct (MINIDUMP_MEMORY64_LIST.parse (BytesIO chunk_data))
    as [[mtl|e] fh1] eqn:E; cbn [fst]; [|discriminate].
  intros [= <-]. cbn [MinidumpMemory64List.memory_segments].
  exists (MINIDUMP_MEMORY64_LIST.MemoryRanges mtl),
    (MINIDUMP_MEMORY64_LIST.BaseRva mtl). split; [reflexivity|].
  unfold MINIDUMP_MEMORY64_LIST.parse in E.
  apply bind_Ok in E. destruct E as (n & fh2 & _ & E).
  apply bind_Ok in E. destruct E as (base & fh3 & _ & E).
  apply bind_Ok in E. destruct E as (rs & fh4 & Hrs & E).
  unfold ret in E. injection E as <- _.
  cbn [MINIDUMP_MEMORY64_LIST.MemoryRanges].
  exact (parse_many_Forall _ _ descriptor64_size_nonneg _ _ _ _ Hrs).
Qed.

Lemma segments_loop_nth_inv (ranges : list MINIDUMP_MEMORY_DESCRIPTOR64.t)
      (rva : Z) (i : nat) (s : MinidumpMemorySegment.t) :
  nth_error (MinidumpMemory64List.segments_loop ranges rva []) i = Some s ->
  exists d,
    nth_error ranges i = Some d
    /\ s = MinidumpMemorySegment.parse_full d
             (rva + data_sizes_sum (firstn i ranges)).
Proof.
  intros Hs. destruct (nth_error ranges i) as [d|] eqn:E.
  - exists d. split; [reflexivity|].
    rewrite (segments_loop_nth _ _ _ _ E) in Hs. congruence.
  - apply nth_error_None in E.
    assert (Hnone : nth_error (MinidumpMemory64List.segments_loop ranges rva []) i
                    = None)
      by (apply nth_error_None; rewrite length_segments_loop; exact E).
    congruence.
Qed.

End Layout.

(** Whatever bytes it is given, [from_chunk_data] raises nothing: it
    returns a list of exactly as many segments as the first eight bytes
    say (none for the empty string), the first of them at the file offset
    the next eight bytes say, each with a size that is not negative and an
    end address equal to its start address plus its size. *)
Theorem from_chunk_data_total :
  forall chunk_data : bytes,
    exists segs,
      MinidumpMemory64List.from_chunk_data chunk_data
      = Ok (MinidumpMemory64List.mk segs)
      /\ length segs = Z.to_nat (int_from_bytes (firstn 8 chunk_data))
      /\ Forall well_formed segs
      /\ (forall s, nth_error segs 0 = Some s ->
                    MinidumpMemorySegment.start_file_address s
                    = int_from_bytes (firstn 8 (skipn 8 chunk_data))).
Proof.
  intros chunk_data.
  destruct (memory64_list_parse_total chunk_data) as (rs & fh' & Hp & Hlen).
  assert (Hfrom : MinidumpMemory64List.from_chunk_data chunk_data
                  = Ok (MinidumpMemory64List.mk
                          (MinidumpMemory64List.segments_loop rs
                             (int_from_bytes (firstn 8 (skipn 8 chunk_data))) []))).
  { unfold MinidumpMemory64List.from_chunk_data. rewrite Hp. reflexivity. }
  eexists. split; [exact Hfrom|]. split; [|split].
  - rewrite length_segments_loop. exact Hlen.
  - exact (from_chunk_data_well_formed _ _ Hfrom).
  - intros s Hs. apply segments_loop_nth_inv in Hs.
    destruct Hs as (d & _ & ->). cbn [firstn].
    unfold data_sizes_sum. cbn. lia.
Qed.

(** The segments [from_chunk_data] returns lie back to back in the file,
    in the order of the list: each one starts where the one before it
    ends, and a later segment never starts before an earlier one ends. *)
Theorem from_chunk_data_back_to_back :
  forall (chunk_data : bytes) (l : MinidumpMemory64List.t),
    MinidumpMemory64List.from_chunk_data chunk_data = Ok l ->
    (forall i s s',
        nth_error (MinidumpMemory64List.memory_segments l) i = Some s ->
        nth_error (MinidumpMemory64List.memory_segments l) (S i) = Some s' ->
        MinidumpMemorySegment.start_file_address s'
        = MinidumpMemorySegment.start_file_address s
          + MinidumpMemorySegment.size s)
    /\ (forall i j s s',
           (i < j)%nat ->
           nth_error (MinidumpMemory64List.memory_segments l) i = Some s ->
           nth_error (MinidumpMemory64List.memory_segments l) j = Some s' ->
           MinidumpMemorySegment.start_file_address s
           + MinidumpMemorySegment.size s
           <= MinidumpMemorySegment.start_file_address s').
Proof.
  intros chunk_data l Hfrom.
  destruct (from_chunk_data_inv _ _ Hfrom) as (rs & base & -> & Hall).
  assert (Hnext : forall i s,
             nth_error (MinidumpMemory64List.segments_loop rs base []) i = Some s ->
             MinidumpMemorySegment.start_file_address s
             + MinidumpMemorySegment.size s
             = base + data_sizes_sum (firstn (S i) rs)).
  { intros i s Hs. apply segments_loop_nth_inv in Hs.
    destruct Hs as (d & Hd & ->).
    rewrite (data_sizes_sum_firstn_S _ _ _ Hd). cbn. lia. }
  split.
  - intros i s s' Hs Hs'. rewrite (Hnext _ _ Hs).
    apply segments_loop_nth_inv in Hs'. destruct Hs' as (d' & _ & ->).
    reflexivity.
  - intros i j s s' Hij Hs Hs'. rewrite (Hnext _ _ Hs).
    apply segments_loop_nth_inv in Hs'. destruct Hs' as (d' & _ & ->).
    cbn [MinidumpMemorySegment.parse_full MinidumpMemorySegment.init
         MinidumpMemorySegment.start_file_address].
    pose proof (data_sizes_sum_firstn_mono rs (S i) j Hall ltac:(lia)). lia.
Qed.

Lemma from_chunk_data_back_to_back_witness :
  let chunk := le_digits 8 2 ++ le_digits 8 1000
               ++ (le_digits 8 4096 ++ le_digits 8 16)
               ++ (le_digits 8 65536 ++ le_digits 8 32) in
  let l := MinidumpMemory64List.mk
             [MinidumpMemorySegment.init 16 1000 4096;
              MinidumpMemorySegment.init 32 1016 65536] in
  MinidumpMemory64List.from_chunk_data chunk = Ok l
  /\ (forall i s s',
         nth_error (MinidumpMemory64List.memory_segments l) i = Some s ->
         nth_error (MinidumpMemory64List.memory_segments l) (S i) = Some s' ->
         MinidumpMemorySegment.start_file_address s'
         = MinidumpMemorySegment.start_file_address s
           + MinidumpMemorySegment.size s).
Proof.
  intros chunk l.
  assert (H : MinidumpMemory64List.from_chunk_data chunk = Ok l)
    by (vm_compute; reflexivity).
  split; [exact H|].
  exact (proj1 (from_chunk_data_back_to_back chunk l H)).
Defined.

(** ** Round trips of the full-form records *)

Section Full64RoundTrip.

Lemma descriptor64_to_bytes_fits (d : MINIDUMP_MEMORY_DESCRIPTOR64.t) :
  fits64 d ->
  MINIDUMP_MEMORY_DESCRIPTOR64.to_bytes d
  = Ok (le_digits 8 (MINIDUMP_MEMORY_DESCRIPTOR64.StartOfMemoryRange d)
        ++ le_digits 8 (MINIDUMP_MEMORY_DESCRIPTOR64.DataSize d)).
Proof.
  unfold fits64. change (2 ^ 64) with (256 ^ Z.of_nat 8). intros [Hs Hd].
  unfold MINIDUMP_MEMORY_DESCRIPTOR64.to_bytes.
  rewrite !int_to_bytes_fits by assumption. reflexivity.
Qed.

Lemma descriptor64_to_bytes_overflow (d : MINIDUMP_MEMORY_DESCRIPTOR64.t) :
  ~ fits64 d ->
  MINIDUMP_MEMORY_DESCRIPTOR64.to_bytes d = Raise OverflowError.
Proof.
  unfold fits64. change (2 ^ 64) with (256 ^ Z.of_nat 8). intros Hn.
  unfold MINIDUMP_MEMORY_DESCRIPTOR64.to_bytes.
  set (s := MINIDUMP_MEMORY_DESCRIPTOR64.StartOfMemoryRange d) in *.
  set (z := MINIDUMP_MEMORY_DESCRIPTOR64.DataSize d) in *.
  assert (Hs : (0 <= s < 256 ^ Z.of_nat 8)
               \/ (s < 0 \/ 256 ^ Z.of_nat 8 <= s)) by lia.
  destruct Hs as [Hs|Hs].
  - rewrite (int_to_bytes_fits s) by exact Hs.
    rewrite int_to_bytes_overflow by lia. reflexivity.
  - rewrite int_to_bytes_overflow by exact Hs. reflexivity.
Qed.

Lemma join_bytes_length (rs : list MINIDUMP_MEMORY_DESCRIPTOR64.t) (bs : bytes) :
  Forall fits64 rs ->
  join_bytes MINIDUMP_MEMORY_DESCRIPTOR64.to_bytes rs = Ok bs ->
  len bs = len rs * 16.
Proof.
  intros Hall. revert bs. induction Hall as [|d rest Hd _ IH]; intros bs.
  - cbn. intros [= <-]. reflexivity.
  - cbn [join_bytes]. rewrite (descriptor64_to_bytes_fits d Hd).
    destruct (join_bytes MINIDUMP_MEMORY_DESCRIPTOR64.to_bytes rest)
      as [br|e]; [|discriminate].
    intros H.
    assert (Hbs : bs = (le_digits 8 (MINIDUMP_MEMORY_DESCRIPTOR64.StartOfMemoryRange d)
                        ++ le_digits 8 (MINIDUMP_MEMORY_DESCRIPTOR64.DataSize d))
                       ++ br) by congruence.
    subst bs. specialize (IH br eq_refl). unfold len in *.
    rewrite !length_app, !length_le_digits. cbn [length]. lia.
Qed.

(** The list written by [to_bytes] is read back by [parse], with the count
    that was written: the number of descriptors. *)
Lemma memory64_list_parse_to_bytes (n base : Z)
      (ranges : list MINIDUMP_MEMORY_DESCRIPTOR64.t) :
  0 <= base < 2 ^ 64 -> len ranges < 2 ^ 64 -> Forall fits64 ranges ->
  exists bs,
    MINIDUMP_MEMORY64_LIST.to_bytes (MINIDUMP_MEMORY64_LIST.mk n base ranges)
    = Ok bs
    /\ len bs = 8 + 8 + len ranges * 16
    /\ MINIDUMP_MEMORY64_LIST.parse (BytesIO bs)
       = (Ok (MINIDUMP_MEMORY64_LIST.mk (len ranges) base ranges),
          mkFile bs (length bs)).
Proof.
  change (2 ^ 64) with (256 ^ Z.of_nat 8). intros Hbase Hlen Hfit.
  assert (Hcount : 0 <= len ranges < 256 ^ Z.of_nat 8) by (unfold len in *; lia).
  destruct (parse_many_join ranges Hfit) as (bs & Hjoin & Hparse).
  exists (le_digits 8 (len ranges) ++ le_digits 8 base ++ bs).
  split; [|split].
  - unfold MINIDUMP_MEMORY64_LIST.to_bytes.
    cbn [MINIDUMP_MEMORY64_LIST.MemoryRanges MINIDUMP_MEMORY64_LIST.BaseRva].
    rewrite !int_to_bytes_fits by assumption. rewrite Hjoin. reflexivity.
  - pose proof (join_bytes_length _ _ Hfit Hjoin) as Hb. unfold len in *.
    rewrite !length_app, !length_le_digits. lia.
  - unfold BytesIO, MINIDUMP_MEMORY64_LIST.parse.
    rewrite <- (app_nil_r bs) at 1. rewrite app_assoc.
    etransitivity;
      [exact (read_two_fields 8 (len ranges) base [] (bs ++ [])
                (fun c v =>
                   rs <- parse_many MINIDUMP_MEMORY_DESCRIPTOR64.parse
                           (Z.to_nat c) ;;
                   ret (MINIDUMP_MEMORY64_LIST.mk c v rs)) Hcount Hbase)|].
    unfold len at 1. rewrite Nat2Z.id. unfold bind.
    rewrite Hparse. unfold ret. cbn [app].
    rewrite <- !app_assoc, !app_nil_r. reflexivity.
Qed.

End Full64RoundTrip.

(** Round trip of the full-form memory descriptor. A descriptor whose two
    fields fit 64 bits serialises to 16 bytes ([get_size]), and [parse] on
    a buffer holding them at the cursor gives the descriptor back and
    moves the cursor by 16. A descriptor with a field that is negative or
    does not fit 64 bits cannot be serialised: [to_bytes] raises
    [OverflowError]. *)
Theorem descriptor64_roundtrip :
  forall (d : MINIDUMP_MEMORY_DESCRIPTOR64.t),
    (fits64 d ->
     exists bs,
       MINIDUMP_MEMORY_DESCRIPTOR64.to_bytes d = Ok bs
       /\ len bs = MINIDUMP_MEMORY_DESCRIPTOR64.get_size
       /\ forall pre post,
           MINIDUMP_MEMORY_DESCRIPTOR64.parse
             (mkFile (pre ++ bs ++ post) (length pre))
           = (Ok d, mkFile (pre ++ bs ++ post) (length pre + 16)))
    /\ (~ fits64 d ->
        MINIDUMP_MEMORY_DESCRIPTOR64.to_bytes d = Raise OverflowError).
Proof.
  intros d. split; [|apply descriptor64_to_bytes_overflow].
  intros Hfit.
  destruct (descriptor64_parse_at d [] [] Hfit) as (bs & Hto & Hlen & _).
  exists bs. split; [exact Hto|]. split.
  - unfold len. rewrite Hlen. reflexivity.
  - intros pre post.
    destruct (descriptor64_parse_at d pre post Hfit) as (bs' & Hto' & _ & Hp).
    assert (bs' = bs) by congruence. subst bs'.
    rewrite Hp, length_app, Hlen, <- app_assoc. reflexivity.
Qed.

Lemma descriptor64_roundtrip_witness :
  let d := MINIDUMP_MEMORY_DESCRIPTOR64.mk (2 ^ 40) 4096 in
  let bad := MINIDUMP_MEMORY_DESCRIPTOR64.mk (2 ^ 64) 4096 in
  fits64 d /\ ~ fits64 bad
  /\ (exists bs,
         MINIDUMP_MEMORY_DESCRIPTOR64.to_bytes d = Ok bs
         /\ len bs = 16
         /\ fst (MINIDUMP_MEMORY_DESCRIPTOR64.parse (BytesIO bs)) = Ok d)
  /\ MINIDUMP_MEMORY_DESCRIPTOR64.to_bytes bad = Raise OverflowError.
Proof.
  intros d bad.
  assert (Hd : fits64 d) by (unfold fits64; cbn; lia).
  assert (Hbad : ~ fits64 bad) by (unfold fits64; cbn; lia).
  split; [exact Hd|]. split; [exact Hbad|]. split.
  - destruct (proj1 (descriptor64_roundtrip d) Hd) as (bs & Hto & Hlen & Hp).
    exists bs. split; [exact Hto|]. split; [exact Hlen|].
    specialize (Hp [] []). cbn [app length] in Hp.
    rewrite app_nil_r in Hp. unfold BytesIO. rewrite Hp. reflexivity.
  - exact (proj2 (descriptor64_roundtrip bad) Hbad).
Defined.

(** Round trip of the full-form list. A list whose base offset and
    descriptors fit 64 bits serialises to [get_size] bytes
    (16 + 16 per descriptor), and [parse] gives back the base offset and
    the descriptors, with [NumberOfMemoryRanges] set to the number of
    descriptors: the stored [NumberOfMemoryRanges] is not written. *)
Theorem memory64_list_roundtrip :
  forall (n base : Z) (ranges : list MINIDUMP_MEMORY_DESCRIPTOR64.t),
    0 <= base < 2 ^ 64 -> len ranges < 2 ^ 64 -> Forall fits64 ranges ->
    exists bs,
      MINIDUMP_MEMORY64_LIST.to_bytes (MINIDUMP_MEMORY64_LIST.mk n base ranges)
      = Ok bs
      /\ len bs
         = MINIDUMP_MEMORY64_LIST.get_size
             (MINIDUMP_MEMORY64_LIST.mk n base ranges)
      /\ fst (MINIDUMP_MEMORY64_LIST.parse (BytesIO bs))
         = Ok (MINIDUMP_MEMORY64_LIST.mk (len ranges) base ranges).
Proof.
  intros n base ranges Hbase Hlen Hfit.
  destruct (memory64_list_parse_to_bytes n base ranges Hbase Hlen Hfit)
    as (bs & Hto & Hsize & Hp).
  exists bs. split; [exact Hto|]. split.
  - rewrite Hsize. reflexivity.
  - rewrite Hp. reflexivity.
Qed.

Lemma memory64_list_roundtrip_witness :
  let d1 := MINIDUMP_MEMORY_DESCRIPTOR64.mk 4096 16 in
  let d2 := MINIDUMP_MEMORY_DESCRIPTOR64.mk 65536 32 in
  (0 <= 1000 < 2 ^ 64 /\ len [d1; d2] < 2 ^ 64 /\ Forall fits64 [d1; d2])
  /\ exists bs,
      MINIDUMP_MEMORY64_LIST.to_bytes (MINIDUMP_MEMORY64_LIST.mk 7 1000 [d1; d2])
      = Ok bs
      /\ len bs = 48
      /\ fst (MINIDUMP_MEMORY64_LIST.parse (BytesIO bs))
         = Ok (MINIDUMP_MEMORY64_LIST.mk 2 1000 [d1; d2]).
Proof.
  intros d1 d2.
  assert (A : 0 <= 1000 < 2 ^ 64) by (cbn; lia).
  assert (C : len [d1; d2] < 2 ^ 64) by (cbn; lia).
  assert (F : Forall fits64 [d1; d2]) by (repeat constructor; cbn; lia).
  split; [auto|].
  exact (memory64_list_roundtrip 7 1000 [d1; d2] A C F).
Defined.

(** ** The two list parsers on a file *)

Section ListParsers.

Lemma memory_list_parse_total (chunk_data : bytes) :
  exists rs fh',
    MINIDUMP_MEMORY_LIST.parse (BytesIO chunk_data)
    = (Ok (MINIDUMP_MEMORY_LIST.mk (int_from_bytes (firstn 4 chunk_data)) rs),
       fh')
    /\ length rs = Z.to_nat (int_from_bytes (firstn 4 chunk_data)).
Proof.
  unfold MINIDUMP_MEMORY_LIST.parse. unfold bind. rewrite read_total.
  cbn [BytesIO contents position skipn Z.ltb Z.compare Z.to_nat].
  match goal with
  | |- context [parse_many ?f ?n ?h] =>
    destruct (parse_many_total f descriptor_parse_total n h)
      as (rs & fh' & E & Hlen)
  end.
  exists rs, fh'. rewrite E. unfold ret.
  split; [reflexivity|exact Hlen].
Qed.

(** Seeking to the stream and reading it: the chunk, and the cursor behind
    it. *)
Lemma read_stream (rva size : Z) (fh : FileHandler) (B : Type)
      (k : bytes -> io B) :
  0 <= rva -> 0 <= size ->
  (seek rva ;; chunk_data <- read size ;; k chunk_data) fh
  = k (firstn (Z.to_nat size) (skipn (Z.to_nat rva) (contents fh)))
      (mkFile (contents fh)
              (Z.to_nat rva
               + length (firstn (Z.to_nat size)
                                (skipn (Z.to_nat rva) (contents fh))))).
Proof.
  intros Hrva Hsize. unfold bind. rewrite seek_ok by exact Hrva.
  rewrite read_total. cbn [contents position].
  destruct (Z.ltb_spec size 0); [lia|]. reflexivity.
Qed.

End ListParsers.

(** The two list parsers on a file, for a directory entry whose offset and
    size are not negative. Neither raises. Each reads the [DataSize]
    bytes at [Rva] (fewer when the file ends before), decodes only these,
    and leaves the cursor behind them: it is not put back. The simple
    parser returns as many segments as the first four bytes of the chunk
    say, the full parser what [from_chunk_data] returns on the chunk; all
    segments have a size that is not negative and an end address equal to
    the start address plus the size. *)
Theorem list_parsers_read_their_stream :
  forall (location : MINIDUMP_LOCATION_DESCRIPTOR.t) (fh : FileHandler),
    0 <= MINIDUMP_LOCATION_DESCRIPTOR.Rva location ->
    0 <= MINIDUMP_LOCATION_DESCRIPTOR.DataSize location ->
    let chunk_data :=
      firstn (Z.to_nat (MINIDUMP_LOCATION_DESCRIPTOR.DataSize location))
             (skipn (Z.to_nat (MINIDUMP_LOCATION_DESCRIPTOR.Rva location))
                    (contents fh)) in
    let behind :=
      mkFile (contents fh)
             (Z.to_nat (MINIDUMP_LOCATION_DESCRIPTOR.Rva location)
              + length chunk_data) in
    (exists segs,
        MinidumpMemoryList.parse location fh
        = (Ok (MinidumpMemoryList.mk segs), behind)
        /\ length segs = Z.to_nat (int_from_bytes (firstn 4 chunk_data))
        /\ Forall well_formed segs)
    /\ (exists l,
           MinidumpMemory64List.from_chunk_data chunk_data = Ok l
           /\ MinidumpMemory64List.parse location fh = (Ok l, behind)
           /\ Forall well_formed (MinidumpMemory64List.memory_segments l)).
Proof.
  intros location fh Hrva Hsize chunk_data behind. split.
  - destruct (memory_list_parse_total chunk_data) as (rs & fh' & Hp & Hlen).
    assert (Hparse : MinidumpMemoryList.parse location fh
                     = (Ok (MinidumpMemoryList.mk
                              (map MinidumpMemorySegment.parse_mini rs)), behind)).
    { unfold MinidumpMemoryList.parse.
      rewrite (read_stream _ _ fh _
                 (fun chunk_data =>
                    mtl <- lift (fst (MINIDUMP_MEMORY_LIST.parse (BytesIO chunk_data))) ;;
                    ret {| MinidumpMemoryList.memory_segments :=
                             map MinidumpMemorySegment.parse_mini
                                 (MINIDUMP_MEMORY_LIST.MemoryRanges mtl) |}))
        by assumption.
      fold chunk_data. fold behind. unfold bind, lift. rewrite Hp. reflexivity. }
    eexists. split; [exact Hparse|]. split.
    + rewrite length_map. exact Hlen.
    + exact (memory_list_parse_well_formed _ _ _ _ Hparse).
  - destruct (memory64_list_parse_total chunk_data) as (rs & fh' & Hp & _).
    assert (Hfrom : MinidumpMemory64List.from_chunk_data chunk_data
                    = Ok (MinidumpMemory64List.mk
                            (MinidumpMemory64List.segments_loop rs
                               (int_from_bytes (firstn 8 (skipn 8 chunk_data)))
                               []))).
    { unfold MinidumpMemory64List.from_chunk_data. rewrite Hp. reflexivity. }
    eexists. split; [exact Hfrom|]. split.
    + unfold MinidumpMemory64List.parse.
      rewrite (read_stream _ _ fh _
                 (fun chunk_data =>
                    lift (MinidumpMemory64List.from_chunk_data chunk_data)))
        by assumption.
      fold chunk_data. fold behind. unfold lift. rewrite Hfrom. reflexivity.
    + exact (from_chunk_data_well_formed _ _ Hfrom).
Qed.

Lemma list_parsers_read_their_stream_witness :
  let location := MINIDUMP_LOCATION_DESCRIPTOR.mk 20 2 in
  let chunk := le_digits 4 1 ++ le_digits 4 16 ++ le_digits 4 512
               ++ le_digits 8 4096 in
  let fh := mkFile (b "xx" ++ chunk ++ b "yy") 9 in
  (0 <= MINIDUMP_LOCATION_DESCRIPTOR.Rva location
   /\ 0 <= MINIDUMP_LOCATION_DESCRIPTOR.DataSize location)
  /\ exists segs,
      MinidumpMemoryList.parse location fh
      = (Ok (MinidumpMemoryList.mk segs),
         mkFile (b "xx" ++ chunk ++ b "yy") 22)
      /\ length segs = 1%nat
      /\ Forall well_formed segs.
Proof.
  intros location chunk fh.
  assert (H1 : 0 <= MINIDUMP_LOCATION_DESCRIPTOR.Rva location) by (cbn; lia).
  assert (H2 : 0 <= MINIDUMP_LOCATION_DESCRIPTOR.DataSize location) by (cbn; lia).
  split; [auto|].
  destruct (proj1 (list_parsers_read_their_stream location fh H1 H2))
    as (segs & Hp & Hlen & Hwf).
  exists segs. split; [exact Hp|]. split; [exact Hlen|exact Hwf].
Defined.


(** ** Validation, range membership and reads *)

(** For a request of at least one byte, [validate_address] accepts exactly
    when the first and the last requested address are both in range. *)
Theorem validate_address_inrange :
  forall (self : MinidumpMemorySegment.t) (va n : Z),
    1 <= n ->
    (MinidumpMemorySegment.validate_address self va n = Ok tt
     <-> MinidumpMemorySegment.inrange self va = true
         /\ MinidumpMemorySegment.inrange self (va + n - 1) = true).
Proof.
  intros self va n Hn.
  destruct (validate_address_cases self va n) as (Hout & Hcross & Hok).
  unfold MinidumpMemorySegment.inrange.
  rewrite !andb_true_iff, !Z.leb_le, !Z.ltb_lt.
  set (sva := MinidumpMemorySegment.start_virtual_address self) in *.
  set (eva := MinidumpMemorySegment.end_virtual_address self) in *.
  split.
  - intros Hv.
    assert (Hdec : va < sva \/ eva < va
                   \/ (sva <= va <= eva /\ eva < va + n)
                   \/ (sva <= va <= eva /\ va + n <= eva)) by lia.
    destruct Hdec as [H|[H|[[H1 H2]|[H1 H2]]]].
    + rewrite Hout in Hv by lia. discriminate Hv.
    + rewrite Hout in Hv by lia. discriminate Hv.
    + rewrite Hcross in Hv by lia. discriminate Hv.
    + lia.
  - intros [[H1 H2] [H3 H4]]. apply Hok; lia.
Qed.

Lemma validate_address_inrange_witness :
  let self := MinidumpMemorySegment.init 16 512 4096 in
  1 <= 16
  /\ MinidumpMemorySegment.validate_address self 4096 16 = Ok tt
  /\ MinidumpMemorySegment.inrange self 4096 = true
  /\ MinidumpMemorySegment.inrange self (4096 + 16 - 1) = true.
Proof.
  intros self.
  assert (H : 1 <= 16) by lia.
  assert (Hv : MinidumpMemorySegment.validate_address self 4096 16 = Ok tt)
    by reflexivity.
  split; [exact H|]. split; [exact Hv|].
  exact (proj1 (validate_address_inrange self 4096 16 H) Hv).
Defined.

Section Windows.

Lemma firstn_add (a c : nat) (l : bytes) :
  firstn (a + c) l = firstn a l ++ firstn c (skipn a l).
Proof.
  revert l. induction a as [|a IH]; intros l; [reflexivity|].
  destruct l as [|x l]; [destruct c; reflexivity|].
  cbn [Nat.add firstn skipn app]. rewrite IH. reflexivity.
Qed.

(** A slice that ends inside the first [size] bytes is a slice of these. *)
Lemma firstn_skipn_window (n off size : nat) (l : bytes) :
  (off + n <= size)%nat ->
  firstn n (skipn off (firstn size l)) = firstn n (skipn off l).
Proof.
  intros H. rewrite skipn_firstn_comm, firstn_firstn, Nat.min_l by lia.
  reflexivity.
Qed.

End Windows.

(** [read] only looks at the segment's own bytes. For a segment with a
    file offset that is not negative and an end address equal to its
    start address plus its size, an accepted request for [n >= 0] bytes
    returns the slice at [va - start_virtual_address] of the segment's
    window, the [size] bytes of the file at [start_file_address]:
    nothing outside the window has any influence. A read of [n1 + n2]
    bytes is the read of [n1] bytes followed by the read of [n2] bytes at
    [va + n1]. *)
Theorem read_within_window :
  forall (self : MinidumpMemorySegment.t) (va : Z) (fh : FileHandler),
    let window :=
      firstn (Z.to_nat (MinidumpMemorySegment.size self))
             (skipn (Z.to_nat (MinidumpMemorySegment.start_file_address self))
                    (contents fh)) in
    let offset := va - MinidumpMemorySegment.start_virtual_address self in
    0 <= MinidumpMemorySegment.start_file_address self ->
    MinidumpMemorySegment.end_virtual_address self
    = MinidumpMemorySegment.start_virtual_address self
      + MinidumpMemorySegment.size self ->
    (forall n,
        0 <= n ->
        MinidumpMemorySegment.validate_address self va n = Ok tt ->
        MinidumpMemorySegment.read self va n fh
        = (Ok (firstn (Z.to_nat n) (skipn (Z.to_nat offset) window)), fh))
    /\ (forall n1 n2,
           0 <= n1 -> 0 <= n2 ->
           MinidumpMemorySegment.validate_address self va (n1 + n2) = Ok tt ->
           exists b1 b2,
             MinidumpMemorySegment.read self va n1 fh = (Ok b1, fh)
             /\ MinidumpMemorySegment.read self (va + n1) n2 fh = (Ok b2, fh)
             /\ MinidumpMemorySegment.read self va (n1 + n2) fh
                = (Ok (b1 ++ b2), fh)).
Proof.
  intros self va fh window offset Hsfa Hend.
  set (sva := MinidumpMemorySegment.start_virtual_address self) in *.
  set (eva := MinidumpMemorySegment.end_virtual_address self) in *.
  set (sfa := MinidumpMemorySegment.start_file_address self) in *.
  assert (Hbounds : forall a n,
             MinidumpMemorySegment.validate_address self a n = Ok tt ->
             sva <= a <= eva /\ a + n <= eva).
  { intros a n Hv.
    destruct (validate_address_cases self a n) as (Hout & Hcross & _).
    fold sva eva in Hout, Hcross.
    assert (Hdec : a < sva \/ eva < a
                   \/ (sva <= a <= eva /\ eva < a + n)
                   \/ (sva <= a <= eva /\ a + n <= eva)) by lia.
    destruct Hdec as [H|[H|[[H1 H2]|H]]]; [| | |exact H].
    - rewrite Hout in Hv by lia. discriminate Hv.
    - rewrite Hout in Hv by lia. discriminate Hv.
    - rewrite Hcross in Hv by lia. discriminate Hv. }
  assert (Hvalid : forall a n,
             sva <= a <= eva -> a + n <= eva ->
             MinidumpMemorySegment.validate_address self a n = Ok tt).
  { intros a n H1 H2.
    destruct (validate_address_cases self a n) as (_ & _ & Hok).
    apply Hok; assumption. }
  split.
  - intros n Hn Hv. destruct (Hbounds _ _ Hv) as [H1 H2].
    rewrite segment_read_ok; [|exact Hv|fold sva sfa; lia|exact Hn].
    fold sva sfa. unfold window, offset. fold sfa.
    assert (Hin : (Z.to_nat (va - sva) + Z.to_nat n
                   <= Z.to_nat (MinidumpMemorySegment.size self))%nat)
      by (clearbody sva eva sfa; lia).
    rewrite firstn_skipn_window by exact Hin.
    rewrite skipn_skipn.
    replace (Z.to_nat (sfa + (va - sva)))
      with (Z.to_nat (va - sva) + Z.to_nat sfa)%nat
      by (clearbody sva eva sfa; lia).
    reflexivity.
  - intros n1 n2 Hn1 Hn2 Hv. destruct (Hbounds _ _ Hv) as [H1 H2].
    assert (Hv1 : MinidumpMemorySegment.validate_address self va n1 = Ok tt)
      by (apply Hvalid; lia).
    assert (Hv2 : MinidumpMemorySegment.validate_address self (va + n1) n2 = Ok tt)
      by (apply Hvalid; lia).
    eexists. eexists.
    split; [apply segment_read_ok; [exact Hv1|fold sva sfa; lia|exact Hn1]|].
    split; [apply segment_read_ok; [exact Hv2|fold sva sfa; lia|exact Hn2]|].
    rewrite segment_read_ok; [|exact Hv|fold sva sfa; lia|lia].
    fold sva sfa. do 2 f_equal.
    rewrite Z2Nat.inj_add, firstn_add, skipn_skipn by lia.
    replace (Z.to_nat (sfa + (va + n1 - sva)))
      with (Z.to_nat n1 + Z.to_nat (sfa + (va - sva)))%nat
      by (clearbody sva eva sfa; lia).
    reflexivity.
Qed.

Lemma read_within_window_witness :
  let self := MinidumpMemorySegment.init 5 2 4096 in
  let fh := mkFile (b "xxABABAyy") 7 in
  (0 <= MinidumpMemorySegment.start_file_address self
   /\ MinidumpMemorySegment.end_virtual_address self
      = MinidumpMemorySegment.start_virtual_address self
        + MinidumpMemorySegment.size self
   /\ 0 <= 2 /\ 0 <= 3
   /\ MinidumpMemorySegment.validate_address self 4096 (2 + 3) = Ok tt)
  /\ exists b1 b2,
      MinidumpMemorySegment.read self 4096 2 fh = (Ok b1, fh)
      /\ MinidumpMemorySegment.read self (4096 + 2) 3 fh = (Ok b2, fh)
      /\ MinidumpMemorySegment.read self 4096 (2 + 3) fh = (Ok (b1 ++ b2), fh).
Proof.
  intros self fh.
  assert (H1 : 0 <= MinidumpMemorySegment.start_file_address self) by (cbn; lia).
  assert (H2 : MinidumpMemorySegment.end_virtual_address self
               = MinidumpMemorySegment.start_virtual_address self
                 + MinidumpMemorySegment.size self) by reflexivity.
  assert (H3 : 0 <= 2) by lia.
  assert (H4 : 0 <= 3) by lia.
  assert (H5 : MinidumpMemorySegment.validate_address self 4096 (2 + 3) = Ok tt)
    by reflexivity.
  split; [auto 10|].
  exact (proj2 (read_within_window self 4096 fh H1 H2) 2 3 H3 H4 H5).
Defined.

(** ** When serialisation fails *)

(** [to_bytes] of a location descriptor, in both widths, raises exactly
    when a field is negative or does not fit the width, and then it raises
    [OverflowError]. *)
Theorem location_descriptor_to_bytes_fails :
  (forall v : MINIDUMP_LOCATION_DESCRIPTOR.t,
      let fits := 0 <= MINIDUMP_LOCATION_DESCRIPTOR.DataSize v < 2 ^ 32
                  /\ 0 <= MINIDUMP_LOCATION_DESCRIPTOR.Rva v < 2 ^ 32 in
      (MINIDUMP_LOCATION_DESCRIPTOR.to_bytes v = Raise OverflowError <-> ~ fits)
      /\ forall e, MINIDUMP_LOCATION_DESCRIPTOR.to_bytes v = Raise e ->
                   e = OverflowError)
  /\ (forall v : MINIDUMP_LOCATION_DESCRIPTOR64.t,
         let fits := 0 <= MINIDUMP_LOCATION_DESCRIPTOR64.DataSize v < 2 ^ 64
                     /\ 0 <= MINIDUMP_LOCATION_DESCRIPTOR64.Rva v < 2 ^ 64 in
         (MINIDUMP_LOCATION_DESCRIPTOR64.to_bytes v = Raise OverflowError
          <-> ~ fits)
         /\ forall e, MINIDUMP_LOCATION_DESCRIPTOR64.to_bytes v = Raise e ->
                      e = OverflowError).
Proof.
  assert (Hcases : forall (n : nat) (d r : Z),
             let t := match int_to_bytes d n with
                      | Raise e => Raise e
                      | Ok x => match int_to_bytes r n with
                                | Raise e => Raise e
                                | Ok y => Ok (x ++ y)
                                end
                      end in
             (t = Raise OverflowError
              <-> ~ (0 <= d < 256 ^ Z.of_nat n /\ 0 <= r < 256 ^ Z.of_nat n))
             /\ forall e, t = Raise e -> e = OverflowError).
  { intros n d r t. unfold t.
    assert (Hd : (0 <= d < 256 ^ Z.of_nat n)
                 \/ (d < 0 \/ 256 ^ Z.of_nat n <= d)) by lia.
    assert (Hr : (0 <= r < 256 ^ Z.of_nat n)
                 \/ (r < 0 \/ 256 ^ Z.of_nat n <= r)) by lia.
    destruct Hd as [Hd|Hd].
    - rewrite (int_to_bytes_fits d) by exact Hd. destruct Hr as [Hr|Hr].
      + rewrite (int_to_bytes_fits r) by exact Hr. split.
        * split; [discriminate|]. intros Hn. exfalso. apply Hn. split; assumption.
        * discriminate.
      + rewrite (int_to_bytes_overflow r) by exact Hr. split.
        * split; [intros _ [_ H]; lia|reflexivity].
        * intros e [= <-]. reflexivity.
    - rewrite (int_to_bytes_overflow d) by exact Hd. split.
      + split; [intros _ [H _]; lia|reflexivity].
      + intros e [= <-]. reflexivity. }
  split; intros [d r]; cbv zeta.
  - exact (Hcases 4%nat d r).
  - exact (Hcases 8%nat d r).
Qed.

(** ** Length-prefixed strings *)

(** [MINIDUMP_STRING.get_from_rva] for an offset that is not negative,
    whatever the codec does: the result is the decoding of the bytes that
    follow the four-byte length at [rva], as many as the length says (or
    as the file has left), and the file object is as it was before the
    call, also when the codec raises. *)
Theorem minidump_string_get_from_rva :
  forall (str : Type) (decode_utf_16_le : bytes -> result str)
         (rva : Z) (fh : FileHandler),
    0 <= rva ->
    let avail := skipn (Z.to_nat rva) (contents fh) in
    let length := int_from_bytes (firstn 4 avail) in
    MINIDUMP_STRING.get_from_rva decode_utf_16_le rva fh
    = (decode_utf_16_le (firstn (Z.to_nat length) (skipn 4 avail)), fh)
    /\ forall payload rest,
        avail = le_digits 4 (len payload) ++ payload ++ rest ->
        len payload < 2 ^ 32 ->
        MINIDUMP_STRING.get_from_rva decode_utf_16_le rva fh
        = (decode_utf_16_le payload, fh).
Proof.
  intros str decode rva [c p] Hrva avail length.
  assert (Hget : MINIDUMP_STRING.get_from_rva decode rva (mkFile c p)
                 = (decode (firstn (Z.to_nat length) (skipn 4 avail)),
                    mkFile c p)).
  { unfold MINIDUMP_STRING.get_from_rva, MINIDUMP_STRING.parse.
    unfold bind, tell. cbn [position contents].
    rewrite seek_ok by exact Hrva. cbn [contents].
    rewrite read_total. cbn [position contents].
    change (4 <? 0) with false. cbv iota.
    change (Z.to_nat 4) with 4%nat.
    rewrite read_total. cbn [position contents].
    rewrite skipn_after_read.
    unfold ret. cbn [MINIDUMP_STRING.Buffer].
    rewrite seek_back. unfold lift, length, avail. cbn [contents].
    pose proof (int_from_bytes_nonneg (firstn 4 (skipn (Z.to_nat rva) c))).
    destruct (Z.ltb_spec (int_from_bytes (firstn 4 (skipn (Z.to_nat rva) c))) 0);
      [lia|reflexivity]. }
  split; [exact Hget|].
  intros payload rest Havail Hlen. rewrite Hget. f_equal. f_equal.
  assert (H4 : List.length (le_digits 4 (len payload)) = 4%nat)
    by apply length_le_digits.
  assert (Hfirst : firstn 4 avail = le_digits 4 (len payload)).
  { rewrite Havail, firstn_app, H4, firstn_all2 by lia.
    rewrite Nat.sub_diag. apply app_nil_r. }
  assert (Hskip : skipn 4 avail = payload ++ rest).
  { rewrite Havail, skipn_app, H4, skipn_all2 by lia.
    rewrite Nat.sub_diag. reflexivity. }
  unfold length. rewrite Hfirst, Hskip.
  rewrite int_from_to_bytes
    by (change (256 ^ Z.of_nat 4) with (2 ^ 32); unfold len in *; lia).
  unfold len. rewrite Nat2Z.id.
  rewrite firstn_app, Nat.sub_diag, firstn_all. cbn [firstn].
  apply app_nil_r.
Qed.

Lemma minidump_string_get_from_rva_witness :
  let fh := mkFile (b "xx" ++ le_digits 4 3 ++ b "abc" ++ b "yy") 11 in
  (0 <= 2
   /\ skipn (Z.to_nat 2) (contents fh)
      = le_digits 4 (len (b "abc")) ++ b "abc" ++ b "yy"
   /\ len (b "abc") < 2 ^ 32)
  /\ MINIDUMP_STRING.get_from_rva (fun bs => Ok bs) 2 fh = (Ok (b "abc"), fh).
Proof.
  intros fh.
  assert (H1 : 0 <= 2) by lia.
  assert (H2 : skipn (Z.to_nat 2) (contents fh)
               = le_digits 4 (len (b "abc")) ++ b "abc" ++ b "yy")
    by reflexivity.
  assert (H3 : len (b "abc") < 2 ^ 32) by (cbn; lia).
  split; [auto|].
  exact (proj2 (minidump_string_get_from_rva bytes (fun bs => Ok bs) 2 fh H1)
               (b "abc") (b "yy") H2 H3).
Defined.

(** ** constants.py: the stream types and the dump flags *)

(** Looking a stream type up by its value gives the member back: no two
    members share a value. A lookup that succeeds gives a member with that
    value, and a value no member has (23, for one) raises [ValueError]. *)
Theorem stream_type_lookup :
  (forall m, MINIDUMP_STREAM_TYPE.of_value (MINIDUMP_STREAM_TYPE.value m) = Ok m)
  /\ (forall v m, MINIDUMP_STREAM_TYPE.of_value v = Ok m ->
                  MINIDUMP_STREAM_TYPE.value m = v)
  /\ (forall v, (forall m, MINIDUMP_STREAM_TYPE.value m <> v) ->
                MINIDUMP_STREAM_TYPE.of_value v = Raise ValueError)
  /\ MINIDUMP_STREAM_TYPE.of_value 23 = Raise ValueError.
Proof.
  split; [|split; [|split]].
  - intros m. destruct m; reflexivity.
  - intros v m. unfold MINIDUMP_STREAM_TYPE.of_value.
    destruct (List.find (fun m0 => MINIDUMP_STREAM_TYPE.value m0 =? v)
                        MINIDUMP_STREAM_TYPE.members) as [m'|] eqn:E;
      [|discriminate].
    intros [= <-]. apply find_some in E. destruct E as [_ E].
    apply Z.eqb_eq. exact E.
  - intros v Hnone. unfold MINIDUMP_STREAM_TYPE.of_value.
    destruct (List.find (fun m0 => MINIDUMP_STREAM_TYPE.value m0 =? v)
                        MINIDUMP_STREAM_TYPE.members) as [m'|] eqn:E;
      [|reflexivity].
    apply find_some in E. destruct E as [_ E]. apply Z.eqb_eq in E.
    exfalso. exact (Hnone m' E).
  - reflexivity.
Qed.

Lemma stream_type_lookup_witness :
  MINIDUMP_STREAM_TYPE.of_value 9 = Ok MINIDUMP_STREAM_TYPE.Memory64ListStream
  /\ MINIDUMP_STREAM_TYPE.value MINIDUMP_STREAM_TYPE.Memory64ListStream = 9.
Proof.
  assert (H : MINIDUMP_STREAM_TYPE.of_value 9
              = Ok MINIDUMP_STREAM_TYPE.Memory64ListStream) by reflexivity.
  split; [exact H|].
  exact (proj1 (proj2 stream_type_lookup) 9 _ H).
Defined.

(** The dump flags: [MiniDumpValidTypeFlags] is the bitwise or of all
    other flags, every flag is contained in it, and two different flags
    other than it have no bit in common. *)
Theorem dump_type_flags :
  fold_right Z.lor 0
    (map MINIDUMP_TYPE.value (removelast MINIDUMP_TYPE.members))
  = MINIDUMP_TYPE.value MINIDUMP_TYPE.MiniDumpValidTypeFlags
  /\ (forall f,
         Z.land (MINIDUMP_TYPE.value f)
                (MINIDUMP_TYPE.value MINIDUMP_TYPE.MiniDumpValidTypeFlags)
         = MINIDUMP_TYPE.value f)
  /\ (forall f g,
         f <> g ->
         f <> MINIDUMP_TYPE.MiniDumpValidTypeFlags ->
         g <> MINIDUMP_TYPE.MiniDumpValidTypeFlags ->
         Z.land (MINIDUMP_TYPE.value f) (MINIDUMP_TYPE.value g) = 0).
Proof.
  split; [reflexivity|]. split.
  - intros f. destruct f; reflexivity.
  - intros f g Hfg Hf Hg.
    destruct f; try (exfalso; apply Hf; reflexivity);
      destruct g; try (exfalso; apply Hg; reflexivity);
        try (exfalso; apply Hfg; reflexivity); reflexivity.
Qed.

Lemma dump_type_flags_witness :
  MINIDUMP_TYPE.MiniDumpWithFullMemory <> MINIDUMP_TYPE.MiniDumpWithHandleData
  /\ Z.land (MINIDUMP_TYPE.value MINIDUMP_TYPE.MiniDumpWithFullMemory)
            (MINIDUMP_TYPE.value MINIDUMP_TYPE.MiniDumpWithHandleData) = 0.
Proof.
  assert (H1 : MINIDUMP_TYPE.MiniDumpWithFullMemory
               <> MINIDUMP_TYPE.MiniDumpWithHandleData) by discriminate.
  assert (H2 : MINIDUMP_TYPE.MiniDumpWithFullMemory
               <> MINIDUMP_TYPE.MiniDumpValidTypeFlags) by discriminate.
  assert (H3 : MINIDUMP_TYPE.MiniDumpWithHandleData
               <> MINIDUMP_TYPE.MiniDumpValidTypeFlags) by discriminate.
  split; [exact H1|].
  exact (proj2 (proj2 dump_type_flags) _ _ H1 H2 H3).
Defined.

(** ** The rows of the segment table *)

(** A row has as many cells as the header, and it shows the start
    address, the file offset and the size without loss: each cell reads
    back as the field it shows, so two segments with the same row have
    the same start address, file offset and size. *)
Theorem segment_row_faithful :
  forall s : MinidumpMemorySegment.t,
    length (SegmentTable.to_row s) = length SegmentTable.get_header
    /\ map HexString.to_Z (SegmentTable.to_row s)
       = [MinidumpMemorySegment.start_virtual_address s;
          MinidumpMemorySegment.start_file_address s;
          MinidumpMemorySegment.size s]
    /\ forall s',
        SegmentTable.to_row s = SegmentTable.to_row s' ->
        MinidumpMemorySegment.start_virtual_address s
        = MinidumpMemorySegment.start_virtual_address s'
        /\ MinidumpMemorySegment.start_file_address s
           = MinidumpMemorySegment.start_file_address s'
        /\ MinidumpMemorySegment.size s = MinidumpMemorySegment.size s'.
Proof.
  intros s.
  assert (Hback : forall x, map HexString.to_Z (SegmentTable.to_row x)
                            = [MinidumpMemorySegment.start_virtual_address x;
                               MinidumpMemorySegment.start_file_address x;
                               MinidumpMemorySegment.size x]).
  { intros x. unfold SegmentTable.to_row, SegmentTable.hex. cbn [map].
    rewrite !HexString.to_Z_of_Z. reflexivity. }
  split; [reflexivity|]. split; [apply Hback|].
  intros s' Hrow. apply (f_equal (map HexString.to_Z)) in Hrow.
  rewrite !Hback in Hrow. injection Hrow as H1 H2 H3. auto.
Qed.

Lemma segment_row_faithful_witness :
  let s := MinidumpMemorySegment.init 16 512 4096 in
  let s' := MinidumpMemorySegment.mk 16 512 4096 0 in
  SegmentTable.to_row s = SegmentTable.to_row s'
  /\ SegmentTable.to_row s = ["0x1000"%string; "0x200"%string; "0x10"%string]
  /\ MinidumpMemorySegment.size s = MinidumpMemorySegment.size s'.
Proof.
  intros s s'.
  assert (H : SegmentTable.to_row s = SegmentTable.to_row s') by reflexivity.
  split; [exact H|]. split; [reflexivity|].
  exact (proj2 (proj2 (proj2 (proj2 (segment_row_faithful s)) s' H))).
Defined.

(** ** construct_table *)

Section TableWidths.
Import Table.
Local Open Scope nat_scope.

Lemma string_length_append (s t : string) :
  String.length (s ++ t) = String.length s + String.length t.
Proof. induction s as [|c s IH]; cbn; [reflexivity|]. rewrite IH. reflexivity. Qed.

Lemma string_append_assoc (s t u : string) :
  ((s ++ t) ++ u = s ++ (t ++ u))%string.
Proof. induction s as [|c s IH]; cbn; [reflexivity|]. rewrite IH. reflexivity. Qed.

Lemma string_append_nil_r (s : string) : (s ++ "" = s)%string.
Proof. induction s as [|c s IH]; cbn; [reflexivity|]. rewrite IH. reflexivity. Qed.

Lemma length_replicate (n : nat) (c : ascii) :
  String.length (replicate n c) = n.
Proof. induction n as [|n IH]; cbn; [reflexivity|]. rewrite IH. reflexivity. Qed.

Lemma length_pad (cell : string) (width : nat) :
  String.length (pad cell width) = Nat.max (String.length cell) width.
Proof.
  unfold pad. rewrite string_length_append, length_replicate. lia.
Qed.

Lemma length_extend (widths : list nat) (i : nat) :
  length (extend widths i) = Nat.max (length widths) (S i).
Proof. unfold extend. rewrite length_app, repeat_length. lia. Qed.

Lemma nth_extend (widths : list nat) (i j : nat) :
  nth j (extend widths i) 0 = nth j widths 0.
Proof.
  unfold extend. destruct (Nat.lt_ge_cases j (length widths)) as [H|H].
  - apply app_nth1. exact H.
  - rewrite app_nth2 by exact H. rewrite nth_repeat.
    symmetry. apply nth_overflow. exact H.
Qed.

Lemma length_set_nth (widths : list nat) (i size : nat) :
  length (set_nth widths i size) = length widths.
Proof.
  revert i. induction widths as [|w rest IH]; intros i; [reflexivity|].
  destruct i; cbn [set_nth length]; [reflexivity|]. rewrite IH. reflexivity.
Qed.

Lemma nth_set_nth (widths : list nat) (i size j : nat) :
  i < length widths ->
  nth j (set_nth widths i size) 0 = if j =? i then size else nth j widths 0.
Proof.
  revert i j. induction widths as [|w rest IH]; intros i j Hi;
    [cbn in Hi; lia|].
  destruct i as [|i]; destruct j as [|j]; cbn [set_nth nth Nat.eqb];
    try reflexivity.
  apply IH. cbn [length] in Hi. lia.
Qed.

(** One size noted: the list reaches index [i], and holds there the
    larger of the size and what it held. *)
Lemma note_size_spec (widths : list nat) (i size : nat) :
  length (note_size widths i size) = Nat.max (length widths) (S i)
  /\ forall j, nth j (note_size widths i size) 0
               = if j =? i then Nat.max (nth i widths 0) size
                 else nth j widths 0.
Proof.
  unfold note_size. cbv zeta. rewrite nth_extend.
  destruct (Nat.ltb_spec (nth i widths 0) size) as [H|H].
  - split; [rewrite length_set_nth; apply length_extend|].
    intros j. rewrite nth_set_nth by (rewrite length_extend; lia).
    rewrite nth_extend. destruct (j =? i); [lia|reflexivity].
  - split; [apply length_extend|].
    intros j. rewrite nth_extend.
    destruct (Nat.eqb_spec j i) as [->|_]; [lia|reflexivity].
Qed.

(** A line noted from index [i] on. *)
Lemma note_line_spec (sizes : list nat) :
  forall (widths : list nat) (i : nat),
    length (note_line widths i sizes)
    = match sizes with
      | [] => length widths
      | _ :: _ => Nat.max (length widths) (i + length sizes)
      end
    /\ forall j, nth j (note_line widths i sizes) 0
                 = if (i <=? j) && (j <? i + length sizes)
                   then Nat.max (nth j widths 0) (nth (j - i) sizes 0)
                   else nth j widths 0.
Proof.
  induction sizes as [|size rest IH]; intros widths i.
  - cbn [note_line length]. split; [reflexivity|]. intros j.
    rewrite Nat.add_0_r.
    destruct (Nat.leb_spec i j), (Nat.ltb_spec j i); cbn [andb];
      try reflexivity; lia.
  - cbn [note_line length].
    destruct (IH (note_size widths i size) (S i)) as [Hlen Hnth].
    destruct (note_size_spec widths i size) as [Hlen1 Hnth1].
    split.
    + rewrite Hlen, Hlen1. destruct rest; cbn [length]; lia.
    + intros j. rewrite Hnth, Hnth1.
      destruct (Nat.leb_spec (S i) j), (Nat.ltb_spec j (S i + length rest)),
        (Nat.leb_spec i j), (Nat.ltb_spec j (i + S (length rest))),
        (Nat.eqb_spec j i); cbn [andb]; try lia; try reflexivity.
      * replace (j - i) with (S (j - S i)) by lia. reflexivity.
      * subst j. rewrite Nat.sub_diag. reflexivity.
Qed.

(** The widths after all lines: every cell fits its column, every line
    fits the list, and the list is as long as one of the lines, or as it
    was. *)
Lemma fold_widths_spec (lines : list (list string)) :
  forall widths0 : list nat,
    let widths :=
      fold_left (fun widths line =>
                   note_line widths 0 (map String.length line))
                lines widths0 in
    (forall j, nth j widths0 0 <= nth j widths 0)
    /\ length widths0 <= length widths
    /\ (forall line, In line lines ->
                     length line <= length widths
                     /\ forall j cell,
                         nth_error line j = Some cell ->
                         String.length cell <= nth j widths 0)
    /\ (length widths = length widths0
        \/ exists line, In line lines /\ length widths = length line).
Proof.
  induction lines as [|line rest IH]; intros widths0; cbn [fold_left].
  - split; [reflexivity|]. split; [reflexivity|]. split; [intros l []|].
    left. reflexivity.
  - destruct (note_line_spec (map String.length line) widths0 0)
      as [Hlen Hnth].
    destruct (IH (note_line widths0 0 (map String.length line)))
      as (Hmono & Hgrow & Hfit & Hfrom).
    assert (Hstep : forall j,
               nth j widths0 0
               <= nth j (note_line widths0 0 (map String.length line)) 0).
    { intros j. rewrite Hnth. destruct (_ && _); lia. }
    assert (Hlen' : length widths0
                    <= length (note_line widths0 0 (map String.length line))
                    /\ length line
                       <= length (note_line widths0 0 (map String.length line))).
    { rewrite Hlen. clear. destruct line as [|c cs]; [cbn; lia|].
      change (map String.length (c :: cs))
        with (String.length c :: map String.length cs).
      cbn [length]. pose proof (length_map String.length cs). lia. }
    split; [intros j; etransitivity; [apply Hstep|apply Hmono]|].
    split; [lia|]. split.
    + intros l [<-|Hin]; [|apply Hfit; exact Hin]. split; [lia|].
      intros j cell Hcell. etransitivity; [|apply Hmono].
      rewrite Hnth. cbn [Nat.leb andb Nat.add]. rewrite length_map.
      assert (Hj : j < length line)
        by (apply nth_error_Some; rewrite Hcell; discriminate).
      destruct (Nat.ltb_spec j (length line)); [|lia].
      rewrite Nat.sub_0_r.
      rewrite (nth_indep (map String.length line) 0 (String.length ""%string))
        by (rewrite length_map; exact Hj).
      rewrite map_nth. rewrite (nth_error_nth _ _ _ Hcell). lia.
    + destruct Hfrom as [Heq|(l & Hin & Heq)].
      * rewrite Heq, Hlen. destruct line as [|c cs] eqn:E.
        -- left. reflexivity.
        -- cbn [map length] in *. rewrite length_map.
           destruct (Nat.le_gt_cases (length widths0) (S (length cs))).
           ++ right. exists (c :: cs). split; [left; reflexivity|].
              cbn [length]. lia.
           ++ left. lia.
      * right. exists l. split; [right; exact Hin|exact Heq].
Qed.

End TableWidths.

Section TableRows.
Import Table.
Local Open Scope nat_scope.

Lemma skipn_nth_error {A : Type} (l : list A) (i : nat) (x : A) :
  nth_error l i = Some x -> skipn i l = x :: skipn (S i) l.
Proof.
  revert i. induction l as [|y l IH]; intros i H; [destruct i; discriminate|].
  destruct i as [|i]; [cbn in H; injection H as ->; reflexivity|].
  cbn [nth_error] in H. cbn [skipn]. apply IH. exact H.
Qed.

Lemma build_print_string_nonempty (i : nat) (widths : list nat) :
  widths <> [] -> build_print_string i widths <> [].
Proof. destruct widths; [contradiction|discriminate]. Qed.

(** A line with a cell for every column is formatted as a row. *)
Lemma format_row (widths : list nat) :
  widths <> [] ->
  forall (i : nat) (line : list string),
    i + length widths <= length line ->
    format (removelast (build_print_string i widths)) line
    = Returns (table_row widths (skipn i line)).
Proof.
  induction widths as [|w rest IH]; [contradiction|]. intros _ i line Hlen.
  cbn [length] in Hlen.
  destruct (nth_error line i) as [cell|] eqn:Hcell.
  2:{ apply nth_error_None in Hcell. lia. }
  rewrite (skipn_nth_error _ _ _ Hcell).
  destruct rest as [|w2 rest].
  - cbn [build_print_string removelast format]. rewrite Hcell.
    unfold table_row. cbn [combine map String.concat fst snd].
    destruct (skipn (S i) line); cbn [combine map String.concat];
      rewrite string_append_nil_r; reflexivity.
  - assert (Hne : w2 :: rest <> []) by discriminate.
    change (build_print_string i (w :: w2 :: rest))
      with ([Field i w; Literal " | "]
              ++ build_print_string (S i) (w2 :: rest)).
    rewrite removelast_app by (apply build_print_string_nonempty; exact Hne).
    cbn [app format]. rewrite Hcell.
    rewrite (IH Hne (S i) line) by (cbn [length] in *; lia).
    destruct (nth_error line (S i)) as [cell2|] eqn:Hcell2.
    2:{ apply nth_error_None in Hcell2. cbn [length] in Hlen. lia. }
    rewrite (skipn_nth_error _ _ _ Hcell2).
    unfold table_row. cbn [combine map String.concat fst snd]. reflexivity.
Qed.

(** A line with fewer cells than there are columns is not. *)
Lemma format_short (widths : list nat) :
  widths <> [] ->
  forall (i : nat) (line : list string),
    length line < i + length widths ->
    format (removelast (build_print_string i widths)) line = Raises IndexError.
Proof.
  induction widths as [|w rest IH]; [contradiction|]. intros _ i line Hlen.
  cbn [length] in Hlen.
  destruct rest as [|w2 rest].
  - cbn [build_print_string removelast format].
    destruct (nth_error line i) as [cell|] eqn:Hcell; [|reflexivity].
    assert (i < length line) by (apply nth_error_Some; congruence).
    cbn [length] in Hlen. lia.
  - assert (Hne : w2 :: rest <> []) by discriminate.
    change (build_print_string i (w :: w2 :: rest))
      with ([Field i w; Literal " | "]
              ++ build_print_string (S i) (w2 :: rest)).
    rewrite removelast_app by (apply build_print_string_nonempty; exact Hne).
    cbn [app format].
    destruct (nth_error line i) as [cell|]; [|reflexivity].
    rewrite (IH Hne (S i) line) by (cbn [length] in *; lia). reflexivity.
Qed.

(** A row whose cells fit their columns is as long as the columns and the
    separators together. *)
Lemma length_table_row (widths : list nat) :
  forall line : list string,
    length line = length widths ->
    (forall j cell, nth_error line j = Some cell ->
                    String.length cell <= nth j widths 0) ->
    widths <> [] ->
    String.length (table_row widths line)
    = list_sum widths + 3 * (length widths - 1).
Proof.
  induction widths as [|w rest IH]; [contradiction|].
  intros [|cell cells] Hlen Hfit _; [discriminate Hlen|].
  assert (Hcell : String.length (pad cell w) = w).
  { rewrite length_pad. specialize (Hfit 0 cell eq_refl). cbn in Hfit. lia. }
  destruct rest as [|w2 rest].
  - destruct cells; [|discriminate Hlen].
    unfold table_row. cbn [combine map String.concat fst snd length].
    unfold list_sum. cbn [fold_right]. rewrite Hcell. lia.
  - destruct cells as [|cell2 cells]; [discriminate Hlen|].
    assert (IH' : String.length (table_row (w2 :: rest) (cell2 :: cells))
                  = list_sum (w2 :: rest) + 3 * (length (w2 :: rest) - 1)).
    { apply IH; [cbn [length] in *; lia| |discriminate].
      intros j c Hc. exact (Hfit (S j) c Hc). }
    unfold table_row in *.
    cbn [combine map String.concat fst snd] in *.
    rewrite !string_length_append, Hcell.
    cbn [combine map String.concat fst snd] in IH'. rewrite IH'.
    unfold list_sum. cbn [fold_right length String.length]. lia.
Qed.

Lemma unlines_cons (r : string) (rs : list string) :
  unlines (r :: rs) = (r ++ newline ++ unlines rs)%string.
Proof.
  unfold unlines. cbn [map String.concat].
  destruct (map (fun r0 => (r0 ++ newline)%string) rs) as [|x xs].
  - cbn [String.concat]. rewrite string_append_nil_r. reflexivity.
  - cbn [append]. rewrite string_append_assoc. reflexivity.
Qed.

(** The last loop on lines that all format: the rows, with the rule after
    the first one when the loop starts at 0 and a rule is asked for. *)
Lemma rows_loop_rows (print_string : list piece) (widths : list nat)
      (separate_head : bool) (row : list string -> string) :
  forall (lines : list (list string)) (i : nat) (t : string),
    (forall line, In line lines -> format print_string line = Returns (row line)) ->
    rows_loop print_string widths separate_head i lines t
    = Returns
        (t ++ unlines
                (if (i =? 0)%nat
                 then with_rule separate_head
                        (replicate (list_sum widths + 3 * (length widths - 1))
                                   "-"%char)
                        (map row lines)
                 else map row lines))%string.
Proof.
  assert (Hlater : forall lines i t,
             (forall line, In line lines ->
                           format print_string line = Returns (row line)) ->
             rows_loop print_string widths separate_head (S i) lines t
             = Returns (t ++ unlines (map row lines))%string).
  { induction lines as [|line rest IH]; intros i t Hall.
    - cbn. rewrite string_append_nil_r. reflexivity.
    - cbn [rows_loop]. rewrite (Hall line (or_introl eq_refl)).
      cbn [Nat.eqb andb]. rewrite IH by (intros l Hl; apply Hall; right; exact Hl).
      cbn [map]. rewrite unlines_cons, !string_append_assoc. reflexivity. }
  intros lines i t Hall. destruct i as [|i]; [|apply Hlater; exact Hall].
  destruct lines as [|line rest].
  - cbn. rewrite string_append_nil_r. reflexivity.
  - cbn [rows_loop]. rewrite (Hall line (or_introl eq_refl)).
    cbn [Nat.eqb andb map with_rule].
    rewrite Hlater by (intros l Hl; apply Hall; right; exact Hl).
    destruct separate_head; rewrite !unlines_cons, !string_append_assoc;
      reflexivity.
Qed.

(** The last loop on lines of which one does not format. *)
Lemma rows_loop_raises (print_string : list piece) (widths : list nat)
      (separate_head : bool) :
  forall (lines : list (list string)) (i : nat) (t : string),
    (forall line, In line lines ->
                  (exists r, format print_string line = Returns r)
                  \/ format print_string line = Raises IndexError) ->
    (exists line, In line lines
                  /\ format print_string line = Raises IndexError) ->
    rows_loop print_string widths separate_head i lines t = Raises IndexError.
Proof.
  induction lines as [|line rest IH]; intros i t Hall (bad & Hin & Hbad).
  - destruct Hin.
  - cbn [rows_loop].
    destruct (Hall line (or_introl eq_refl)) as [[r Hr]|Hr];
      rewrite Hr; [|reflexivity].
    apply IH; [intros l Hl; apply Hall; right; exact Hl|].
    destruct Hin as [<-|Hin]; [congruence|].
    exists bad. split; assumption.
Qed.

End TableRows.

Section TableCases.
Import Table.
Local Open Scope nat_scope.

Lemma construct_table_some (lines : list (list string)) (separate_head : bool) :
  count_widths lines <> [] ->
  construct_table lines separate_head
  = match rows_loop (removelast (build_print_string 0 (count_widths lines)))
                    (count_widths lines) separate_head 0 lines "" with
    | Raises e => Raises e
    | Returns t => Returns (Some t)
    end.
Proof.
  unfold construct_table. destruct (count_widths lines); [contradiction|].
  reflexivity.
Qed.

Lemma construct_table_none (lines : list (list string)) (separate_head : bool) :
  count_widths lines = [] ->
  construct_table lines separate_head = Returns None.
Proof. unfold construct_table. intros ->. reflexivity. Qed.

(** A width is the length of a cell of its column, or what it was. *)
Lemma fold_widths_tight (lines : list (list string)) :
  forall (widths0 : list nat) (j : nat),
    let widths :=
      fold_left (fun widths line =>
                   note_line widths 0 (map String.length line))
                lines widths0 in
    nth j widths 0 = nth j widths0 0
    \/ exists line cell,
        In line lines /\ nth_error line j = Some cell
        /\ nth j widths 0 = String.length cell.
Proof.
  induction lines as [|line rest IH]; intros widths0 j; cbn [fold_left].
  - left. reflexivity.
  - destruct (IH (note_line widths0 0 (map String.length line)) j)
      as [Heq|(l & cell & Hin & Hcell & Heq)].
    + rewrite Heq.
      destruct (note_line_spec (map String.length line) widths0 0) as [_ Hnth].
      rewrite Hnth. cbn [Nat.leb andb Nat.add]. rewrite length_map.
      destruct (Nat.ltb_spec j (length line)) as [Hj|Hj]; [|left; reflexivity].
      destruct (nth_error line j) as [cell|] eqn:Hcell.
      2:{ apply nth_error_None in Hcell. lia. }
      rewrite Nat.sub_0_r.
      rewrite (nth_indep (map String.length line) 0 (String.length ""%string))
        by (rewrite length_map; exact Hj).
      rewrite map_nth, (nth_error_nth _ _ _ Hcell).
      destruct (Nat.le_gt_cases (String.length cell) (nth j widths0 0)).
      * left. lia.
      * right. exists line, cell. split; [left; reflexivity|].
        split; [exact Hcell|lia].
    + right. exists l, cell. split; [right; exact Hin|]. split; assumption.
Qed.

(** The table of lines that all have [n >= 1] cells. *)
Lemma construct_table_uniform (lines : list (list string))
      (separate_head : bool) (n : nat) :
  lines <> [] -> 1 <= n -> Forall (fun line => length line = n) lines ->
  length (count_widths lines) = n
  /\ (forall line j cell,
         In line lines -> nth_error line j = Some cell ->
         String.length cell <= nth j (count_widths lines) 0)
  /\ construct_table lines separate_head
     = Returns
         (Some (unlines
                  (with_rule separate_head
                     (replicate (list_sum (count_widths lines) + 3 * (n - 1))
                                "-"%char)
                     (map (table_row (count_widths lines)) lines)))).
Proof.
  intros Hne Hn Hall.
  destruct (fold_widths_spec lines []) as (_ & _ & Hfit & Hfrom).
  fold (count_widths lines) in Hfit, Hfrom.
  assert (Hlen : length (count_widths lines) = n).
  { destruct lines as [|l0 rest]; [contradiction|].
    pose proof (proj1 (Hfit l0 (or_introl eq_refl))) as Hl0.
    rewrite Forall_forall in Hall.
    rewrite (Hall l0 (or_introl eq_refl)) in Hl0.
    destruct Hfrom as [H0|(l & Hin & Hl)]; [cbn [length] in H0; lia|].
    rewrite Hl. apply Hall. exact Hin. }
  split; [exact Hlen|]. split.
  - intros line j cell Hin Hcell. exact (proj2 (Hfit line Hin) j cell Hcell).
  - assert (Hw : count_widths lines <> [])
      by (intros H0; rewrite H0 in Hlen; cbn in Hlen; lia).
    rewrite construct_table_some by exact Hw.
    rewrite (rows_loop_rows _ _ _ (table_row (count_widths lines))).
    + cbn [Nat.eqb append]. rewrite Hlen. reflexivity.
    + intros line Hin. rewrite Forall_forall in Hall.
      rewrite (format_row _ Hw 0 line) by (rewrite Hlen, (Hall line Hin); lia).
      reflexivity.
Qed.

End TableCases.

(** [construct_table] on lines that all have the same number [n >= 1] of
    cells returns a text: the lines as rows, each followed by a newline,
    with a rule of dashes after the first row when [separate_head] is set.
    There are [n] columns; the width of a column is the length of its
    longest cell; in a row every cell is filled with spaces up to the
    width of its column and the cells are joined by [" | "]. So all rows
    and the rule have the same length, the sum of the widths plus
    [3 * (n - 1)]. *)
Theorem construct_table_rectangular :
  forall (lines : list (list string)) (separate_head : bool) (n : nat),
    lines <> [] -> (1 <= n)%nat ->
    Forall (fun line => length line = n) lines ->
    let widths := Table.count_widths lines in
    let total := (list_sum widths + 3 * (n - 1))%nat in
    let rows := with_rule separate_head (Table.replicate total "-"%char)
                          (map (table_row widths) lines) in
    Table.construct_table lines separate_head
    = Table.Returns (Some (unlines rows))
    /\ length widths = n
    /\ (forall line j cell,
           In line lines -> nth_error line j = Some cell ->
           (String.length cell <= nth j widths 0)%nat)
    /\ (forall j, (j < n)%nat ->
                  exists line cell,
                    In line lines /\ nth_error line j = Some cell
                    /\ nth j widths 0%nat = String.length cell)
    /\ Forall (fun row => String.length row = total) rows.
Proof.
  intros lines separate_head n Hne Hn Hall widths total rows.
  destruct (construct_table_uniform lines separate_head n Hne Hn Hall)
    as (Hlen & Hfit & Htable).
  fold widths in Hlen, Hfit, Htable.
  split; [exact Htable|]. split; [exact Hlen|]. split; [exact Hfit|].
  assert (Hrows : Forall (fun row => String.length row = total)
                         (map (table_row widths) lines)).
  { apply Forall_map. rewrite Forall_forall in *. intros line Hin.
    unfold total. rewrite <- Hlen.
    apply length_table_row.
    - rewrite Hlen. apply Hall. exact Hin.
    - intros j cell Hcell. exact (Hfit line j cell Hin Hcell).
    - intros H0. rewrite H0 in Hlen. cbn in Hlen. lia. }
  split.
  - intros j Hj.
    destruct (fold_widths_tight lines [] j) as [H0|H]; [|exact H].
    fold (Table.count_widths lines) in H0. fold widths in H0.
    destruct lines as [|l0 rest]; [contradiction|].
    rewrite Forall_forall in Hall.
    pose proof (Hall l0 (or_introl eq_refl)) as Hl0.
    destruct (nth_error l0 j) as [cell|] eqn:Hcell.
    2:{ apply nth_error_None in Hcell. lia. }
    exists l0, cell. split; [left; reflexivity|]. split; [exact Hcell|].
    pose proof (Hfit l0 j cell (or_introl eq_refl) Hcell) as Hle.
    rewrite H0 in Hle |- *. destruct j; cbn [nth] in Hle |- *; lia.
  - unfold rows. destruct (map (table_row widths) lines) as [|r0 rs] eqn:E;
      [constructor|].
    cbn [with_rule]. destruct separate_head; [|exact Hrows].
    inversion Hrows; subst. constructor; [assumption|].
    constructor; [apply length_replicate|assumption].
Qed.

Lemma construct_table_rectangular_witness :
  let lines := [["VA Start"; "RVA"; "Size"]; ["0x1000"; "0x200"; "0x10"]]%string in
  Forall (fun line => length line = 3%nat) lines
  /\ Table.count_widths lines = [8; 5; 4]%nat
  /\ Table.construct_table lines true
     = Table.Returns
         (Some ("VA Start | RVA   | Size" ++ Table.newline
                ++ "-----------------------" ++ Table.newline
                ++ "0x1000   | 0x200 | 0x10" ++ Table.newline)%string).
Proof.
  intros lines.
  assert (Hne : lines <> []) by discriminate.
  assert (Hn : (1 <= 3)%nat) by lia.
  assert (Hall : Forall (fun line => length line = 3%nat) lines)
    by (repeat constructor).
  split; [exact Hall|]. split; [reflexivity|].
  exact (proj1 (construct_table_rectangular lines true 3%nat Hne Hn Hall)).
Defined.

Section TableOutcomes.
Import Table.
Local Open Scope nat_scope.

Lemma count_widths_fits (lines : list (list string)) (line : list string) :
  In line lines -> length line <= length (count_widths lines).
Proof.
  intros Hin.
  destruct (fold_widths_spec lines []) as (_ & _ & Hfit & _).
  exact (proj1 (Hfit line Hin)).
Qed.

Lemma count_widths_nil (lines : list (list string)) :
  count_widths lines = [] <-> Forall (fun line => line = []) lines.
Proof.
  split.
  - intros H0. apply Forall_forall. intros line Hin.
    pose proof (count_widths_fits lines line Hin) as Hle.
    rewrite H0 in Hle. destruct line; [reflexivity|cbn in Hle; lia].
  - intros Hall. rewrite Forall_forall in Hall.
    destruct (fold_widths_spec lines []) as (_ & _ & _ & Hfrom).
    fold (count_widths lines) in Hfrom.
    destruct Hfrom as [H0|(line & Hin & Hl)].
    + destruct (count_widths lines); [reflexivity|discriminate].
    + rewrite (Hall line Hin) in Hl.
      destruct (count_widths lines); [reflexivity|discriminate].
Qed.

Lemma construct_table_ragged (lines : list (list string))
      (separate_head : bool) (l1 l2 : list string) :
  In l1 lines -> In l2 lines -> length l1 < length l2 ->
  construct_table lines separate_head = Raises IndexError.
Proof.
  intros H1 H2 Hlt.
  pose proof (count_widths_fits lines l2 H2) as Hl2.
  assert (Hw : count_widths lines <> [])
    by (intros H0; rewrite H0 in Hl2; cbn in Hl2; lia).
  rewrite construct_table_some by exact Hw.
  rewrite rows_loop_raises; [reflexivity| |].
  - intros line Hin.
    pose proof (count_widths_fits lines line Hin) as Hle.
    destruct (Nat.eq_dec (length line) (length (count_widths lines))) as [E|E].
    + left. eexists. apply (format_row _ Hw 0 line). lia.
    + right. apply (format_short _ Hw 0 line). lia.
  - exists l1. split; [exact H1|]. apply (format_short _ Hw 0 l1). lia.
Qed.

Lemma same_length_or_not (lines : list (list string)) (n : nat) :
  Forall (fun line => length line = n) lines
  \/ exists line, In line lines /\ length line <> n.
Proof.
  induction lines as [|l rest IH]; [left; constructor|].
  destruct (Nat.eq_dec (length l) n) as [E|E].
  - destruct IH as [IH|(line & Hin & Hl)].
    + left. constructor; assumption.
    + right. exists line. split; [right; exact Hin|exact Hl].
  - right. exists l. split; [left; reflexivity|exact E].
Qed.

End TableOutcomes.

(** The three outcomes of [construct_table]. It returns [None] exactly
    when no line has a cell (also when there is no line at all). It
    raises [IndexError], from [str.format], exactly when two lines have
    different numbers of cells: the format string has one field per
    column of the longest line, and a shorter line has no argument for
    the last ones. In every other case it returns a text. *)
Theorem construct_table_outcomes :
  forall (lines : list (list string)) (separate_head : bool),
    (Table.construct_table lines separate_head = Table.Returns None
     <-> Forall (fun line => line = []) lines)
    /\ (Table.construct_table lines separate_head = Table.Raises Table.IndexError
        <-> exists l1 l2,
            In l1 lines /\ In l2 lines /\ (length l1 < length l2)%nat)
    /\ Table.construct_table lines separate_head
       <> Table.Raises Table.TypeError.
Proof.
  intros lines separate_head.
  assert (Hnone : Forall (fun line => line = []) lines ->
                  Table.construct_table lines separate_head
                  = Table.Returns None).
  { intros Hall. apply construct_table_none, count_widths_nil. exact Hall. }
  assert (Hcases :
            (exists l1 l2,
                In l1 lines /\ In l2 lines /\ (length l1 < length l2)%nat)
            \/ Forall (fun line => line = []) lines
            \/ exists t, Table.construct_table lines separate_head
                         = Table.Returns (Some t)).
  { destruct lines as [|l0 rest]; [right; left; constructor|].
    destruct (same_length_or_not (l0 :: rest) (length l0))
      as [Hall|(line & Hin & Hl)].
    - right. destruct (length l0) as [|k] eqn:E.
      + left. rewrite Forall_forall in *. intros line Hin.
        specialize (Hall line Hin). destruct line; [reflexivity|discriminate].
      + right. eexists.
        apply (construct_table_uniform (l0 :: rest) separate_head (S k));
          [discriminate|lia|exact Hall].
    - left. destruct (Nat.lt_ge_cases (length line) (length l0)) as [Hlt|Hge].
      + exists line, l0. split; [exact Hin|]. split; [left; reflexivity|exact Hlt].
      + exists l0, line. split; [left; reflexivity|]. split; [exact Hin|lia]. }
  split; [|split].
  - split; [|exact Hnone].
    intros Hret. apply count_widths_nil.
    destruct (Table.count_widths lines) as [|w ws] eqn:E; [reflexivity|].
    exfalso. rewrite construct_table_some in Hret by (rewrite E; discriminate).
    destruct (Table.rows_loop _ _ _ _ _ _); discriminate.
  - split.
    + intros Hraise.
      destruct Hcases as [Hpair|[Hall|(t & Ht)]]; [exact Hpair| |].
      * rewrite (Hnone Hall) in Hraise. discriminate.
      * rewrite Ht in Hraise. discriminate.
    + intros (l1 & l2 & H1 & H2 & Hlt).
      exact (construct_table_ragged lines separate_head l1 l2 H1 H2 Hlt).
  - destruct Hcases as [(l1 & l2 & H1 & H2 & Hlt)|[Hall|(t & Ht)]].
    + rewrite (construct_table_ragged lines separate_head l1 l2 H1 H2 Hlt).
      discriminate.
    + rewrite (Hnone Hall). discriminate.
    + rewrite Ht. discriminate.
Qed.

Lemma construct_table_outcomes_witness :
  Table.construct_table [["a"; "b"]; ["c"]]%string true
  = Table.Raises Table.IndexError
  /\ Table.construct_table [[]; []] true = Table.Returns None.
Proof.
  split.
  - apply (proj2 (proj1 (proj2 (construct_table_outcomes
                                  [["a"; "b"]; ["c"]]%string true)))).
    exists ["c"%string], ["a"; "b"]%string.
    split; [right; left; reflexivity|].
    split; [left; reflexivity|cbn; lia].
  - apply (proj2 (proj1 (construct_table_outcomes [[]; []] true))).
    repeat constructor.
Defined.

(** [str()] of a [MinidumpMemory64List] never raises, whatever the
    segments: every row of [to_table] has the three cells of the header,
    so [construct_table] returns a text and not [None]. The text is the
    title, the header row, a rule, and one row per segment in the order
    of the list, all of the same length. *)
Theorem memory64_list_str_returns :
  forall self : MinidumpMemory64List.t,
    let widths := Table.count_widths (SegmentTable.to_table self) in
    let total := (list_sum widths + 6)%nat in
    let rows :=
      table_row widths SegmentTable.get_header
      :: Table.replicate total "-"%char
      :: map (fun s => table_row widths (SegmentTable.to_row s))
             (MinidumpMemory64List.memory_segments self) in
    Table.memory64_list_str self
    = Table.Returns ("== MinidumpMemory64List ==" ++ Table.newline
                     ++ unlines rows)%string
    /\ length widths = 3%nat
    /\ length rows
       = (2 + length (MinidumpMemory64List.memory_segments self))%nat
    /\ Forall (fun row => String.length row = total) rows.
Proof.
  intros self widths total rows.
  assert (Hall : Forall (fun line => length line = 3%nat)
                        (SegmentTable.to_table self)).
  { unfold SegmentTable.to_table. constructor; [reflexivity|].
    apply Forall_map, Forall_forall. intros s _. reflexivity. }
  destruct (construct_table_uniform (SegmentTable.to_table self) true 3%nat)
    as (Hlen & Hfit & Htable);
    [unfold SegmentTable.to_table; discriminate|lia|exact Hall|].
  fold widths in Hlen, Hfit, Htable.
  assert (Hrows : with_rule true (Table.replicate total "-"%char)
                            (map (table_row widths) (SegmentTable.to_table self))
                  = rows).
  { unfold rows, SegmentTable.to_table. cbn [map with_rule].
    rewrite map_map. reflexivity. }
  split; [|split; [exact Hlen|split]].
  - unfold Table.memory64_list_str. rewrite Htable.
    change (list_sum widths + 3 * (3 - 1))%nat with total.
    rewrite Hrows. reflexivity.
  - unfold rows. cbn [length]. rewrite length_map. reflexivity.
  - assert (Hw : widths <> [])
      by (intros H0; rewrite H0 in Hlen; discriminate).
    assert (Hrow : forall line, In line (SegmentTable.to_table self) ->
                                String.length (table_row widths line) = total).
    { intros line Hin. unfold total.
      replace 6%nat with (3 * (length widths - 1))%nat by (rewrite Hlen; reflexivity).
      apply length_table_row; [|intros j cell Hcell; exact (Hfit line j cell Hin Hcell)|exact Hw].
      rewrite Hlen. rewrite Forall_forall in Hall. apply Hall. exact Hin. }
    unfold rows. constructor; [apply Hrow; left; reflexivity|].
    constructor; [apply length_replicate|].
    apply Forall_map, Forall_forall. intros s Hin. apply Hrow.
    right. apply in_map. exact Hin.
Qed.
